(** * Geometry routines of FSLeyes ([fsleyes/gl/routines.py])

    A shallow embedding of the sampling, tessellation and slice-geometry
    functions of [routines.py], and the properties stated about them.

    Conventions of the embedding.
    - numpy arrays are lists; an [N*3] array is a list of triples.
    - Floating-point scalars are represented by exact numbers: rationals
      [Q] for the grid, slice, plane and sub-sampling routines, and an
      abstract scalar type (class [Scalar]) for the sphere routines, whose
      properties do not depend on the arithmetic.
    - [numpy.uint32] values are integers reduced modulo [2^32].
    - Python exceptions are the [Raise] results of the [result] type. *)

From Stdlib Require Import String ZArith QArith Qround Qabs Qminmax List Bool Lia Lqa.
From Stdlib Require Import Reals.
From Stdlib Require Lra.
Import ListNotations.

Local Open Scope Z_scope.

(** ** Exceptions and results *)

Inductive exn : Type :=
| ValueError (msg : string)
| IndexError
| OverflowError
| ZeroDivisionError.

Inductive result (A : Type) : Type :=
| Ok (a : A)
| Raise (e : exn).

Arguments Ok {A} a.
Arguments Raise {A} e.

Definition bind {A B : Type} (r : result A) (k : A -> result B) : result B :=
  match r with
  | Ok a => k a
  | Raise e => Raise e
  end.

Notation "x <- r ;; k" := (bind r (fun x => k))
  (at level 61, r at next level, right associativity).

(** ** Triples and axis indexing *)

Definition vec3 (F : Type) : Type := (F * F * F)%type.

(** A Python index [i] into an axis of size 3: [0..2], or [-3..-1] counted
    from the end; anything else is an [IndexError]. *)
Definition norm_axis (i : Z) : result nat :=
  if (0 <=? i) && (i <? 3) then Ok (Z.to_nat i)
  else if (-3 <=? i) && (i <? 0) then Ok (Z.to_nat (i + 3))
  else Raise IndexError.

Definition vget {F} (v : vec3 F) (ax : nat) : F :=
  let '(x, y, z) := v in
  match ax with
  | O => x
  | S O => y
  | _ => z
  end.

Definition vset {F} (v : vec3 F) (ax : nat) (a : F) : vec3 F :=
  let '(x, y, z) := v in
  match ax with
  | O => (a, y, z)
  | S O => (x, a, z)
  | _ => (x, y, a)
  end.

Definition vupd {F} (f : F -> F) (ax : nat) (v : vec3 F) : vec3 F :=
  vset v ax (f (vget v ax)).

(** ** Unsigned 32-bit integers *)

Definition u32 (n : Z) : Z := n mod 2 ^ 32.

(** [a[i] = v] on a one-dimensional array, for a non-negative index. *)
Fixpoint store {A} (a : list A) (i : nat) (v : A) : result (list A) :=
  match a, i with
  | [], _ => Raise IndexError
  | _ :: t, O => Ok (v :: t)
  | h :: t, S j => t' <- store t j v ;; Ok (h :: t')
  end.

(** ** The triangle-strip tessellator *)

Module Strip.

(** [a.reshape(rows, cols, 3)] of an [N*3] array: [rows] consecutive runs
    of [cols] points. *)
Fixpoint chunks {A} (cols rows : nat) (l : list A) : list (list A) :=
  match rows with
  | O => []
  | S r => firstn cols l :: chunks cols r (skipn cols l)
  end.

Definition reshape {A} (rows cols : nat) (l : list A) : result (list (list A)) :=
  if Nat.eqb (length l) (rows * cols) then Ok (chunks cols rows l)
  else Raise (ValueError "cannot reshape array").

(** [a.repeat(2, 0)]: every row twice, in place. *)
Definition repeat_rows {A} (a : list (list A)) : list (list A) :=
  flat_map (fun row => [row; row]) a.

(** [a[:, -1:, :]] and [a[:, :1, :]] on one row. *)
Definition last_col {A} (row : list A) : list A := skipn (length row - 1) row.
Definition first_col {A} (row : list A) : list A := firstn 1 row.

(** Apply [f] to the last point of a row ([a[:, -1, ax] op= ...]). *)
Fixpoint upd_last {A} (f : A -> A) (row : list A) : list A :=
  match row with
  | [] => []
  | [p] => [f p]
  | p :: t => p :: upd_last f t
  end.

(** Apply [f] to the rows of index [start, start+2, ...] ([a[start::2]]),
    for [start] 0 or 1. *)
Fixpoint upd_alt {A} (f : A -> A) (start : bool) (rows : list A) : list A :=
  match rows with
  | [] => []
  | r :: t => (if start then f r else r) :: upd_alt f (negb start) t
  end.

Definition half : Q := 0.5%Q.

(** The body of the loop over [it.product(range(ylen), range(xlen + 1))].
    A Python integer stored into the [uint32] array is reduced modulo
    [2^32]. *)
Definition strip_step (xlen ylen : nat) (indices : list Z) (yx : nat * nat)
  : result (list Z) :=
  let '(yi, xi) := yx in
  let vertsPerRow := 2 * (Z.of_nat xlen + 1) in
  let dVertsPerRow := 2 * (Z.of_nat xlen + 1) + 2 in
  let ii := Z.of_nat yi * dVertsPerRow + 2 * Z.of_nat xi in
  let vi := Z.of_nat yi * vertsPerRow + Z.of_nat xi in
  indices <- store indices (Z.to_nat ii) (u32 vi) ;;
  indices <- store indices (Z.to_nat (ii + 1)) (u32 (vi + Z.of_nat xlen + 1)) ;;
  if (Z.of_nat xi =? Z.of_nat xlen) && (Z.of_nat yi <? Z.of_nat ylen - 1) then
    indices <- store indices (Z.to_nat (ii + 2)) (u32 (vi + Z.of_nat xlen + 1)) ;;
    store indices (Z.to_nat (ii + 3)) (u32 ((Z.of_nat yi + 1) * vertsPerRow))
  else Ok indices.

Fixpoint strip_loop (xlen ylen : nat) (indices : list Z) (todo : list (nat * nat))
  : result (list Z) :=
  match todo with
  | [] => Ok indices
  | yx :: rest =>
      indices <- strip_step xlen ylen indices yx ;;
      strip_loop xlen ylen indices rest
  end.

(** [np.zeros(n, dtype=np.uint32)] for a Python integer [n]. *)
Definition zeros (n : Z) : result (list Z) :=
  if n <? 0 then Raise (ValueError "negative dimensions are not allowed")
  else Ok (repeat 0 (Z.to_nat n)).

Definition samplePointsToTriangleStrip
  (coords : list (vec3 Q)) (xpixdim ypixdim : Q) (xlen ylen : nat) (xax yax : Z)
  : result (list (vec3 Q) * list (vec3 Q) * list Z) :=
  coords <- reshape ylen xlen coords ;;
  let coords := repeat_rows coords in
  let texCoords := coords in
  let worldCoords := coords in
  (* Add an extra column at the end of the world coordinates *)
  let worldCoords := map (fun row => row ++ last_col row) worldCoords in
  xa <- norm_axis xax ;;
  (* the second axis has [xlen + 1] entries, or none when [xlen = 0] *)
  worldCoords <- (if Nat.eqb xlen 0 then Raise IndexError
                  else Ok (map (upd_last (vupd (fun c => c + xpixdim)%Q xa)) worldCoords)) ;;
  (* Add an extra column at the start of the texture coordinates *)
  let texCoords := map (fun row => first_col row ++ row) texCoords in
  (* Move the x/y world coordinates to the sampling point corners *)
  let worldCoords := map (map (vupd (fun c => c - half * xpixdim)%Q xa)) worldCoords in
  ya <- norm_axis yax ;;
  let worldCoords := upd_alt (map (vupd (fun c => c - half * ypixdim)%Q ya)) true worldCoords in
  let worldCoords := upd_alt (map (vupd (fun c => c + half * ypixdim)%Q ya)) false worldCoords in
  let dVertsPerRow := 2 * (Z.of_nat xlen + 1) + 2 in
  let nindices := Z.of_nat ylen * dVertsPerRow - 2 in
  indices <- zeros nindices ;;
  indices <- strip_loop xlen ylen indices (list_prod (seq 0 ylen) (seq 0 (xlen + 1))) ;;
  Ok (concat worldCoords, concat texCoords, indices).

End Strip.

(** ** Scalars and [numpy.linspace] *)

(** The arithmetic the routines use on floating-point values. *)
Class Scalar (F : Type) : Type := {
  fzero : F;
  fadd : F -> F -> F;
  fsub : F -> F -> F;
  fmul : F -> F -> F;
  fdiv : F -> F -> F;
  of_nat : nat -> F
}.

#[global] Instance Q_scalar : Scalar Q := {|
  fzero := 0%Q;
  fadd := Qplus;
  fsub := Qminus;
  fmul := Qmult;
  fdiv := Qdiv;
  of_nat := fun n => inject_Z (Z.of_nat n)
|}.

(** [np.linspace(start, stop, num)] with the default [endpoint=True]:
    [arange(0, num) * step + start] with [step = (stop - start) / (num - 1)],
    the last sample being set to [stop]; for [num <= 1] the samples are
    [arange(0, num) * (stop - start) + start]. *)
Definition linspace {F} `{Scalar F} (start stop : F) (num : nat) : list F :=
  let delta := fsub stop start in
  match num with
  | O => []
  | S O => [fadd (fmul (of_nat 0) delta) start]
  | S n =>
      let step := fdiv delta (of_nat n) in
      map (fun i => fadd (fmul (of_nat i) step) start) (seq 0 n) ++ [stop]
  end.

(** [a[i]] on a Python sequence. *)
Definition py_index {A} (a : list A) (i : Z) : result A :=
  let n := Z.of_nat (length a) in
  let j := if i <? 0 then i + n else i in
  if (0 <=? j) && (j <? n) then
    match nth_error a (Z.to_nat j) with
    | Some x => Ok x
    | None => Raise IndexError
    end
  else Raise IndexError.

(** ** Affine transforms and axis bounds ([fsl.utils.transform]) *)

Module Affine.

Definition row4 : Type := (Q * Q * Q * Q)%type.
Definition mat4 : Type := (row4 * row4 * row4 * row4)%type.

Definition identity : mat4 :=
  ((1, 0, 0, 0), (0, 1, 0, 0), (0, 0, 1, 0), (0, 0, 0, 1))%Q.

Definition apply_row (r : row4) (p : vec3 Q) : Q :=
  let '(a, b, c, t) := r in
  let '(x, y, z) := p in
  (a * x + b * y + c * z + t)%Q.

(** Modelled from the spec: [fsl.utils.transform.transform] is not part of
    the sources; an affine transform is "a 4x4 matrix encoding linear map +
    translation", applied to every point of an [N*3] array. *)
Definition transform (pts : list (vec3 Q)) (m : mat4) : list (vec3 Q) :=
  let '(r0, r1, r2, _) := m in
  map (fun p => (apply_row r0 p, apply_row r1 p, apply_row r2 p)) pts.

(** The eight corners of a grid: with the [centre] convention voxel [x]
    occupies [x - 0.5, x + 0.5), so the grid spans [-0.5, shape - 0.5];
    with the [corner] convention it spans [0, shape]. *)
Definition corners (shape : Z * Z * Z) (origin : string) : list (vec3 Q) :=
  let '(sx, sy, sz) := shape in
  let off : Q := if String.eqb origin "centre" then 0.5%Q else 0%Q in
  let lo : Q := (0 - off)%Q in
  let hx := (inject_Z sx - off)%Q in
  let hy := (inject_Z sy - off)%Q in
  let hz := (inject_Z sz - off)%Q in
  [ (lo, lo, lo); (lo, lo, hz); (lo, hy, lo); (lo, hy, hz);
    (hx, lo, lo); (hx, lo, hz); (hx, hy, lo); (hx, hy, hz) ].

Definition minimum (d : Q) (l : list Q) : Q :=
  match l with
  | [] => d
  | h :: t => fold_left Qmin t h
  end.

Definition maximum (d : Q) (l : list Q) : Q :=
  match l with
  | [] => d
  | h :: t => fold_left Qmax t h
  end.

(** Modelled from the spec: [fsl.utils.transform.axisBounds] is not part of
    the sources; it computes "the bounding interval [min,max] along [a]
    screen axis, by transforming all 8 corners of the grid through the
    affine transform and taking extrema", the corners being those of the
    origin convention ([corners] takes any origin other than 'centre' as
    'corner'). *)
Definition axisBounds (shape : Z * Z * Z) (xform : mat4) (ax : Z) (origin : string)
  : Q * Q :=
  let a := match norm_axis ax with Ok a => a | Raise _ => O end in
  let vals := map (fun p => vget p a) (transform (corners shape origin) xform) in
  (Qred (minimum 0 vals), Qred (maximum 0 vals)).

End Affine.

(** ** The sample-grid calculator *)

Module Sample.

(** A floating-point value that may fail to be finite. *)
Inductive fval : Type :=
| Finite (q : Q)
| PosInf
| NegInf
| NaN.

(** Division of a float by a numpy float, which does not raise when the
    divisor is zero. *)
Definition np_div (a b : Q) : fval :=
  if Qeq_bool b 0 then
    match (a ?= 0)%Q with
    | Gt => PosInf
    | Lt => NegInf
    | Eq => NaN
    end
  else Finite (a / b)%Q.

Section WithBounds.

Variable mat : Type.
(** [transform.axisBounds(shape, xform, axis, origin, boundary=None)] *)
Variable axisBounds : Z * Z * Z -> mat -> Z -> string -> Q * Q.

(** Number of samples along one axis: [np.floor((max - min) / res)].  A
    zero resolution makes the quotient infinite (or not a number), and the
    later conversion of the count to an integer raises. *)
Definition numSamples (lo hi res : Q) : result Z :=
  if Qeq_bool res 0 then
    if Qeq_bool (hi - lo) 0
    then Raise (ValueError "cannot convert float NaN to integer")
    else Raise OverflowError
  else Ok (Qfloor ((hi - lo) / res)).

(** One axis of sample centres:
    [np.linspace(lo + 0.5 * res, hi - 0.5 * res, n)] for the adjusted
    resolution [res = (hi - lo) / n].  A negative [n] is refused, and no
    sample is produced for [n = 0], whatever the end points. *)
Definition axisSamples (lo hi : Q) (n : Z) : result (list Q) :=
  if n <? 0 then Raise (ValueError "Number of samples must be non-negative")
  else
    let res := ((hi - lo) / inject_Z n)%Q in
    Ok (linspace (lo + 0.5 * res)%Q (hi - 0.5 * res)%Q (Z.to_nat n)).

Definition calculateSamplePoints
  (shape : Z * Z * Z) (resolution : list Q) (xform : mat) (xax yax : Z)
  (origin : string)
  : result (list (vec3 Q) * fval * fval * Z * Z) :=
  xres <- py_index resolution xax ;;
  yres <- py_index resolution yax ;;
  let '(xmin, xmax) := axisBounds shape xform xax origin in
  let '(ymin, ymax) := axisBounds shape xform yax origin in
  (* Number of samples along each display axis *)
  xNumSamples <- numSamples xmin xmax xres ;;
  yNumSamples <- numSamples ymin ymax yres ;;
  (* adjust the x/y resolution so the samples fit exactly *)
  let xres := np_div (xmax - xmin) (inject_Z xNumSamples) in
  let yres := np_div (ymax - ymin) (inject_Z yNumSamples) in
  worldX <- axisSamples xmin xmax xNumSamples ;;
  worldY <- axisSamples ymin ymax yNumSamples ;;
  (* np.meshgrid(worldX, worldY), flattened row by row *)
  xa <- norm_axis xax ;;
  ya <- norm_axis yax ;;
  let coords :=
    flat_map (fun y => map (fun x => vset (vset (0, 0, 0)%Q xa x) ya y) worldX)
             worldY in
  Ok (coords, xres, yres, xNumSamples, yNumSamples).

End WithBounds.

End Sample.

(** ** The slice generator *)

Module Slice.

Definition vadd (c : Q) (v : vec3 Q) : vec3 Q :=
  let '(x, y, z) := v in (x + c, y + c, z + c)%Q.

(** [v / dataShape], element by element. *)
Definition vdiv (shape : Z * Z * Z) (v : vec3 Q) : vec3 Q :=
  let '(x, y, z) := v in
  let '(sx, sy, sz) := shape in
  (x / inject_Z sx, y / inject_Z sy, z / inject_Z sz)%Q.

(** Closeness of two points, and of two arrays of points, within [tol] on
    every axis. *)
Definition within (tol : Q) (a b : vec3 Q) : bool :=
  let '(x1, y1, z1) := a in
  let '(x2, y2, z2) := b in
  Qle_bool (Qabs (x1 - x2)) tol &&
  Qle_bool (Qabs (y1 - y2)) tol &&
  Qle_bool (Qabs (z1 - z2)) tol.

Fixpoint all_within (tol : Q) (l1 l2 : list (vec3 Q)) : bool :=
  match l1, l2 with
  | [], [] => true
  | a :: t1, b :: t2 => within tol a b && all_within tol t1 t2
  | _, _ => false
  end.

(** A voxel coordinate inside the bounds of the grid under the [corner]
    convention, where voxel [x] occupies [x, x + 1): between 0 and the
    shape on every axis. *)
Definition in_corner_bounds (shape : Z * Z * Z) (v : vec3 Q) : bool :=
  let '(x, y, z) := v in
  let '(sx, sy, sz) := shape in
  Qle_bool 0 x && Qle_bool x (inject_Z sx) &&
  Qle_bool 0 y && Qle_bool y (inject_Z sy) &&
  Qle_bool 0 z && Qle_bool z (inject_Z sz).

(** A texture coordinate inside [0, 1] on every axis. *)
Definition in_unit_cube (t : vec3 Q) : bool :=
  let '(x, y, z) := t in
  Qle_bool 0 x && Qle_bool x 1 &&
  Qle_bool 0 y && Qle_bool y 1 &&
  Qle_bool 0 z && Qle_bool z 1.

Section WithTransforms.

Variable mat : Type.
(** [transform.axisBounds(shape, xform, axis, origin, boundary=None)] *)
Variable axisBounds : Z * Z * Z -> mat -> Z -> string -> Q * Q.
(** [transform.transform(points, xform)] *)
Variable transform : list (vec3 Q) -> mat -> list (vec3 Q).

(** [vertices[i, [xax, yax]] = [x, y]] for every row [i] of a zero array. *)
Definition plane_vertices (xax yax : Z) (xys : list (Q * Q)) : result (list (vec3 Q)) :=
  xa <- norm_axis xax ;;
  ya <- norm_axis yax ;;
  Ok (map (fun xy => vset (vset (0, 0, 0)%Q xa (fst xy)) ya (snd xy)) xys).

Definition slice2D
  (dataShape : Z * Z * Z) (xax yax : Z) (zpos : Q)
  (voxToDisplayMat displayToVoxMat : mat) (geometry origin : string)
  : result (list (vec3 Q) * list (vec3 Q) * list (vec3 Q)) :=
  let zax := 3 - xax - yax in
  let '(xmin, xmax) := axisBounds dataShape voxToDisplayMat xax origin in
  let '(ymin, ymax) := axisBounds dataShape voxToDisplayMat yax origin in
  vertices <-
    (if String.eqb geometry "triangles" then
       plane_vertices xax yax
         [ (xmin, ymin); (xmin, ymax); (xmax, ymin);
           (xmax, ymin); (xmin, ymax); (xmax, ymax) ]
     else if String.eqb geometry "square" then
       plane_vertices xax yax
         [ (xmin, ymin); (xmax, ymin); (xmax, ymax); (xmin, ymax) ]
     else Raise (ValueError ("Unrecognised geometry type: " ++ geometry)%string)) ;;
  za <- norm_axis zax ;;
  let vertices := map (fun v => vset v za zpos) vertices in
  let voxCoords := transform vertices displayToVoxMat in
  (* offset by 0.5, because voxel coordinates are by default centered at 0 *)
  if String.eqb origin "centre" then
    let voxCoords := map (vadd 0.5) voxCoords in
    let texCoords := map (vdiv dataShape) voxCoords in
    Ok (vertices, voxCoords, texCoords)
  (* the voxel coordinate range [-0.5, shape-0.5] must be scaled to the
     texture coordinate range [0.0, 1.0] *)
  else if String.eqb origin "corner" then
    let texCoords := map (fun v => vdiv dataShape (vadd 0.5 v)) voxCoords in
    Ok (vertices, voxCoords, texCoords)
  else Raise (ValueError ("Unrecognised origin: " ++ origin)%string).

(** The vertices of a slice, as [slice2D] builds them before it looks at
    the origin. *)
Definition slice_vertices (dataShape : Z * Z * Z) (xax yax : Z) (zpos : Q)
  (v2d : mat) (geometry origin : string) : list (vec3 Q) :=
  let '(xmin, xmax) := axisBounds dataShape v2d xax origin in
  let '(ymin, ymax) := axisBounds dataShape v2d yax origin in
  let xa := Z.to_nat xax in
  let ya := Z.to_nat yax in
  let za := Z.to_nat (3 - xax - yax) in
  map (fun xy => vset (vset (vset (0, 0, 0)%Q xa (fst xy)) ya (snd xy)) za zpos)
      (if String.eqb geometry "triangles" then
         [ (xmin, ymin); (xmin, ymax); (xmax, ymin);
           (xmax, ymin); (xmin, ymax); (xmax, ymax) ]
       else
         [ (xmin, ymin); (xmax, ymin); (xmax, ymax); (xmin, ymax) ]).

End WithTransforms.

End Slice.

(** ** The plane equation *)

Module Plane.

Definition planeEquation (xyz1 xyz2 xyz3 : vec3 Q) : Q * Q * Q * Q :=
  let '(x1, y1, z1) := xyz1 in
  let '(x2, y2, z2) := xyz2 in
  let '(x3, y3, z3) := xyz3 in
  let eq0 := ((y1 * (z2 - z3)) + (y2 * (z3 - z1)) + (y3 * (z1 - z2)))%Q in
  let eq1 := ((z1 * (x2 - x3)) + (z2 * (x3 - x1)) + (z3 * (x1 - x2)))%Q in
  let eq2 := ((x1 * (y2 - y3)) + (x2 * (y3 - y1)) + (x3 * (y1 - y2)))%Q in
  let eq3 := (- ((x1 * ((y2 * z3) - (y3 * z2))) +
                 (x2 * ((y3 * z1) - (y1 * z3))) +
                 (x3 * ((y1 * z2) - (y2 * z1)))))%Q in
  (eq0, eq1, eq2, eq3).

End Plane.

(** ** The sub-sampler *)

Module Subsample.

(** [np.round]: the nearest integer, halves going to the even neighbour. *)
Definition np_round (q : Q) : Z :=
  let f := Qfloor q in
  match (q - inject_Z f ?= 1 # 2)%Q with
  | Lt => f
  | Gt => f + 1
  | Eq => if Z.even f then f else f + 1
  end.

(** Every [step]-th element of a list, the first one after skipping [k]. *)
Fixpoint stride {A} (step k : nat) (l : list A) : list A :=
  match l with
  | [] => []
  | h :: t =>
      match k with
      | O => h :: stride step (step - 1) t
      | S k' => stride step k' t
      end
  end.

(** Where the Python slice [a[start::step]] begins on an axis of [n]
    elements ([step >= 1]). *)
Definition slice_begin (start : Z) (n : nat) : nat :=
  if start <? 0 then Z.to_nat (Z.max 0 (start + Z.of_nat n))
  else Nat.min (Z.to_nat start) n.

(** [a[start::step]], for [step >= 1]. *)
Definition slice_from {A} (start step : Z) (l : list A) : list A :=
  stride (Z.to_nat step) (slice_begin start (length l)) l.

(** The number of elements of [a[start::step]] on an axis of [n] elements. *)
Definition slice_len (start step : Z) (n : nat) : nat :=
  ((n - slice_begin start n + (Z.to_nat step - 1)) / Z.to_nat step)%nat.

(** A three-dimensional array: its shape and its elements, axis by axis. *)
Record array3 (A : Type) : Type := {
  shape : nat * nat * nat;
  cells : list (list (list A))
}.

Arguments shape {A} a.
Arguments cells {A} a.

Definition well_shaped {A} (a : array3 A) : Prop :=
  let '(sx, sy, sz) := shape a in
  length (cells a) = sx /\
  Forall (fun plane => length plane = sy /\
                       Forall (fun row => length row = sz) plane) (cells a).

(** [a[i, j, k]] for indices inside the array. *)
Definition get3 {A} (a : array3 A) (i j k : nat) : option A :=
  match nth_error (cells a) i with
  | Some plane =>
      match nth_error plane j with
      | Some row => nth_error row k
      | None => None
      end
  | None => None
  end.

(** [int(np.round(resolution / pixdim[i]))], at least 1.  The division of
    two Python numbers raises when the voxel size is zero. *)
Definition axis_step (resolution pixdim : Q) : result Z :=
  if Qeq_bool pixdim 0 then Raise ZeroDivisionError
  else
    let step := np_round (resolution / pixdim) in
    Ok (if step <? 1 then 1 else step).

(** [int(np.floor(step / 2))], at most [shape[i] - 1]. *)
Definition axis_start (step : Z) (extent : nat) : Z :=
  let start := Qfloor (inject_Z step / 2) in
  if start >=? Z.of_nat extent then Z.of_nat extent - 1 else start.

(** [subsample(data, resolution, pixdim)] for a three-dimensional [data]
    (for which [len(data.shape) > 3] is false and [volume] is not used). *)
Definition subsample {A} (data : array3 A) (resolution : Q)
  (pixdim : option (vec3 Q))
  : result (array3 A * (Z * Z * Z) * (Z * Z * Z)) :=
  let pixdim := match pixdim with
                | None => (1, 1, 1)%Q
                | Some p => p
                end in
  let '(sx, sy, sz) := shape data in
  xstep <- axis_step resolution (vget pixdim 0) ;;
  ystep <- axis_step resolution (vget pixdim 1) ;;
  zstep <- axis_step resolution (vget pixdim 2) ;;
  let xstart := axis_start xstep sx in
  let ystart := axis_start ystep sy in
  let zstart := axis_start zstep sz in
  let sample :=
    {| shape := (slice_len xstart xstep sx,
                 slice_len ystart ystep sy,
                 slice_len zstart zstep sz);
       cells := map (fun plane =>
                       map (slice_from zstart zstep)
                           (slice_from ystart ystep plane))
                    (slice_from xstart xstep (cells data)) |} in
  Ok (sample, (xstart, ystart, zstart), (xstep, ystep, zstep)).

End Subsample.

(** ** The unit sphere *)

Module Sphere.

(** Trigonometry on the scalars. *)
Class Trig (F : Type) : Type := {
  fneg : F -> F;
  fcos : F -> F;
  fsin : F -> F;
  fpi : F
}.

(** [np.tile(a, n)] and [a.repeat(k)] on one-dimensional arrays. *)
Definition tile {A} (a : list A) (n : nat) : list A := concat (repeat a n).
Definition np_repeat {A} (a : list A) (k : nat) : list A :=
  flat_map (fun x => repeat x k) a.

(** [np.arange(n, dtype=np.uint32)] *)
Definition arange (n : nat) : list Z := map (fun i => u32 (Z.of_nat i)) (seq 0 n).

(** An element-wise operation that writes into [a]: the other operand has
    the length of [a], or is a single element used throughout. *)
Definition inplace {A B} (f : A -> B -> A) (a : list A) (b : list B) : result (list A) :=
  if Nat.eqb (length b) (length a) then Ok (map (fun ab => f (fst ab) (snd ab)) (combine a b))
  else
    match b with
    | [x] => Ok (map (fun y => f y x) a)
    | _ => Raise (ValueError "operands could not be broadcast together")
    end.

(** [a += b] on [uint32] arrays. *)
Definition iadd (a b : list Z) : result (list Z) :=
  inplace (fun x y => u32 (x + y)) a b.

(** [a[start::step] = vals]: element [start + i * step] becomes [vals[i]]. *)
Definition assign_stride {A} (start step : nat) (vals : list A) (a : list A)
  : result (list A) :=
  let count := ((length a - start + (step - 1)) / step)%nat in
  let put := fun (vs : list A) =>
    map (fun px =>
           let '(p, x) := px in
           if (start <=? p)%nat && ((p - start) mod step =? 0)%nat
           then nth ((p - start) / step) vs x
           else x)
        (combine (seq 0 (length a)) a) in
  if Nat.eqb (length vals) count then Ok (put vals)
  else
    match vals with
    | [x] => Ok (put (repeat x count))
    | _ => Raise (ValueError "could not broadcast input array")
    end.

(** [vertices[vertices[i] for i in indices]]: the vertices an index array
    refers to. *)
Fixpoint expand {A} (vertices : list A) (indices : list Z) : result (list A) :=
  match indices with
  | [] => Ok []
  | i :: rest =>
      v <- py_index vertices i ;;
      vs <- expand vertices rest ;;
      Ok (v :: vs)
  end.

Section WithScalars.

Context {F : Type} `{Scalar F} `{Trig F}.

(** [np.outer(a, b).flatten()] *)
Definition outer (a b : list F) : list F :=
  flat_map (fun x => map (fun y => fmul x y) b) a.

Definition zip3 (a b c : list F) : list (vec3 F) :=
  map (fun abc => (fst (fst abc), snd (fst abc), snd abc)) (combine (combine a b) c).

Definition two : F := of_nat 2.

Definition unitSphere (res : nat) : result (list (vec3 F) * list Z) :=
  (* All angles to be sampled *)
  let u := linspace (fdiv (fneg fpi) two) (fdiv fpi two) res in
  let v := linspace (fneg fpi) fpi res in
  let cosu := map fcos u in
  let cosv := map fcos v in
  let sinu := map fsin u in
  let sinv := map fsin v in
  let cucv := outer cosu cosv in
  let cusv := outer cosu sinv in
  let vertices := repeat (fzero, fzero, fzero) (res ^ 2) in
  vertices <- inplace (fun p x => vset p 0 x) vertices cucv ;;
  vertices <- inplace (fun p x => vset p 1 x) vertices cusv ;;
  vertices <- inplace (fun p x => vset p 2 x) vertices (np_repeat sinu res) ;;
  match res with
  | O =>
      (* [np.arange(-1).repeat(-4)] *)
      Raise (ValueError "negative dimensions are not allowed")
  | S r =>
      let nquads := (r ^ 2)%nat in
      let quadIdxs := [u32 0; u32 (Z.of_nat res); u32 (Z.of_nat res + 1); u32 1] in
      let indices := tile quadIdxs nquads in
      indices <- iadd indices (np_repeat (arange nquads) 4) ;;
      indices <- iadd indices (np_repeat (arange r) (4 * r)) ;;
      Ok (vertices, indices)
  end.

Definition fullUnitSphere (res : nat) : result (list (vec3 F)) :=
  let u := linspace (fdiv (fneg fpi) two) (fdiv fpi two) res in
  let v := linspace (fneg fpi) fpi res in
  let cosu := map fcos u in
  let cosv := map fcos v in
  let sinu := map fsin u in
  let sinv := map fsin v in
  match res with
  | O =>
      (* [np.repeat(sinu[:-1], -1)] *)
      Raise (ValueError "negative dimensions are not allowed")
  | S r =>
      let vertices := repeat (fzero, fzero, fzero) (r * r * 4) in
      let cucv := outer (removelast cosu) (removelast cosv) in
      let cusv := outer (removelast cosu) (removelast sinv) in
      let cu1cv := outer (tl cosu) (removelast cosv) in
      let cu1sv := outer (tl cosu) (removelast sinv) in
      let cu1cv1 := outer (tl cosu) (tl cosv) in
      let cu1sv1 := outer (tl cosu) (tl sinv) in
      let cucv1 := outer (removelast cosu) (tl cosv) in
      let cusv1 := outer (removelast cosu) (tl sinv) in
      let su := np_repeat (removelast sinu) r in
      let s1u := np_repeat (tl sinu) r in
      vertices <- assign_stride 0 4 (zip3 cucv cusv su) vertices ;;
      vertices <- assign_stride 1 4 (zip3 cu1cv cu1sv s1u) vertices ;;
      vertices <- assign_stride 2 4 (zip3 cu1cv1 cu1sv1 s1u) vertices ;;
      vertices <- assign_stride 3 4 (zip3 cucv1 cusv1 su) vertices ;;
      Ok vertices
  end.

(** The vertex of the sphere at the [i]-th latitude and [j]-th longitude
    sampled for a resolution [res]: [(cos u * cos v, cos u * sin v, sin u)]. *)
Definition vertex_at (res i j : nat) : option (vec3 F) :=
  let u := linspace (fdiv (fneg fpi) two) (fdiv fpi two) res in
  let v := linspace (fneg fpi) fpi res in
  match nth_error u i, nth_error v j with
  | Some a, Some b =>
      Some (fmul (fcos a) (fcos b), fmul (fcos a) (fsin b), fsin a)
  | _, _ => None
  end.

(** The corners of a quad, in the order of the index array:
    [(u, v)], [(u + ustep, v)], [(u + ustep, v + vstep)], [(u, v + vstep)]. *)
Definition quad_corner (c : nat) : nat * nat :=
  match c with
  | 0 => (0, 0)
  | 1 => (1, 0)
  | 2 => (1, 1)
  | _ => (0, 1)
  end%nat.

End WithScalars.

(** The sphere routines over the real numbers. *)
#[global] Instance R_scalar : Scalar R := {|
  fzero := 0%R;
  fadd := Rplus;
  fsub := Rminus;
  fmul := Rmult;
  fdiv := Rdiv;
  of_nat := INR
|}.

#[global] Instance R_trig : Trig R := {|
  fneg := Ropp;
  fcos := cos;
  fsin := sin;
  fpi := PI
|}.

(** A point of the unit sphere. *)
Definition on_unit_sphere (v : vec3 R) : Prop :=
  let '(x, y, z) := v in (x * x + y * y + z * z = 1)%R.

End Sphere.

(** ** The orthographic viewport *)

Module Viewport.

Inductive matrix_mode : Type := GL_PROJECTION | GL_MODELVIEW.

(** The OpenGL calls that [show2D] issues, in order. *)
Inductive glcall : Type :=
| glViewport (x y width height : Z)
| glMatrixMode (mode : matrix_mode)
| glLoadIdentity
| glOrtho (left right bottom top near far : Q)
| glRotatef (angle x y z : Z).

Definition show2D (xax yax width height : Z) (lo hi : list Q)
  : result (list glcall) :=
  let zax := 3 - xax - yax in
  xmin <- py_index lo xax ;;
  xmax <- py_index hi xax ;;
  ymin <- py_index lo yax ;;
  ymax <- py_index hi yax ;;
  zmin <- py_index lo zax ;;
  zmax <- py_index hi zax ;;
  let zdist := Qmax (Qabs zmin) (Qabs zmax) in
  (* Rotate world space so the displayed slice is visible and correctly
     oriented *)
  let rotate :=
    if zax =? 0 then [glRotatef 270 1 0 0; glRotatef 270 0 0 1]
    else if zax =? 1 then [glRotatef 270 1 0 0]
    else [] in
  Ok ([ glViewport 0 0 width height;
        glMatrixMode GL_PROJECTION;
        glLoadIdentity;
        glOrtho xmin xmax ymin ymax (- zdist) zdist;
        glMatrixMode GL_MODELVIEW;
        glLoadIdentity ] ++ rotate).

End Viewport.

(** ** Element-wise addition and slice assignment on arrays *)

(** [a + b] on one-dimensional [uint32] arrays: the operands have the
    same length, or one of them is a single element used throughout. *)
Definition np_add (a b : list Z) : result (list Z) :=
  if Nat.eqb (length a) (length b)
  then Ok (map (fun ab => u32 (fst ab + snd ab)) (combine a b))
  else
    match a, b with
    | _, [y] => Ok (map (fun x => u32 (x + y)) a)
    | [x], _ => Ok (map (fun y => u32 (x + y)) b)
    | _, _ => Raise (ValueError "operands could not be broadcast together")
    end.

(** [a[start:stop] = vals], for [0 <= start <= stop]: the slice is cut at
    the end of [a], and [vals] has its length or is a single element. *)
Definition assign_slice {A} (start stop : nat) (vals : list A) (a : list A)
  : result (list A) :=
  let lo := Nat.min start (length a) in
  let hi := Nat.min stop (length a) in
  let n := (hi - lo)%nat in
  let put := fun (vs : list A) => firstn lo a ++ vs ++ skipn (lo + n) a in
  if Nat.eqb (length vals) n then Ok (put vals)
  else
    match vals with
    | [x] => Ok (put (repeat x n))
    | _ => Raise (ValueError "could not broadcast input array")
    end.

(** A buffer that a loop fills block by block: [buf] has room for [total]
    blocks of [n] elements, the blocks [0 .. i-1] hold [blocks 0 ..
    blocks (i-1)], and the elements after them still hold [zero]. *)
Definition blocks_filled {A} (blocks : nat -> list A) (n total : nat)
  (zero : A) (i : nat) (buf : list A) : Prop :=
  length buf = (n * total)%nat /\
  (forall k j, (k < i)%nat -> (j < n)%nat ->
     nth_error buf (k * n + j) = nth_error (blocks k) j) /\
  (forall p, (i * n <= p < n * total)%nat -> nth_error buf p = Some zero).

(** The entries of the index array of a triangle strip that belong to the
    cell [(yi, xi)] of the grid, for [xlen] columns and [ylen] rows: the
    vertex below and the vertex above the left edge of the cell and,
    after the last column of a row that is not the last one, the two
    repeated vertices that join the row to the next one. *)
Definition strip_cell (xlen ylen : nat) (indices : list Z) (yi xi : nat) : Prop :=
  let vertsPerRow := (2 * (xlen + 1))%nat in
  let dVertsPerRow := (2 * (xlen + 1) + 2)%nat in
  let ii := (yi * dVertsPerRow + 2 * xi)%nat in
  let vi := (yi * vertsPerRow + xi)%nat in
  nth_error indices ii = Some (u32 (Z.of_nat vi)) /\
  nth_error indices (ii + 1) = Some (u32 (Z.of_nat (vi + xlen + 1))) /\
  (xi = xlen -> (yi + 1 < ylen)%nat ->
   nth_error indices (ii + 2) = Some (u32 (Z.of_nat (vi + xlen + 1))) /\
   nth_error indices (ii + 3) = Some (u32 (Z.of_nat ((yi + 1) * vertsPerRow)))).

(** ** The voxel grid *)

Module VoxelGrid.

(** The [points] argument: one point (a one-dimensional array of three
    values) or an [N*3] array. *)
Inductive points_arg : Type :=
| Single (p : vec3 Q)
| Points (ps : list (vec3 Q)).

(** [a[k::step] op= ...]: apply [f] to the elements [k], [k + step], ... *)
Fixpoint upd_every {A} (f : A -> A) (step k : nat) (l : list A) : list A :=
  match l with
  | [] => []
  | h :: t =>
      match k with
      | O => f h :: upd_every f step (step - 1) t
      | S k' => h :: upd_every f step k' t
      end
  end.

(** [np.arange(0, stop, 4, dtype=np.uint32)] for [stop = n * 4]. *)
Definition arange4 (n : nat) : list Z :=
  map (fun i => u32 (Z.of_nat i * 4)) (seq 0 n).

Definition voxelGrid (points : points_arg) (xax yax : Z) (xpixdim ypixdim : Q)
  : result (list (vec3 Q) * list Z) :=
  let points :=
    match points with
    | Single p => [p]
    | Points ps => ps
    end in
  let npoints := length points in
  let vertices := Sphere.np_repeat points 4 in
  let xpixdim := (xpixdim / 2)%Q in
  let ypixdim := (ypixdim / 2)%Q in
  xa <- norm_axis xax ;;
  ya <- norm_axis yax ;;
  (* bottom left corner *)
  let vertices := upd_every (vupd (fun c => c - xpixdim)%Q xa) 4 0 vertices in
  let vertices := upd_every (vupd (fun c => c - ypixdim)%Q ya) 4 0 vertices in
  (* bottom right *)
  let vertices := upd_every (vupd (fun c => c + xpixdim)%Q xa) 4 1 vertices in
  let vertices := upd_every (vupd (fun c => c - ypixdim)%Q ya) 4 1 vertices in
  (* top left *)
  let vertices := upd_every (vupd (fun c => c - xpixdim)%Q xa) 4 2 vertices in
  let vertices := upd_every (vupd (fun c => c + ypixdim)%Q ya) 4 2 vertices in
  (* top right *)
  let vertices := upd_every (vupd (fun c => c + xpixdim)%Q xa) 4 3 vertices in
  let vertices := upd_every (vupd (fun c => c + ypixdim)%Q ya) 4 3 vertices in
  (* each square is rendered as four lines *)
  let indices := map u32 [0; 1; 0; 2; 1; 3; 2; 3] in
  let indices := Sphere.tile indices npoints in
  indices <- np_add indices (Sphere.np_repeat (arange4 npoints) 8) ;;
  Ok (vertices, indices).

End VoxelGrid.

(** ** The multi-slice broadcaster *)

Module Broadcast.

Section WithTransform.

Variable mat : Type.
(** [transform.transform(points, xform)] *)
Variable transform : list (vec3 Q) -> mat -> list (vec3 Q).

(** The arrays that the loop of [broadcast] fills, and its working copy
    of the vertices. *)
Record buffers : Type := {
  vertices : list (vec3 Q);
  allVertCoords : list (vec3 Q);
  allTexCoords : list (vec3 Q);
  allIndices : list Z
}.

(** The body of the loop, for the [i]-th pair [(zpos, xform)]. *)
Definition broadcast_step (nverts nidxs : nat) (indices : list Z) (zax : Z)
  (b : buffers) (i : nat) (zx : Q * mat) : result buffers :=
  let '(zpos, xform) := zx in
  za <- norm_axis zax ;;
  let vertices := map (fun v => vset v za zpos) (vertices b) in
  let vStart := (i * nverts)%nat in
  let vEnd := (vStart + nverts)%nat in
  let iStart := (i * nidxs)%nat in
  let iEnd := (iStart + nidxs)%nat in
  allIndices <-
    assign_slice iStart iEnd
      (map (fun x => u32 (x + Z.of_nat i * Z.of_nat nverts)) indices)
      (allIndices b) ;;
  allTexCoords <- assign_slice vStart vEnd vertices (allTexCoords b) ;;
  allVertCoords <-
    assign_slice vStart vEnd (transform vertices xform) (allVertCoords b) ;;
  Ok {| vertices := vertices;
        allVertCoords := allVertCoords;
        allTexCoords := allTexCoords;
        allIndices := allIndices |}.

Fixpoint broadcast_loop (nverts nidxs : nat) (indices : list Z) (zax : Z)
  (b : buffers) (i : nat) (pairs : list (Q * mat)) : result buffers :=
  match pairs with
  | [] => Ok b
  | zx :: rest =>
      b <- broadcast_step nverts nidxs indices zax b i zx ;;
      broadcast_loop nverts nidxs indices zax b (S i) rest
  end.

Definition broadcast (vertices : list (vec3 Q)) (indices : list Z)
  (zposes : list Q) (xforms : list mat) (zax : Z)
  : result (list (vec3 Q) * list (vec3 Q) * list Z) :=
  let nverts := length vertices in
  let nidxs := length indices in
  let b := {| vertices := vertices;
              allVertCoords := repeat (0, 0, 0)%Q (nverts * length zposes);
              allTexCoords := repeat (0, 0, 0)%Q (nverts * length zposes);
              allIndices := repeat 0 (nidxs * length zposes) |} in
  b <- broadcast_loop nverts nidxs indices zax b 0 (combine zposes xforms) ;;
  Ok (allVertCoords b, allTexCoords b, allIndices b).

End WithTransform.

End Broadcast.

(** ** Plot limits ([fsleyes/views/plotpanel.py]) *)

Module PlotLimits.







End PlotLimits.

(** ** Renderer types ([fsleyes/gl/globject.py]) *)

Module GLObjects.

(** The [GLObject] classes that the type map refers to. *)
Inductive globject_class : Type :=
| GLVolume | GLMask | GLRGBVector | GLLineVector | GLMesh
| GLGiftiMesh | GLLabel | GLTensor | GLSH.

Definition typeMap : list (string * globject_class) :=
  [ ("volume", GLVolume);
    ("mask", GLMask);
    ("rgbvector", GLRGBVector);
    ("linevector", GLLineVector);
    ("mesh", GLMesh);
    ("giftimesh", GLGiftiMesh);
    ("label", GLLabel);
    ("tensor", GLTensor);
    ("sh", GLSH) ]%string.

(** [d.get(key, None)] on a dictionary given by its items. *)
Fixpoint dict_get {V} (d : list (string * V)) (key : string) : option V :=
  match d with
  | [] => None
  | (k, v) :: rest => if String.eqb k key then Some v else dict_get rest key
  end.

Definition getGLObjectType (overlayType : string) : option globject_class :=
  dict_get typeMap overlayType.

Section WithScene.

Variables overlay displayCtx globject : Type.
(** [displayCtx.getDisplay(overlay).overlayType] *)
Variable overlayType : displayCtx -> overlay -> string.
(** The constructor of each [GLObject] class. *)
Variable construct : globject_class -> overlay -> displayCtx -> bool -> globject.

Definition createGLObject (ov : overlay) (ctx : displayCtx) (threedee : bool)
  : option globject :=
  let ctr := getGLObjectType (overlayType ctx ov) in
  match ctr with
  | Some c => Some (construct c ov ctx threedee)
  | None => None
  end.

End WithScene.

End GLObjects.

(** * Properties *)

(** ** Generic list facts *)

Lemma store_spec {A} (P : A -> Prop) (a : list A) (i : nat) (v : A) :
  (i < length a)%nat -> Forall P a -> P v ->
  exists a', store a i v = Ok a' /\ length a' = length a /\ Forall P a'.
Proof.
  revert i; induction a as [|h t IH]; intros i Hi Ha Hv; simpl in Hi; [lia|].
  inversion Ha; subst.
  destruct i as [|j]; simpl.
  - eexists; repeat split; auto.
  - destruct (IH j) as (t' & E & L & F); auto; [lia|].
    rewrite E; simpl. eexists; repeat split; simpl; auto.
Qed.

Lemma length_concat_const {A} (k : nat) (ll : list (list A)) :
  Forall (fun r => length r = k) ll -> length (concat ll) = (length ll * k)%nat.
Proof.
  induction 1 as [|r t Hr _ IH]; simpl; auto.
  rewrite length_app, IH, Hr; lia.
Qed.

(** ** The triangle-strip tessellator *)

Section StripFacts.
Import Strip.

Lemma chunks_shape {A} (cols rows : nat) (l : list A) :
  length l = (rows * cols)%nat ->
  length (chunks cols rows l) = rows /\
  Forall (fun r => length r = cols) (chunks cols rows l).
Proof.
  revert l; induction rows as [|r IH]; intros l Hl; simpl; [split; auto|].
  destruct (IH (skipn cols l)) as [L F].
  { rewrite length_skipn; lia. }
  split; [lia|]. constructor; auto.
  rewrite length_firstn; lia.
Qed.

Lemma repeat_rows_shape {A} (k : nat) (a : list (list A)) :
  Forall (fun r => length r = k) a ->
  length (repeat_rows a) = (2 * length a)%nat /\
  Forall (fun r => length r = k) (repeat_rows a).
Proof.
  induction 1 as [|r t Hr _ [L F]]; simpl; [split; auto|].
  split; [lia|]. repeat constructor; auto.
Qed.

Lemma length_upd_last {A} (f : A -> A) (row : list A) :
  length (upd_last f row) = length row.
Proof.
  induction row as [|p t IH]; simpl; auto.
  destruct t; simpl in *; auto.
Qed.

Lemma upd_alt_shape {A} (P : A -> Prop) (f : A -> A) (b : bool) (rows : list A) :
  (forall r, P r -> P (f r)) -> Forall P rows ->
  length (upd_alt f b rows) = length rows /\ Forall P (upd_alt f b rows).
Proof.
  intros Hf H; revert b; induction H as [|r t Hr _ IH]; intros b; simpl; [split; auto|].
  destruct (IH (negb b)) as [L F]. split; [lia|].
  constructor; auto. destruct b; auto.
Qed.

Lemma Forall_map_len {A B} (k : nat) (g : list A -> list B) (a : list (list A)) (k' : nat) :
  (forall r, length r = k -> length (g r) = k') ->
  Forall (fun r => length r = k) a -> Forall (fun r => length r = k') (map g a).
Proof.
  intros Hg H; induction H; simpl; constructor; auto.
Qed.

Lemma u32_range (n : Z) : 0 <= u32 n < 2 ^ 32.
Proof. unfold u32; apply Z.mod_pos_bound; lia. Qed.

Lemma u32_le (n : Z) : 0 <= n -> u32 n <= n.
Proof. intros H; unfold u32; apply Z.mod_le; lia. Qed.

(** One iteration of the loop writes inside the index array and only
    writes indices of existing vertices. *)
Lemma strip_step_spec (xlen ylen : nat) (indices : list Z) (yi xi : nat) :
  let nverts := (Z.of_nat xlen + 1) * 2 * Z.of_nat ylen in
  let nindices := Z.of_nat ylen * (2 * (Z.of_nat xlen + 1) + 2) - 2 in
  (yi < ylen)%nat -> (xi <= xlen)%nat ->
  Z.of_nat (length indices) = nindices ->
  Forall (fun i => 0 <= i < nverts) indices ->
  exists indices',
    strip_step xlen ylen indices (yi, xi) = Ok indices' /\
    Z.of_nat (length indices') = nindices /\
    Forall (fun i => 0 <= i < nverts) indices'.
Proof.
  intros nverts nindices Hy Hx Hlen Hall.
  assert (Hv : forall v, 0 <= v < nverts -> 0 <= u32 v < nverts).
  { intros v Hv. pose proof (u32_range v). pose proof (u32_le v). lia. }
  unfold strip_step.
  set (ii := Z.of_nat yi * (2 * (Z.of_nat xlen + 1) + 2) + 2 * Z.of_nat xi).
  set (vi := Z.of_nat yi * (2 * (Z.of_nat xlen + 1)) + Z.of_nat xi).
  assert (Hii : 0 <= ii /\ ii + 1 < nindices) by (subst ii nindices; nia).
  assert (Hvi : 0 <= vi /\ vi + Z.of_nat xlen + 1 < nverts) by (subst vi nverts; nia).
  destruct (store_spec (fun i => 0 <= i < nverts) indices (Z.to_nat ii) (u32 vi))
    as (a1 & E1 & L1 & F1); auto; [lia | apply Hv; lia |].
  rewrite E1; simpl.
  destruct (store_spec (fun i => 0 <= i < nverts) a1 (Z.to_nat (ii + 1))
              (u32 (vi + Z.of_nat xlen + 1))) as (a2 & E2 & L2 & F2);
    auto; [lia | apply Hv; lia |].
  rewrite E2; simpl.
  destruct ((Z.of_nat xi =? Z.of_nat xlen) && (Z.of_nat yi <? Z.of_nat ylen - 1)) eqn:Hc.
  - apply andb_true_iff in Hc as [Hc1 Hc2].
    apply Z.eqb_eq in Hc1. apply Z.ltb_lt in Hc2.
    assert (Hi3 : ii + 3 < nindices) by (subst ii nindices; nia).
    destruct (store_spec (fun i => 0 <= i < nverts) a2 (Z.to_nat (ii + 2))
                (u32 (vi + Z.of_nat xlen + 1))) as (a3 & E3 & L3 & F3);
      auto; [lia | apply Hv; lia |].
    rewrite E3; simpl.
    destruct (store_spec (fun i => 0 <= i < nverts) a3 (Z.to_nat (ii + 3))
                (u32 ((Z.of_nat yi + 1) * (2 * (Z.of_nat xlen + 1)))))
      as (a4 & E4 & L4 & F4); auto; [lia | apply Hv; subst nverts; nia |].
    exists a4; repeat split; auto; lia.
  - exists a2; repeat split; auto; lia.
Qed.

Lemma strip_loop_spec (xlen ylen : nat) (todo : list (nat * nat)) (indices : list Z) :
  let nverts := (Z.of_nat xlen + 1) * 2 * Z.of_nat ylen in
  let nindices := Z.of_nat ylen * (2 * (Z.of_nat xlen + 1) + 2) - 2 in
  Forall (fun yx => (fst yx < ylen)%nat /\ (snd yx <= xlen)%nat) todo ->
  Z.of_nat (length indices) = nindices ->
  Forall (fun i => 0 <= i < nverts) indices ->
  exists indices',
    strip_loop xlen ylen indices todo = Ok indices' /\
    Z.of_nat (length indices') = nindices /\
    Forall (fun i => 0 <= i < nverts) indices'.
Proof.
  intros nverts nindices Htodo; revert indices.
  induction Htodo as [|[yi xi] rest [Hy Hx] _ IH]; intros indices Hlen Hall;
    cbn [strip_loop].
  - exists indices; auto.
  - destruct (strip_step_spec xlen ylen indices yi xi Hy Hx Hlen Hall)
      as (a1 & E1 & L1 & F1).
    rewrite E1; cbn [bind]. apply IH; auto.
Qed.

Lemma product_in_range (xlen ylen : nat) :
  Forall (fun yx => (fst yx < ylen)%nat /\ (snd yx <= xlen)%nat)
         (list_prod (seq 0 ylen) (seq 0 (xlen + 1))).
Proof.
  apply Forall_forall; intros [yi xi] Hin.
  apply in_prod_iff in Hin as [Hy Hx].
  apply in_seq in Hy. apply in_seq in Hx. simpl; lia.
Qed.

End StripFacts.

(** C1. For a grid of [M] rows by [N] columns of sample points ([M >= 1],
    [N >= 1]) and valid axis indices, the triangle-strip tessellator returns
    normally, with a vertex buffer (and a texture-coordinate buffer) of
    exactly [(N+1)*2*M] entries and an index buffer of exactly
    [M*(2*(N+1)+2) - 2] indices, each of which is smaller than the length
    of the vertex buffer. *)
Theorem strip_buffer_counts_and_index_bounds
  (coords : list (vec3 Q)) (xpixdim ypixdim : Q) (N M : nat) (xax yax : Z) :
  (1 <= M)%nat -> (1 <= N)%nat ->
  length coords = (M * N)%nat ->
  0 <= xax < 3 -> 0 <= yax < 3 ->
  exists worldCoords texCoords indices,
    Strip.samplePointsToTriangleStrip coords xpixdim ypixdim N M xax yax
      = Ok (worldCoords, texCoords, indices) /\
    Z.of_nat (length worldCoords) = (Z.of_nat N + 1) * 2 * Z.of_nat M /\
    Z.of_nat (length texCoords) = (Z.of_nat N + 1) * 2 * Z.of_nat M /\
    Z.of_nat (length indices) = Z.of_nat M * (2 * (Z.of_nat N + 1) + 2) - 2 /\
    Forall (fun i => 0 <= i < Z.of_nat (length worldCoords)) indices.
Proof.
  intros HM HN Hlen Hx Hy.
  unfold Strip.samplePointsToTriangleStrip, Strip.reshape.
  rewrite Hlen, Nat.eqb_refl; cbn [bind].
  destruct (chunks_shape N M coords Hlen) as [Lc Fc].
  destruct (repeat_rows_shape N _ Fc) as [Lr Fr].
  set (grid := Strip.repeat_rows (Strip.chunks N M coords)) in *.
  unfold norm_axis.
  replace ((0 <=? xax) && (xax <? 3)) with true by (symmetry; apply andb_true_iff; lia).
  replace ((0 <=? yax) && (yax <? 3)) with true by (symmetry; apply andb_true_iff; lia).
  cbn [bind].
  destruct (Nat.eqb_spec N 0) as [E0|_]; [lia|]. cbn [bind].
  unfold Strip.zeros.
  destruct (Z.ltb_spec (Z.of_nat M * (2 * (Z.of_nat N + 1) + 2) - 2) 0) as [Hn|Hn]; [nia|].
  cbn [bind].
  destruct (strip_loop_spec N M (list_prod (seq 0 M) (seq 0 (N + 1)))
              (repeat 0 (Z.to_nat (Z.of_nat M * (2 * (Z.of_nat N + 1) + 2) - 2))))
    as (idx & E & L & F).
  { apply product_in_range. }
  { rewrite repeat_length; lia. }
  { apply Forall_forall; intros i Hi. apply repeat_spec in Hi; subst; nia. }
  do 3 eexists. split; [rewrite E; cbn [bind]; reflexivity|].
  (* shapes of the two coordinate buffers *)
  assert (Fw0 : Forall (fun r : list (vec3 Q) => length r = (N + 1)%nat)
                  (map (fun row => row ++ Strip.last_col row) grid)).
  { apply Forall_map_len with (k := N); auto.
    intros r Hr. unfold Strip.last_col.
    rewrite length_app, length_skipn; lia. }
  assert (Ft : Forall (fun r : list (vec3 Q) => length r = (N + 1)%nat)
                 (map (fun row => Strip.first_col row ++ row) grid)).
  { apply Forall_map_len with (k := N); auto.
    intros r Hr. unfold Strip.first_col.
    rewrite length_app, length_firstn; lia. }
  match goal with
  | |- context [Strip.upd_alt ?f2 false (Strip.upd_alt ?f1 true ?w)] =>
      assert (Fw1 : Forall (fun r : list (vec3 Q) => length r = (N + 1)%nat) w);
      [| destruct (upd_alt_shape (fun r : list (vec3 Q) => length r = (N + 1)%nat)
                     f1 true w) as [L1 F1];
         [intros r Hr; rewrite length_map; exact Hr | exact Fw1 |];
         destruct (upd_alt_shape (fun r : list (vec3 Q) => length r = (N + 1)%nat)
                     f2 false (Strip.upd_alt f1 true w)) as [L2 F2];
         [intros r Hr; rewrite length_map; exact Hr | exact F1 |];
         assert (Lw : length w = (2 * M)%nat)
           by (rewrite !length_map; lia) ]
  end.
  { apply Forall_map_len with (k := (N + 1)%nat); [intros; rewrite length_map; auto|].
    apply Forall_map_len with (k := (N + 1)%nat); [intros; rewrite length_upd_last; auto|].
    exact Fw0. }
  rewrite (length_concat_const (N + 1) _ F2), L2, L1, Lw.
  rewrite (length_concat_const (N + 1) _ Ft), length_map, Lr, Lc.
  repeat split; try lia.
  eapply Forall_impl; [|exact F]. simpl; intros; lia.
Qed.

(** The hypotheses of [strip_buffer_counts_and_index_bounds] hold for a
    grid of 2 rows by 3 columns. *)
Lemma strip_buffer_counts_witness :
  exists worldCoords texCoords indices,
    Strip.samplePointsToTriangleStrip
      (repeat (0, 0, 0)%Q 6) 1 1 3 2 0 1 = Ok (worldCoords, texCoords, indices) /\
    Z.of_nat (length worldCoords) = (Z.of_nat 3 + 1) * 2 * Z.of_nat 2 /\
    Z.of_nat (length texCoords) = (Z.of_nat 3 + 1) * 2 * Z.of_nat 2 /\
    Z.of_nat (length indices) = Z.of_nat 2 * (2 * (Z.of_nat 3 + 1) + 2) - 2 /\
    Forall (fun i => 0 <= i < Z.of_nat (length worldCoords)) indices.
Proof.
  apply (strip_buffer_counts_and_index_bounds (repeat (0, 0, 0)%Q 6) 1 1 3 2 0 1);
    [lia | lia | reflexivity | lia | lia].
Defined.

(** ** The plane equation *)

(** The coefficients returned by [planeEquation] satisfy
    [a*x + b*y + c*z + d = 0] at each of the three points: the fourth
    coefficient is the opposite of the [d] of [a*x + b*y + c*z = d]. *)
Lemma planeEquation_points (p1 p2 p3 : vec3 Q) :
  let '(a, b, c, d) := Plane.planeEquation p1 p2 p3 in
  Forall (fun p => let '(x, y, z) := p in (a * x + b * y + c * z == - d)%Q)
         [p1; p2; p3].
Proof.
  destruct p1 as [[x1 y1] z1], p2 as [[x2 y2] z2], p3 as [[x3 y3] z3].
  unfold Plane.planeEquation.
  repeat constructor; ring.
Qed.

(** C7. On the three non-collinear points (0,0,1), (1,0,1), (0,1,1) of the
    plane [z = 1], [planeEquation] returns (0, 0, 1, -1), and none of the
    points satisfies [a*x + b*y + c*z = d] with these coefficients; on
    (0,0,0), (1,0,0), (0,1,0) it returns (0, 0, 1, 0). *)
Theorem planeEquation_breaks_documented_equation :
  Plane.planeEquation (0, 0, 1)%Q (1, 0, 1)%Q (0, 1, 1)%Q = (0, 0, 1, -1)%Q /\
  Forall (fun p : vec3 Q =>
            let '(x, y, z) := p in ~ (0 * x + 0 * y + 1 * z == -1)%Q)
         [(0, 0, 1)%Q; (1, 0, 1)%Q; (0, 1, 1)%Q] /\
  Plane.planeEquation (0, 0, 0)%Q (1, 0, 0)%Q (0, 1, 0)%Q = (0, 0, 1, 0)%Q.
Proof.
  split; [reflexivity|]. split; [|reflexivity].
  repeat constructor; intro E; vm_compute in E; discriminate.
Qed.

(** ** The slice generator *)

Lemma norm_axis_in_range (i : Z) :
  0 <= i < 3 -> norm_axis i = Ok (Z.to_nat i).
Proof.
  intros Hi; unfold norm_axis.
  replace ((0 <=? i) && (i <? 3)) with true; [reflexivity|].
  symmetry; apply andb_true_iff; split; [apply Z.leb_le | apply Z.ltb_lt]; lia.
Qed.

Lemma within_refl (tol : Q) (a : vec3 Q) :
  (0 <= tol)%Q -> Slice.within tol a a = true.
Proof.
  intros Ht; destruct a as [[x y] z]; unfold Slice.within.
  assert (E : forall q : Q, Qle_bool (Qabs (q - q)) tol = true).
  { intros q. apply Qle_bool_iff.
    assert (E0 : (q - q == 0)%Q) by ring.
    rewrite E0. exact Ht. }
  rewrite !E; reflexivity.
Qed.

Lemma all_within_refl (tol : Q) (l : list (vec3 Q)) :
  (0 <= tol)%Q -> Slice.all_within tol l l = true.
Proof.
  intros Ht; induction l as [|a t IH]; simpl; auto.
  rewrite within_refl, IH; auto.
Qed.

Section SliceFacts.

Variable mat : Type.
Variable axisBounds : Z * Z * Z -> mat -> Z -> string -> Q * Q.
Variable transform : list (vec3 Q) -> mat -> list (vec3 Q).

Lemma slice2D_unfold_valid
  (dataShape : Z * Z * Z) (xax yax : Z) (zpos : Q) (v2d d2v : mat)
  (geometry origin : string) :
  0 <= xax < 3 -> 0 <= yax < 3 -> xax <> yax ->
  geometry = "triangles"%string \/ geometry = "square"%string ->
  Slice.slice2D mat axisBounds transform dataShape xax yax zpos v2d d2v geometry origin =
  let vertices := Slice.slice_vertices mat axisBounds dataShape xax yax zpos v2d geometry origin in
  let voxCoords := transform vertices d2v in
  if String.eqb origin "centre" then
    Ok (vertices, map (Slice.vadd 0.5) voxCoords,
        map (Slice.vdiv dataShape) (map (Slice.vadd 0.5) voxCoords))
  else if String.eqb origin "corner" then
    Ok (vertices, voxCoords,
        map (fun v => Slice.vdiv dataShape (Slice.vadd 0.5 v)) voxCoords)
  else Raise (ValueError ("Unrecognised origin: " ++ origin)%string).
Proof.
  intros Hx Hy Hxy Hg.
  unfold Slice.slice2D, Slice.slice_vertices, Slice.plane_vertices.
  destruct (axisBounds dataShape v2d xax origin) as [xmin xmax].
  destruct (axisBounds dataShape v2d yax origin) as [ymin ymax].
  rewrite (norm_axis_in_range xax Hx), (norm_axis_in_range yax Hy).
  rewrite (norm_axis_in_range (3 - xax - yax)) by lia.
  destruct Hg as [-> | ->]; cbn [String.eqb Ascii.eqb Bool.eqb bind];
    rewrite !map_map; reflexivity.
Qed.

Lemma slice2D_bad_geometry
  (dataShape : Z * Z * Z) (xax yax : Z) (zpos : Q) (v2d d2v : mat)
  (geometry origin : string) :
  geometry <> "triangles"%string -> geometry <> "square"%string ->
  Slice.slice2D mat axisBounds transform dataShape xax yax zpos v2d d2v geometry origin =
  Raise (ValueError ("Unrecognised geometry type: " ++ geometry)%string).
Proof.
  intros H1 H2. unfold Slice.slice2D.
  destruct (axisBounds dataShape v2d xax origin) as [xmin xmax].
  destruct (axisBounds dataShape v2d yax origin) as [ymin ymax].
  apply String.eqb_neq in H1, H2. rewrite H1, H2. reflexivity.
Qed.

End SliceFacts.

Lemma bind_Ok_inv {A B} (r : result A) (k : A -> result B) (b : B) :
  bind r k = Ok b -> exists a, r = Ok a /\ k a = Ok b.
Proof. destruct r as [a|e]; simpl; intros E; [eauto | discriminate]. Qed.

(** What a normal return of [slice2D] looks like, for either origin. *)
Lemma slice2D_Ok_inv
  (mat : Type) (axisBounds : Z * Z * Z -> mat -> Z -> string -> Q * Q)
  (transform : list (vec3 Q) -> mat -> list (vec3 Q))
  (dataShape : Z * Z * Z) (xax yax : Z) (zpos : Q) (v2d d2v : mat)
  (geometry origin : string) (vertices voxCoords texCoords : list (vec3 Q)) :
  Slice.slice2D mat axisBounds transform dataShape xax yax zpos v2d d2v
    geometry origin = Ok (vertices, voxCoords, texCoords) ->
  (origin = "centre"%string /\
   voxCoords = map (Slice.vadd 0.5) (transform vertices d2v) /\
   texCoords = map (Slice.vdiv dataShape) voxCoords) \/
  (origin = "corner"%string /\
   voxCoords = transform vertices d2v /\
   texCoords = map (fun v => Slice.vdiv dataShape (Slice.vadd 0.5 v)) voxCoords).
Proof.
  unfold Slice.slice2D.
  destruct (axisBounds dataShape v2d xax origin) as [xmin xmax].
  destruct (axisBounds dataShape v2d yax origin) as [ymin ymax].
  intros E.
  apply bind_Ok_inv in E as (vs & _ & E).
  apply bind_Ok_inv in E as (za & _ & E).
  destruct (String.eqb_spec origin "centre") as [Hc|Hc].
  - left. inversion E; subst; auto.
  - destruct (String.eqb_spec origin "corner") as [Hk|Hk]; [|discriminate].
    right. inversion E; subst; auto.
Qed.

(** C6. With a valid axis pair, [slice2D] raises a [ValueError] whenever
    the geometry is not 'triangles' or 'square', or the origin is not
    'centre' or 'corner' (no default is substituted); when both are
    recognised it returns normally, with six vertices for 'triangles' and
    four for 'square'. *)
Theorem slice2D_rejects_unrecognised_enums
  (mat : Type) (axisBounds : Z * Z * Z -> mat -> Z -> string -> Q * Q)
  (transform : list (vec3 Q) -> mat -> list (vec3 Q))
  (dataShape : Z * Z * Z) (xax yax : Z) (zpos : Q) (v2d d2v : mat)
  (geometry origin : string) :
  0 <= xax < 3 -> 0 <= yax < 3 -> xax <> yax ->
  let recognised_geometry :=
    geometry = "triangles"%string \/ geometry = "square"%string in
  let recognised_origin :=
    origin = "centre"%string \/ origin = "corner"%string in
  (~ recognised_geometry \/ ~ recognised_origin ->
   exists msg,
     Slice.slice2D mat axisBounds transform dataShape xax yax zpos v2d d2v
       geometry origin = Raise (ValueError msg)) /\
  (recognised_geometry -> recognised_origin ->
   exists vertices voxCoords texCoords,
     Slice.slice2D mat axisBounds transform dataShape xax yax zpos v2d d2v
       geometry origin = Ok (vertices, voxCoords, texCoords) /\
     length vertices = (if String.eqb geometry "triangles" then 6 else 4)%nat).
Proof.
  intros Hx Hy Hxy rg ro; subst rg ro; split.
  - intros Hbad.
    destruct (string_dec geometry "triangles") as [G1|G1];
      [|destruct (string_dec geometry "square") as [G2|G2]].
    3: { eexists; apply slice2D_bad_geometry; assumption. }
    all: destruct Hbad as [Hg|Ho]; [exfalso; apply Hg; auto|].
    all: rewrite slice2D_unfold_valid by auto; cbv zeta.
    all: destruct (String.eqb_spec origin "centre") as [Hc|Hc];
      [exfalso; apply Ho; auto|].
    all: destruct (String.eqb_spec origin "corner") as [Hk|Hk];
      [exfalso; apply Ho; auto|].
    all: eexists; reflexivity.
  - intros Hg Ho.
    rewrite slice2D_unfold_valid by auto; cbv zeta.
    assert (L : length (Slice.slice_vertices mat axisBounds dataShape xax yax zpos
                          v2d geometry origin)
                = (if String.eqb geometry "triangles" then 6 else 4)%nat).
    { unfold Slice.slice_vertices.
      destruct (axisBounds dataShape v2d xax origin) as [xmin xmax].
      destruct (axisBounds dataShape v2d yax origin) as [ymin ymax].
      rewrite length_map. destruct (String.eqb geometry "triangles"); reflexivity. }
    destruct Ho as [-> | ->]; cbn [String.eqb Ascii.eqb Bool.eqb];
      do 3 eexists; split; try reflexivity; exact L.
Qed.

(** The hypotheses of [slice2D_rejects_unrecognised_enums] hold for the
    axes (0, 1). *)
Lemma slice2D_rejects_unrecognised_enums_witness :
  (~ ("circle" = "triangles" \/ "circle" = "square")%string \/
   ~ ("centre" = "centre" \/ "centre" = "corner")%string ->
   exists msg,
     Slice.slice2D Affine.mat4 Affine.axisBounds Affine.transform (4, 4, 4) 0 1 0
       Affine.identity Affine.identity "circle" "centre" = Raise (ValueError msg)) /\
  (("circle" = "triangles" \/ "circle" = "square")%string ->
   ("centre" = "centre" \/ "centre" = "corner")%string ->
   exists vertices voxCoords texCoords,
     Slice.slice2D Affine.mat4 Affine.axisBounds Affine.transform (4, 4, 4) 0 1 0
       Affine.identity Affine.identity "circle" "centre"
       = Ok (vertices, voxCoords, texCoords) /\
     length vertices = (if String.eqb "circle" "triangles" then 6 else 4)%nat).
Proof.
  apply (slice2D_rejects_unrecognised_enums Affine.mat4 Affine.axisBounds
           Affine.transform (4, 4, 4) 0 1 0 Affine.identity Affine.identity
           "circle" "centre"); lia.
Defined.

(** C10. With a valid axis pair and a recognised geometry, [slice2D] with
    origin 'centre' returns as [voxCoords] the inverse transform of the
    display vertices plus 0.5 on every axis, and as [texCoords] exactly
    [voxCoords / dataShape], element by element. *)
Theorem slice2D_centre_voxCoords_offset
  (mat : Type) (axisBounds : Z * Z * Z -> mat -> Z -> string -> Q * Q)
  (transform : list (vec3 Q) -> mat -> list (vec3 Q))
  (dataShape : Z * Z * Z) (xax yax : Z) (zpos : Q) (v2d d2v : mat)
  (geometry : string) :
  0 <= xax < 3 -> 0 <= yax < 3 -> xax <> yax ->
  geometry = "triangles"%string \/ geometry = "square"%string ->
  exists vertices voxCoords texCoords,
    Slice.slice2D mat axisBounds transform dataShape xax yax zpos v2d d2v
      geometry "centre" = Ok (vertices, voxCoords, texCoords) /\
    voxCoords = map (Slice.vadd 0.5) (transform vertices d2v) /\
    texCoords = map (Slice.vdiv dataShape) voxCoords /\
    Forall2 (fun raw v =>
               let '(rx, ry, rz) := raw in
               let '(x, y, z) := v in
               (x - rx == 1 # 2 /\ y - ry == 1 # 2 /\ z - rz == 1 # 2)%Q)
            (transform vertices d2v) voxCoords /\
    Forall2 (fun v t =>
               let '(x, y, z) := v in
               let '(sx, sy, sz) := dataShape in
               t = (x / inject_Z sx, y / inject_Z sy, z / inject_Z sz)%Q)
            voxCoords texCoords.
Proof.
  intros Hx Hy Hxy Hg.
  rewrite slice2D_unfold_valid by auto; cbv zeta.
  cbn [String.eqb Ascii.eqb Bool.eqb].
  do 3 eexists; split; [reflexivity|].
  split; [reflexivity|]. split; [reflexivity|].
  set (raw := transform _ d2v); clearbody raw.
  split.
  - induction raw as [|[[rx ry] rz] t IH]; simpl; constructor; auto.
    repeat split; unfold Qminus; ring_simplify; reflexivity.
  - induction (map (Slice.vadd 0.5) raw) as [|[[x y] z] t IH]; simpl;
      constructor; auto.
    destruct dataShape as [[sx sy] sz]; reflexivity.
Qed.

(** The hypotheses of [slice2D_centre_voxCoords_offset] hold for a 4x4x4
    grid, the identity affine and the axes (0, 1). *)
Lemma slice2D_centre_voxCoords_offset_witness :
  exists vertices voxCoords texCoords,
    Slice.slice2D Affine.mat4 Affine.axisBounds Affine.transform (4, 4, 4) 0 1 0
      Affine.identity Affine.identity "triangles" "centre"
      = Ok (vertices, voxCoords, texCoords) /\
    voxCoords = map (Slice.vadd 0.5) (Affine.transform vertices Affine.identity) /\
    texCoords = map (Slice.vdiv (4, 4, 4)) voxCoords /\
    Forall2 (fun raw v =>
               let '(rx, ry, rz) := raw in
               let '(x, y, z) := v in
               (x - rx == 1 # 2 /\ y - ry == 1 # 2 /\ z - rz == 1 # 2)%Q)
            (Affine.transform vertices Affine.identity) voxCoords /\
    Forall2 (fun v t =>
               let '(x, y, z) := v in
               let '(sx, sy, sz) := (4, 4, 4) in
               t = (x / inject_Z sx, y / inject_Z sy, z / inject_Z sz)%Q)
            voxCoords texCoords.
Proof.
  apply (slice2D_centre_voxCoords_offset Affine.mat4 Affine.axisBounds
           Affine.transform (4, 4, 4) 0 1 0 Affine.identity Affine.identity
           "triangles"); [lia | lia | lia | left; reflexivity].
Defined.

(** For the 4x4x4 grid with identity transforms and origin 'centre', the
    inverse transform of the returned vertices does not match the returned
    [voxCoords] within 1e-5: they differ by 0.5. *)
Lemma slice2D_centre_roundtrip_counterexample :
  exists vertices voxCoords texCoords,
    Slice.slice2D Affine.mat4 Affine.axisBounds Affine.transform (4, 4, 4) 0 1 0
      Affine.identity Affine.identity "triangles" "centre"
      = Ok (vertices, voxCoords, texCoords) /\
    Slice.all_within (1 # 100000)
      (Affine.transform vertices Affine.identity) voxCoords = false.
Proof.
  do 3 eexists; split; [vm_compute; reflexivity | vm_compute; reflexivity].
Qed.

(** C2 (amended). Whenever [slice2D] with origin 'centre' returns, the
    inverse transform of the returned display vertices, offset by 0.5 on
    every axis, matches the returned [voxCoords] within 1e-5 (it is equal
    to it). *)
Theorem slice2D_centre_roundtrip_offset
  (mat : Type) (axisBounds : Z * Z * Z -> mat -> Z -> string -> Q * Q)
  (transform : list (vec3 Q) -> mat -> list (vec3 Q))
  (dataShape : Z * Z * Z) (xax yax : Z) (zpos : Q) (v2d d2v : mat)
  (geometry : string) (vertices voxCoords texCoords : list (vec3 Q)) :
  Slice.slice2D mat axisBounds transform dataShape xax yax zpos v2d d2v
    geometry "centre" = Ok (vertices, voxCoords, texCoords) ->
  Slice.all_within (1 # 100000)
    (map (Slice.vadd 0.5) (transform vertices d2v)) voxCoords = true.
Proof.
  intros E. apply slice2D_Ok_inv in E as [(_ & -> & _) | (Hc & _)];
    [|discriminate].
  apply all_within_refl. discriminate.
Qed.

(** The hypothesis of [slice2D_centre_roundtrip_offset] holds for a 4x4x4
    grid with identity transforms. *)
Lemma slice2D_centre_roundtrip_offset_witness :
  exists vertices voxCoords texCoords,
    Slice.slice2D Affine.mat4 Affine.axisBounds Affine.transform (4, 4, 4) 0 1 0
      Affine.identity Affine.identity "square" "centre"
      = Ok (vertices, voxCoords, texCoords) /\
    Slice.all_within (1 # 100000)
      (map (Slice.vadd 0.5) (Affine.transform vertices Affine.identity))
      voxCoords = true.
Proof.
  do 3 eexists; split; [vm_compute; reflexivity|].
  eapply (slice2D_centre_roundtrip_offset Affine.mat4 Affine.axisBounds
            Affine.transform (4, 4, 4) 0 1 0 Affine.identity Affine.identity
            "square").
  vm_compute; reflexivity.
Defined.

Lemma unit_quotient (a b : Q) :
  (0 < b)%Q -> ((0 <= a / b /\ a / b <= 1) <-> (0 <= a /\ a <= b))%Q.
Proof.
  intros Hb.
  assert (Hnz : ~ (b == 0)%Q) by (intro E; rewrite E in Hb; discriminate).
  assert (Ea : (a / b * b == a)%Q) by (field; exact Hnz).
  set (q := (a / b)%Q) in *.
  split; intros [H0 H1]; split.
  - rewrite <- Ea. apply Qmult_le_0_compat; [exact H0 | apply Qlt_le_weak; exact Hb].
  - assert (H : (q * b <= 1 * b)%Q)
      by (apply Qmult_le_compat_r; [exact H1 | apply Qlt_le_weak; exact Hb]).
    rewrite Qmult_1_l, Ea in H. exact H.
  - apply Qle_shift_div_l; [exact Hb|]. rewrite Qmult_0_l. exact H0.
  - apply Qle_shift_div_r; [exact Hb|]. rewrite Qmult_1_l. exact H1.
Qed.

Lemma corner_texcoord_range (x : Q) (s : Z) :
  0 < s ->
  ((0 <= (x + 0.5) / inject_Z s /\ (x + 0.5) / inject_Z s <= 1) <->
   (- (1 # 2) <= x /\ x <= inject_Z s - (1 # 2)))%Q.
Proof.
  intros Hs.
  assert (Hq : (inject_Z 0 < inject_Z s)%Q) by (rewrite <- Zlt_Qlt; exact Hs).
  change (inject_Z 0) with 0%Q in Hq.
  rewrite (unit_quotient (x + 0.5) (inject_Z s) Hq).
  split; intros [H0 H1]; split; lra.
Qed.

(** For the 4x4x4 grid with identity transforms and origin 'corner', the
    last vertex of the slice sits at voxel coordinate (4, 4, 2), inside the
    grid's voxel-corner bounds [0, 4], and its texture coordinate is
    (1.125, 1.125, 0.625), outside [0, 1]. *)
Lemma slice2D_corner_texCoords_counterexample :
  exists vertices voxCoords texCoords v t,
    Slice.slice2D Affine.mat4 Affine.axisBounds Affine.transform (4, 4, 4) 0 1 2
      Affine.identity Affine.identity "triangles" "corner"
      = Ok (vertices, voxCoords, texCoords) /\
    nth_error voxCoords 5 = Some v /\
    nth_error texCoords 5 = Some t /\
    Slice.in_corner_bounds (4, 4, 4) v = true /\
    Slice.in_unit_cube t = false.
Proof.
  do 5 eexists. split; [vm_compute; reflexivity|].
  split; [reflexivity|]. split; [reflexivity|].
  split; vm_compute; reflexivity.
Qed.

(** C5 (amended). Whenever [slice2D] with origin 'corner' returns, for a
    grid of positive shape, each texture coordinate is the voxel
    coordinate plus 0.5 divided by the shape, and it lies in [0, 1] on an
    axis exactly when the voxel coordinate of the vertex lies in
    [-0.5, shape - 0.5] on that axis. *)
Theorem slice2D_corner_texCoords_range
  (mat : Type) (axisBounds : Z * Z * Z -> mat -> Z -> string -> Q * Q)
  (transform : list (vec3 Q) -> mat -> list (vec3 Q))
  (sx sy sz : Z) (xax yax : Z) (zpos : Q) (v2d d2v : mat)
  (geometry : string) (vertices voxCoords texCoords : list (vec3 Q)) :
  0 < sx -> 0 < sy -> 0 < sz ->
  Slice.slice2D mat axisBounds transform (sx, sy, sz) xax yax zpos v2d d2v
    geometry "corner" = Ok (vertices, voxCoords, texCoords) ->
  Forall2 (fun v t =>
             let '(x, y, z) := v in
             let '(tx, ty, tz) := t in
             t = ((x + 0.5) / inject_Z sx, (y + 0.5) / inject_Z sy,
                  (z + 0.5) / inject_Z sz)%Q /\
             ((0 <= tx /\ tx <= 1) <-> (- (1 # 2) <= x /\ x <= inject_Z sx - (1 # 2)))%Q /\
             ((0 <= ty /\ ty <= 1) <-> (- (1 # 2) <= y /\ y <= inject_Z sy - (1 # 2)))%Q /\
             ((0 <= tz /\ tz <= 1) <-> (- (1 # 2) <= z /\ z <= inject_Z sz - (1 # 2)))%Q)
          voxCoords texCoords.
Proof.
  intros Hx Hy Hz E.
  apply slice2D_Ok_inv in E as [(Hc & _) | (_ & _ & ->)]; [discriminate|].
  induction voxCoords as [|[[x y] z] rest IH]; simpl; constructor; auto.
  split; [reflexivity|].
  split; [|split]; apply corner_texcoord_range; assumption.
Qed.

(** The hypotheses of [slice2D_corner_texCoords_range] hold for a 4x4x4
    grid with identity transforms. *)
Lemma slice2D_corner_texCoords_range_witness :
  exists vertices voxCoords texCoords,
    Slice.slice2D Affine.mat4 Affine.axisBounds Affine.transform (4, 4, 4) 0 1 2
      Affine.identity Affine.identity "triangles" "corner"
      = Ok (vertices, voxCoords, texCoords) /\
    Forall2 (fun v t =>
               let '(x, y, z) := v in
               let '(tx, ty, tz) := t in
               t = ((x + 0.5) / inject_Z 4, (y + 0.5) / inject_Z 4,
                    (z + 0.5) / inject_Z 4)%Q /\
               ((0 <= tx /\ tx <= 1) <-> (- (1 # 2) <= x /\ x <= inject_Z 4 - (1 # 2)))%Q /\
               ((0 <= ty /\ ty <= 1) <-> (- (1 # 2) <= y /\ y <= inject_Z 4 - (1 # 2)))%Q /\
               ((0 <= tz /\ tz <= 1) <-> (- (1 # 2) <= z /\ z <= inject_Z 4 - (1 # 2)))%Q)
            voxCoords texCoords.
Proof.
  do 3 eexists; split; [vm_compute; reflexivity|].
  eapply (slice2D_corner_texCoords_range Affine.mat4 Affine.axisBounds
            Affine.transform 4 4 4 0 1 2 Affine.identity Affine.identity
            "triangles"); [lia | lia | lia | vm_compute; reflexivity].
Defined.

(** ** The sample-grid calculator *)

Lemma length_linspace {F} `{Scalar F} (start stop : F) (num : nat) :
  length (linspace start stop num) = num.
Proof.
  unfold linspace. destruct num as [|[|n]]; try reflexivity.
  rewrite length_app, length_map, length_seq. simpl; lia.
Qed.

Lemma length_flat_map_const {A B} (k : nat) (f : A -> list B) (l : list A) :
  (forall a, length (f a) = k) -> length (flat_map f l) = (length l * k)%nat.
Proof.
  intros Hf; induction l as [|a t IH]; simpl; auto.
  rewrite length_app, Hf, IH; lia.
Qed.

Lemma numSamples_positive (lo hi res : Q) :
  (0 < res)%Q -> (lo <= hi)%Q ->
  Sample.numSamples lo hi res = Ok (Qfloor ((hi - lo) / res)) /\
  0 <= Qfloor ((hi - lo) / res) /\
  ((hi - lo < res)%Q -> Qfloor ((hi - lo) / res) = 0).
Proof.
  intros Hres Hle. unfold Sample.numSamples.
  destruct (Qeq_bool res 0) eqn:E.
  { apply Qeq_bool_iff in E. rewrite E in Hres. discriminate. }
  assert (Hq : (0 <= (hi - lo) / res)%Q).
  { apply Qle_shift_div_l; [exact Hres | lra]. }
  assert (H0 : 0 <= Qfloor ((hi - lo) / res)).
  { change 0 with (Qfloor 0). apply Qfloor_resp_le. exact Hq. }
  repeat split; auto.
  intros Hlt.
  assert (H1 : ((hi - lo) / res < 1)%Q).
  { apply Qlt_shift_div_r; [exact Hres | lra]. }
  pose proof (Qfloor_le ((hi - lo) / res)) as Hf.
  assert (Hz : (inject_Z (Qfloor ((hi - lo) / res)) < inject_Z 1)%Q).
  { eapply Qle_lt_trans; [exact Hf | exact H1]. }
  rewrite <- Zlt_Qlt in Hz. lia.
Qed.

(** For the 4x4x4 grid with the identity affine and origin 'centre', whose
    bounds along axis 0 are [-0.5, 3.5], a resolution of 5 gives a sample
    count of 0 on both axes (and no sample point), not 1. *)
Lemma calculateSamplePoints_count_counterexample :
  Affine.axisBounds (4, 4, 4) Affine.identity 0 "centre" = (- (1 # 2), 7 # 2)%Q /\
  exists coords xres yres xcount ycount,
    Sample.calculateSamplePoints Affine.mat4 Affine.axisBounds (4, 4, 4)
      [5; 5; 5]%Q Affine.identity 0 1 "centre"
      = Ok (coords, xres, yres, xcount, ycount) /\
    xcount <> Z.max 1 (Qfloor (((7 # 2) - - (1 # 2)) / 5)) /\
    xcount = 0 /\ ycount = 0 /\ coords = [].
Proof.
  split; [vm_compute; reflexivity|].
  do 5 eexists. split; [vm_compute; reflexivity|].
  split; [vm_compute; discriminate|]. auto.
Qed.

(** C3 (amended). For valid axes, positive resolutions and bounds with
    [min <= max], the sample-grid calculator returns normally, with a
    sample count per axis equal to [floor((max - min) / resolution)],
    which is not clamped, and with as many sample points as the product of
    the counts; a resolution larger than the extent of the x axis gives
    the count 0 and no sample point. *)
Theorem calculateSamplePoints_counts
  (mat : Type) (axisBounds : Z * Z * Z -> mat -> Z -> string -> Q * Q)
  (shape : Z * Z * Z) (resolution : list Q) (xform : mat) (xax yax : Z)
  (origin : string) (xres yres xmin xmax ymin ymax : Q) :
  0 <= xax < 3 -> 0 <= yax < 3 ->
  py_index resolution xax = Ok xres ->
  py_index resolution yax = Ok yres ->
  (0 < xres)%Q -> (0 < yres)%Q ->
  axisBounds shape xform xax origin = (xmin, xmax) ->
  axisBounds shape xform yax origin = (ymin, ymax) ->
  (xmin <= xmax)%Q -> (ymin <= ymax)%Q ->
  let xcount := Qfloor ((xmax - xmin) / xres) in
  let ycount := Qfloor ((ymax - ymin) / yres) in
  exists coords xres' yres',
    Sample.calculateSamplePoints mat axisBounds shape resolution xform xax yax
      origin = Ok (coords, xres', yres', xcount, ycount) /\
    0 <= xcount /\ 0 <= ycount /\
    Z.of_nat (length coords) = xcount * ycount /\
    ((xmax - xmin < xres)%Q -> xcount = 0 /\ coords = []).
Proof.
  intros Hx Hy Ex Ey Hxres Hyres Bx By Hxle Hyle xcount ycount.
  unfold Sample.calculateSamplePoints.
  rewrite Ex, Ey, Bx, By; cbn [bind].
  destruct (numSamples_positive xmin xmax xres Hxres Hxle) as (Nx & Px & Zx).
  destruct (numSamples_positive ymin ymax yres Hyres Hyle) as (Ny & Py & _).
  rewrite Nx, Ny; cbn [bind]. fold xcount ycount in Px, Py, Zx |- *.
  unfold Sample.axisSamples.
  destruct (Z.ltb_spec xcount 0) as [Hn|_]; [lia|].
  destruct (Z.ltb_spec ycount 0) as [Hn|_]; [lia|].
  cbn [bind].
  rewrite (norm_axis_in_range xax Hx), (norm_axis_in_range yax Hy); cbn [bind].
  do 3 eexists; split; [reflexivity|].
  split; [exact Px|]. split; [exact Py|]. split.
  - rewrite length_flat_map_const with (k := Z.to_nat xcount).
    + rewrite length_linspace. nia.
    + intros a. rewrite length_map, length_linspace. reflexivity.
  - intros Hlt. specialize (Zx Hlt). split; [exact Zx|].
    rewrite Zx. simpl.
    induction (linspace _ _ (Z.to_nat ycount)); simpl; auto.
Qed.

(** The hypotheses of [calculateSamplePoints_counts] hold for the 4x4x4
    grid with the identity affine and a resolution of 5. *)
Lemma calculateSamplePoints_counts_witness :
  exists coords xres' yres',
    Sample.calculateSamplePoints Affine.mat4 Affine.axisBounds (4, 4, 4)
      [5; 5; 5]%Q Affine.identity 0 1 "centre"
      = Ok (coords, xres', yres',
            Qfloor (((7 # 2) - - (1 # 2)) / 5), Qfloor (((7 # 2) - - (1 # 2)) / 5)) /\
    0 <= Qfloor (((7 # 2) - - (1 # 2)) / 5) /\
    0 <= Qfloor (((7 # 2) - - (1 # 2)) / 5) /\
    Z.of_nat (length coords)
      = Qfloor (((7 # 2) - - (1 # 2)) / 5) * Qfloor (((7 # 2) - - (1 # 2)) / 5) /\
    (((7 # 2) - - (1 # 2) < 5)%Q ->
     Qfloor (((7 # 2) - - (1 # 2)) / 5) = 0 /\ coords = []).
Proof.
  apply (calculateSamplePoints_counts Affine.mat4 Affine.axisBounds (4, 4, 4)
           [5; 5; 5]%Q Affine.identity 0 1 "centre" 5%Q 5%Q
           (- (1 # 2))%Q (7 # 2)%Q (- (1 # 2))%Q (7 # 2)%Q);
    try lia; try reflexivity; try (vm_compute; reflexivity);
    vm_compute; discriminate.
Defined.

(** For shape (4,4,4), the identity affine, axes (0,1), resolution 1 and
    origin 'centre', the X values of the sample points are not the set
    {-1.5, -0.5, 0.5, 1.5}: no sample point has X = -1.5, and the sample
    points do not all have their X among these four values. *)
Lemma calculateSamplePoints_concrete_counterexample :
  exists coords xres yres xcount ycount,
    Sample.calculateSamplePoints Affine.mat4 Affine.axisBounds (4, 4, 4)
      [1; 1; 1]%Q Affine.identity 0 1 "centre"
      = Ok (coords, xres, yres, xcount, ycount) /\
    existsb (fun p => Qeq_bool (vget p 0) (-1.5)) coords = false /\
    forallb (fun p => existsb (Qeq_bool (vget p 0)) [-1.5; -0.5; 0.5; 1.5]%Q)
            coords = false.
Proof.
  do 5 eexists. split; [vm_compute; reflexivity|].
  split; vm_compute; reflexivity.
Qed.

(** C4 (amended). For shape (4,4,4), the identity affine, axes (0,1),
    resolution 1 and origin 'centre', the bounds along both axes are
    [-0.5, 3.5]; the sample-grid calculator returns [xcount = 4],
    [ycount = 4], adjusted resolutions equal to 1, and 16 sample points,
    row by row, whose X values are exactly 0, 1, 2, 3 in every row (the
    sample centres, 0.5 inward from the boundary -0.5..3.5) and whose Y
    values are 0, 1, 2, 3 from row to row. *)
Theorem calculateSamplePoints_concrete_grid :
  Affine.axisBounds (4, 4, 4) Affine.identity 0 "centre" = (- (1 # 2), 7 # 2)%Q /\
  Affine.axisBounds (4, 4, 4) Affine.identity 1 "centre" = (- (1 # 2), 7 # 2)%Q /\
  exists coords xres yres,
    Sample.calculateSamplePoints Affine.mat4 Affine.axisBounds (4, 4, 4)
      [1; 1; 1]%Q Affine.identity 0 1 "centre"
      = Ok (coords, Sample.Finite xres, Sample.Finite yres, 4, 4) /\
    (xres == 1)%Q /\ (yres == 1)%Q /\
    length coords = 16%nat /\
    map (fun p => Qred (vget p 0)) coords
      = [0; 1; 2; 3; 0; 1; 2; 3; 0; 1; 2; 3; 0; 1; 2; 3]%Q /\
    map (fun p => Qred (vget p 1)) coords
      = [0; 0; 0; 0; 1; 1; 1; 1; 2; 2; 2; 2; 3; 3; 3; 3]%Q /\
    map (fun p => Qred (vget p 2)) coords = repeat 0%Q 16.
Proof.
  split; [vm_compute; reflexivity|]. split; [vm_compute; reflexivity|].
  do 3 eexists. split; [vm_compute; reflexivity|].
  repeat split; vm_compute; reflexivity.
Qed.

(** ** The sub-sampler *)

Section SubsampleFacts.
Import Subsample.

(** [np_round] returns a nearest integer. *)
Lemma np_round_nearest (q : Q) :
  (Qabs (q - inject_Z (np_round q)) <= 1 # 2)%Q.
Proof.
  unfold np_round.
  pose proof (Qfloor_le q) as Hlo.
  pose proof (Qlt_floor q) as Hhi.
  rewrite inject_Z_plus in Hhi. change (inject_Z 1) with 1%Q in Hhi.
  apply Qabs_Qle_condition.
  destruct (Qcompare_spec (q - inject_Z (Qfloor q)) (1 # 2)) as [E|E|E];
    [destruct (Z.even (Qfloor q))|..];
    rewrite ?inject_Z_plus; change (inject_Z 1) with 1%Q;
    set (g := inject_Z (Qfloor q)) in *; clearbody g; split; lra.
Qed.

(** On a half, [np_round] returns the even neighbour. *)
Lemma np_round_half_even (n : Z) :
  np_round (inject_Z n + (1 # 2)) = if Z.even n then n else n + 1.
Proof.
  unfold np_round.
  assert (Hf : Qfloor (inject_Z n + (1 # 2)) = n).
  { pose proof (Qfloor_le (inject_Z n + (1 # 2))) as Hlo.
    pose proof (Qlt_floor (inject_Z n + (1 # 2))) as Hhi.
    set (f := Qfloor _) in *. clearbody f.
    assert (H1 : (inject_Z f < inject_Z (n + 1))%Q).
    { rewrite inject_Z_plus in *. change (inject_Z 1) with 1%Q in *.
      set (a := inject_Z f) in *; set (b := inject_Z n) in *.
      clearbody a b. lra. }
    assert (H2 : (inject_Z (n + -1) < inject_Z f)%Q).
    { rewrite inject_Z_plus in *. change (inject_Z 1) with 1%Q in *.
      change (inject_Z (-1)) with (-1)%Q.
      set (a := inject_Z f) in *; set (b := inject_Z n) in *.
      clearbody a b. lra. }
    rewrite <- Zlt_Qlt in H1, H2. lia. }
  rewrite Hf.
  assert (E : (inject_Z n + (1 # 2) - inject_Z n == 1 # 2)%Q) by ring.
  rewrite E. reflexivity.
Qed.

Lemma nth_error_stride {A} (step : nat) (l : list A) :
  (1 <= step)%nat ->
  forall k i, nth_error (stride step k l) i = nth_error l (k + i * step).
Proof.
  intros Hs; induction l as [|h t IH]; intros k i; simpl.
  - destruct i, (k + _)%nat; reflexivity.
  - destruct k as [|k'].
    + destruct i as [|i']; simpl; [reflexivity|].
      rewrite IH. replace (step + i' * step)%nat with (S (step - 1 + i' * step)) by lia.
      reflexivity.
    + rewrite IH. reflexivity.
Qed.

Lemma length_stride {A} (step : nat) (l : list A) :
  (1 <= step)%nat ->
  forall k, length (stride step k l) = ((length l - k + (step - 1)) / step)%nat.
Proof.
  intros Hs; induction l as [|h t IH]; intros k; simpl.
  - symmetry; apply Nat.div_small; lia.
  - destruct k as [|k']; simpl.
    + rewrite IH.
      destruct (Nat.le_gt_cases (step - 1) (length t)) as [Hle|Hgt].
      * replace (length t - (step - 1) + (step - 1))%nat with (length t) by lia.
        replace (S (length t + (step - 1))) with (length t + 1 * step)%nat by lia.
        rewrite Nat.div_add by lia. lia.
      * replace (length t - (step - 1) + (step - 1))%nat with (step - 1)%nat by lia.
        replace (S (length t + (step - 1))) with (length t + 1 * step)%nat by lia.
        rewrite Nat.div_add by lia.
        rewrite !Nat.div_small by lia. reflexivity.
    + rewrite IH. reflexivity.
Qed.

Lemma Forall_stride {A} (P : A -> Prop) (step : nat) (l : list A) :
  Forall P l -> forall k, Forall P (stride step k l).
Proof.
  induction 1 as [|h t Hh _ IH]; intros k; simpl; [constructor|].
  destruct k; [constructor|]; auto.
Qed.

Lemma Forall_slice_from {A} (P : A -> Prop) (start step : Z) (l : list A) :
  Forall P l -> Forall P (slice_from start step l).
Proof. intros H; unfold slice_from; apply Forall_stride; exact H. Qed.

Lemma length_slice_from {A} (start step : Z) (l : list A) :
  1 <= step ->
  length (slice_from start step l) = slice_len start step (length l).
Proof.
  intros Hs. unfold slice_from, slice_len. apply length_stride. lia.
Qed.

Lemma axis_step_spec (resolution pixdim : Q) :
  (0 < pixdim)%Q ->
  axis_step resolution pixdim = Ok (Z.max 1 (np_round (resolution / pixdim))).
Proof.
  intros Hp. unfold axis_step.
  destruct (Qeq_bool pixdim 0) eqn:E.
  { apply Qeq_bool_iff in E. rewrite E in Hp. discriminate. }
  f_equal. destruct (Z.ltb_spec (np_round (resolution / pixdim)) 1); lia.
Qed.

Lemma axis_start_spec (step : Z) (extent : nat) :
  axis_start step extent = Z.min (step / 2) (Z.of_nat extent - 1).
Proof.
  unfold axis_start.
  change (inject_Z step / 2)%Q with (inject_Z step / inject_Z 2)%Q.
  rewrite <- Zdiv_Qdiv.
  destruct (Z.geb_spec (step / 2) (Z.of_nat extent)); lia.
Qed.

(** The slice that [subsample] takes along one axis starts at the computed
    start offset. *)
Lemma nth_error_axis_slice {A} (step : Z) (l : list A) (i : nat) :
  1 <= step ->
  nth_error (slice_from (axis_start step (length l)) step l) i
  = nth_error l (Z.to_nat (axis_start step (length l)) + i * Z.to_nat step).
Proof.
  intros Hs. unfold slice_from.
  rewrite nth_error_stride by lia.
  destruct l as [|h t]; [destruct (_ + _)%nat, (_ + _)%nat; reflexivity|].
  f_equal. f_equal.
  rewrite axis_start_spec. unfold slice_begin.
  assert (0 <= step / 2) by (apply Z.div_pos; lia).
  simpl length.
  destruct (Z.ltb_spec (Z.min (step / 2) (Z.of_nat (S (length t)) - 1)) 0); lia.
Qed.

End SubsampleFacts.

Lemma get3_subsampled {A} (data : Subsample.array3 A) (xstep ystep zstep : Z)
  (i j k : nat) :
  Subsample.well_shaped data ->
  1 <= xstep -> 1 <= ystep -> 1 <= zstep ->
  let '(sx, sy, sz) := Subsample.shape data in
  let xstart := Subsample.axis_start xstep sx in
  let ystart := Subsample.axis_start ystep sy in
  let zstart := Subsample.axis_start zstep sz in
  forall shp,
  Subsample.get3
    {| Subsample.shape := shp;
       Subsample.cells :=
         map (fun plane =>
                map (Subsample.slice_from zstart zstep)
                    (Subsample.slice_from ystart ystep plane))
             (Subsample.slice_from xstart xstep (Subsample.cells data)) |} i j k
  = Subsample.get3 data
      (Z.to_nat xstart + i * Z.to_nat xstep)
      (Z.to_nat ystart + j * Z.to_nat ystep)
      (Z.to_nat zstart + k * Z.to_nat zstep).
Proof.
  unfold Subsample.well_shaped.
  destruct data as [[[sx sy] sz] C]; simpl.
  intros [Lx Wf] Hx Hy Hz shp.
  unfold Subsample.get3; simpl.
  rewrite nth_error_map. subst sx.
  rewrite nth_error_axis_slice by assumption.
  destruct (nth_error C _) as [plane|] eqn:Ep; simpl; [|reflexivity].
  apply nth_error_In in Ep. rewrite Forall_forall in Wf.
  destruct (Wf plane Ep) as [Ly Wr]. subst sy.
  rewrite nth_error_map, nth_error_axis_slice by assumption.
  destruct (nth_error plane _) as [row|] eqn:Er; simpl; [|reflexivity].
  apply nth_error_In in Er. rewrite Forall_forall in Wr.
  rewrite <- (Wr row Er).
  apply nth_error_axis_slice; assumption.
Qed.

(** C9. For a well-shaped three-dimensional array, a resolution and
    positive voxel sizes, [subsample] returns normally; the step along
    each axis is [round(resolution / pixdim)], at least 1, the start is
    [floor(step / 2)], at most [shape - 1]; the sample is the array
    [data[start::step]] along each axis: it is well-shaped, with
    [ceil((shape - start) / step)] elements along an axis, and its element
    [(i, j, k)] is the element [(start + i * step)] of [data], axis by
    axis.  For a resolution of 4 and voxel sizes (2, 2, 2) the step is
    (2, 2, 2) and the start is 1 on each axis, or [shape - 1] on an axis
    with fewer than two elements. *)
Theorem subsample_strided_sample {A} (data : Subsample.array3 A)
  (resolution : Q) (px py pz : Q) :
  Subsample.well_shaped data ->
  (0 < px)%Q -> (0 < py)%Q -> (0 < pz)%Q ->
  let sx := fst (fst (Subsample.shape data)) in
  let sy := snd (fst (Subsample.shape data)) in
  let sz := snd (Subsample.shape data) in
  let step := fun pixdim => Z.max 1 (Subsample.np_round (resolution / pixdim)) in
  let start := fun pixdim extent =>
    Z.min (step pixdim / 2) (Z.of_nat extent - 1) in
  exists sample,
    Subsample.subsample data resolution (Some (px, py, pz))
      = Ok (sample, (start px sx, start py sy, start pz sz),
            (step px, step py, step pz)) /\
    Subsample.well_shaped sample /\
    Subsample.shape sample
      = (Subsample.slice_len (start px sx) (step px) sx,
         Subsample.slice_len (start py sy) (step py) sy,
         Subsample.slice_len (start pz sz) (step pz) sz) /\
    (forall i j k,
        Subsample.get3 sample i j k
        = Subsample.get3 data
            (Z.to_nat (start px sx) + i * Z.to_nat (step px))
            (Z.to_nat (start py sy) + j * Z.to_nat (step py))
            (Z.to_nat (start pz sz) + k * Z.to_nat (step pz))) /\
    (resolution = 4%Q -> (px, py, pz) = (2, 2, 2)%Q ->
     (step px, step py, step pz) = (2, 2, 2) /\
     (start px sx, start py sy, start pz sz)
     = (Z.min 1 (Z.of_nat sx - 1), Z.min 1 (Z.of_nat sy - 1),
        Z.min 1 (Z.of_nat sz - 1))).
Proof.
  intros Wf Hpx Hpy Hpz sx sy sz step start.
  pose proof (get3_subsampled data (step px) (step py) (step pz)) as G.
  unfold Subsample.subsample.
  destruct data as [[[dx dy] dz] C]; simpl in *.
  subst sx sy sz.
  rewrite !axis_step_spec by assumption; cbn [bind].
  rewrite !axis_start_spec. fold (step px) (step py) (step pz).
  fold (start px dx) (start py dy) (start pz dz).
  assert (Sx : 1 <= step px) by (unfold step; lia).
  assert (Sy : 1 <= step py) by (unfold step; lia).
  assert (Sz : 1 <= step pz) by (unfold step; lia).
  eexists; split; [reflexivity|].
  unfold Subsample.well_shaped in Wf |- *; simpl in Wf |- *.
  destruct Wf as [Lx Wp].
  split; [|split; [reflexivity|split]].
  - split.
    + rewrite length_map, length_slice_from, Lx by assumption. reflexivity.
    + apply Forall_map, Forall_slice_from.
      eapply Forall_impl; [|exact Wp].
      intros plane [Ly Wr]. split.
      * rewrite length_map, length_slice_from, Ly by assumption. reflexivity.
      * apply Forall_map, Forall_slice_from.
        eapply Forall_impl; [|exact Wr].
        intros row Lz. cbv beta.
        rewrite length_slice_from, Lz by assumption. reflexivity.
  - intros i j k.
    specialize (G i j k (conj Lx Wp) Sx Sy Sz).
    rewrite !axis_start_spec in G. apply G.
  - intros -> E. inversion E; subst.
    unfold start, step. split; reflexivity.
Qed.

(** ** The unit sphere *)

(** *** Elements of tiled, repeated and combined arrays *)

Lemma nth_error_flat_map_block {A B} (f : A -> list B) (k : nat) (l : list A) :
  (forall a, length (f a) = k) ->
  forall i j, (j < k)%nat ->
  nth_error (flat_map f l) (i * k + j)
  = match nth_error l i with
    | Some a => nth_error (f a) j
    | None => None
    end.
Proof.
  intros Hf; induction l as [|a t IH]; intros i j Hj; simpl.
  - destruct i, (_ + _)%nat; reflexivity.
  - destruct i as [|i']; simpl.
    + apply nth_error_app1. rewrite Hf; exact Hj.
    + rewrite nth_error_app2 by (rewrite Hf; lia).
      rewrite Hf. replace (k + i' * k + j - k)%nat with (i' * k + j)%nat by lia.
      apply IH; exact Hj.
Qed.

Lemma nth_error_tile {A} (a : list A) (n q c : nat) :
  (c < length a)%nat ->
  nth_error (Sphere.tile a n) (q * length a + c)
  = if (q <? n)%nat then nth_error a c else None.
Proof.
  intros Hc. unfold Sphere.tile. revert q; induction n as [|n IH]; intros q; simpl.
  - destruct (_ + _)%nat; reflexivity.
  - destruct q as [|q']; simpl.
    + apply nth_error_app1; exact Hc.
    + rewrite nth_error_app2 by lia.
      replace (length a + q' * length a + c - length a)%nat
        with (q' * length a + c)%nat by lia.
      rewrite IH. reflexivity.
Qed.

Lemma nth_error_np_repeat {A} (a : list A) (k i j : nat) :
  (j < k)%nat ->
  nth_error (Sphere.np_repeat a k) (i * k + j) = nth_error a i.
Proof.
  intros Hj. unfold Sphere.np_repeat.
  rewrite nth_error_flat_map_block by (auto; intros; apply repeat_length).
  destruct (nth_error a i); [apply nth_error_repeat; exact Hj | reflexivity].
Qed.

Lemma length_np_repeat {A} (a : list A) (k : nat) :
  length (Sphere.np_repeat a k) = (length a * k)%nat.
Proof.
  unfold Sphere.np_repeat. apply length_flat_map_const.
  intros; apply repeat_length.
Qed.

Lemma length_tile {A} (a : list A) (n : nat) :
  length (Sphere.tile a n) = (n * length a)%nat.
Proof.
  unfold Sphere.tile. induction n as [|n IH]; simpl; auto.
  rewrite length_app, IH. reflexivity.
Qed.

Lemma nth_error_arange (n q : nat) :
  nth_error (Sphere.arange n) q
  = if (q <? n)%nat then Some (u32 (Z.of_nat q)) else None.
Proof.
  unfold Sphere.arange. rewrite nth_error_map, nth_error_seq.
  destruct (q <? n)%nat; reflexivity.
Qed.

Lemma length_arange (n : nat) : length (Sphere.arange n) = n.
Proof. unfold Sphere.arange. rewrite length_map, length_seq. reflexivity. Qed.

Lemma nth_error_combine_map {A B C} (g : A * B -> C) (a : list A) (b : list B) (p : nat) :
  nth_error (map g (combine a b)) p
  = match nth_error a p, nth_error b p with
    | Some x, Some y => Some (g (x, y))
    | _, _ => None
    end.
Proof.
  revert b p; induction a as [|x a IH]; intros b p; simpl.
  - destruct p; reflexivity.
  - destruct b as [|y b]; simpl.
    + destruct p; simpl; [reflexivity|]. destruct (nth_error a p); reflexivity.
    + destruct p; simpl; [reflexivity | apply IH].
Qed.

Lemma inplace_same_length {A B} (f : A -> B -> A) (a : list A) (b : list B) :
  length b = length a ->
  Sphere.inplace f a b = Ok (map (fun ab => f (fst ab) (snd ab)) (combine a b)).
Proof.
  intros E. unfold Sphere.inplace. rewrite E, Nat.eqb_refl. reflexivity.
Qed.

(** The elements read through an index array, when every index is inside
    the vertex array. *)
Lemma expand_in_range {A} (vertices : list A) (indices : list Z) :
  Forall (fun i => 0 <= i < Z.of_nat (length vertices)) indices ->
  exists out,
    Sphere.expand vertices indices = Ok out /\
    forall p, nth_error out p
              = match nth_error indices p with
                | Some i => nth_error vertices (Z.to_nat i)
                | None => None
                end.
Proof.
  induction 1 as [|i rest Hi _ (out & E & N)]; simpl.
  - exists []; split; [reflexivity|]. intros p; destruct p; reflexivity.
  - unfold py_index.
    destruct (Z.ltb_spec i 0) as [Hn|_]; [lia|].
    replace ((0 <=? i) && (i <? Z.of_nat (length vertices))) with true
      by (symmetry; apply andb_true_iff; split;
          [apply Z.leb_le | apply Z.ltb_lt]; lia).
    destruct (nth_error vertices (Z.to_nat i)) as [v|] eqn:Ev.
    + cbn [bind]. rewrite E; cbn [bind].
      exists (v :: out); split; [reflexivity|].
      intros [|p]; simpl; [symmetry; exact Ev | apply N].
    + apply nth_error_None in Ev. lia.
Qed.

Lemma u32_add (x y : Z) : u32 (u32 x + u32 y) = u32 (x + y).
Proof. unfold u32. symmetry. apply Zplus_mod. Qed.

Lemma u32_add_l (x y : Z) : u32 (u32 x + y) = u32 (x + y).
Proof. unfold u32. apply Zplus_mod_idemp_l. Qed.

Lemma u32_small (x : Z) : 0 <= x < 2 ^ 32 -> u32 x = x.
Proof. intros Hx. unfold u32. apply Z.mod_small. exact Hx. Qed.

Lemma nth_error_tl {A} (l : list A) (i : nat) :
  nth_error (tl l) i = nth_error l (S i).
Proof. destruct l; simpl; [destruct i|]; reflexivity. Qed.

Lemma nth_error_removelast {A} (l : list A) (i : nat) :
  (S i < length l)%nat -> nth_error (removelast l) i = nth_error l i.
Proof.
  intros Hi. rewrite removelast_firstn_len, nth_error_firstn.
  destruct (Nat.ltb_spec i (pred (length l))); [reflexivity | lia].
Qed.

Lemma length_removelast' {A} (l : list A) :
  length (removelast l) = pred (length l).
Proof. rewrite removelast_firstn_len, length_firstn. lia. Qed.

Lemma length_tl' {A} (l : list A) : length (tl l) = pred (length l).
Proof. destruct l; reflexivity. Qed.

(** Positions of a quad array: every position below [4 * r * r] is the
    corner [c] of the quad [(i, j)]. *)
Lemma quad_position (r p : nat) :
  (p < r * r * 4)%nat ->
  exists i j c, (i < r)%nat /\ (j < r)%nat /\ (c < 4)%nat /\
                p = ((i * r + j) * 4 + c)%nat.
Proof.
  intros Hp.
  assert (Hr : r <> 0%nat) by (intro; subst; simpl in Hp; lia).
  exists (p / 4 / r)%nat, ((p / 4) mod r)%nat, (p mod 4)%nat.
  pose proof (Nat.div_mod_eq p 4) as E1.
  pose proof (Nat.div_mod_eq (p / 4) r) as E2.
  pose proof (Nat.mod_upper_bound p 4 ltac:(lia)) as B1.
  pose proof (Nat.mod_upper_bound (p / 4) r Hr) as B2.
  assert (B3 : (p / 4 < r * r)%nat) by (apply Nat.Div0.div_lt_upper_bound; lia).
  assert (B4 : (p / 4 / r < r)%nat) by (apply Nat.Div0.div_lt_upper_bound; lia).
  repeat split; auto. nia.
Qed.

Lemma stride4_condition (q c s : nat) :
  (c < 4)%nat -> (s < 4)%nat ->
  ((s <=? q * 4 + c)%nat && (((q * 4 + c - s) mod 4) =? 0)%nat) = (c =? s)%nat.
Proof.
  intros Hc Hs. destruct (Nat.eqb_spec c s) as [->|Hne].
  - replace (q * 4 + s - s)%nat with (q * 4)%nat by lia.
    rewrite Nat.Div0.mod_mul.
    destruct (Nat.leb_spec s (q * 4 + s)); [reflexivity | lia].
  - destruct (Nat.leb_spec s (q * 4 + c)) as [Hle|Hgt]; [|reflexivity].
    cbn [andb]. apply Nat.eqb_neq. intros Hm.
    pose proof (Nat.div_mod_eq (q * 4 + c - s) 4) as E. rewrite Hm in E. lia.
Qed.

(** One strided assignment into an array of [4 * m] elements. *)
Lemma assign_stride4 {A} (s m : nat) (vals a : list A) :
  (s < 4)%nat -> length vals = m -> length a = (m * 4)%nat ->
  exists a',
    Sphere.assign_stride s 4 vals a = Ok a' /\
    length a' = (m * 4)%nat /\
    forall q c, (c < 4)%nat ->
      nth_error a' (q * 4 + c)
      = if (c =? s)%nat then nth_error vals q else nth_error a (q * 4 + c).
Proof.
  intros Hs Lv La. unfold Sphere.assign_stride.
  assert (Ec : ((length a - s + (4 - 1)) / 4 = m)%nat).
  { rewrite La. destruct m as [|m']; [reflexivity|].
    symmetry. apply Nat.div_unique with (r := (3 - s)%nat); lia. }
  rewrite Ec, Lv, Nat.eqb_refl.
  eexists; split; [reflexivity|]. split.
  - rewrite length_map, length_combine, length_seq. lia.
  - intros q c Hc.
    rewrite nth_error_combine_map, nth_error_seq.
    destruct (Nat.ltb_spec (q * 4 + c) (length a)) as [Hlt|Hge].
    + destruct (nth_error a (q * 4 + c)) as [x|] eqn:Ex;
        [|apply nth_error_None in Ex; lia].
      cbv beta iota. rewrite !Nat.add_0_l.
      rewrite stride4_condition by assumption.
      destruct (Nat.eqb_spec c s) as [->|Hne]; [|reflexivity].
      replace (q * 4 + s - s)%nat with (q * 4)%nat by lia.
      rewrite Nat.div_mul by lia.
      symmetry. apply nth_error_nth'. lia.
    + destruct (c =? s)%nat.
      * symmetry. apply nth_error_None. lia.
      * symmetry. apply nth_error_None. lia.
Qed.

Section SphereFacts.

Context {F : Type} `{Scalar F} `{Sphere.Trig F}.

Lemma length_outer (a b : list F) :
  length (Sphere.outer a b) = (length a * length b)%nat.
Proof.
  unfold Sphere.outer. apply length_flat_map_const.
  intros; apply length_map.
Qed.

Lemma nth_error_outer (a b : list F) (k i j : nat) :
  length b = k -> (j < k)%nat ->
  nth_error (Sphere.outer a b) (i * k + j)
  = match nth_error a i, nth_error b j with
    | Some x, Some y => Some (fmul x y)
    | _, _ => None
    end.
Proof.
  intros Lb Hj. unfold Sphere.outer.
  rewrite nth_error_flat_map_block by (auto; intros; rewrite length_map; exact Lb).
  destruct (nth_error a i) as [x|]; [|reflexivity].
  rewrite nth_error_map. destruct (nth_error b j); reflexivity.
Qed.

Lemma nth_error_zip3 (a b c : list F) (p : nat) :
  nth_error (Sphere.zip3 a b c) p
  = match nth_error a p, nth_error b p, nth_error c p with
    | Some x, Some y, Some z => Some (x, y, z)
    | _, _, _ => None
    end.
Proof.
  unfold Sphere.zip3. rewrite nth_error_combine_map.
  rewrite <- (map_id (combine a b)), nth_error_combine_map.
  destruct (nth_error a p), (nth_error b p), (nth_error c p); reflexivity.
Qed.

Lemma length_zip3 (a b c : list F) (n : nat) :
  length a = n -> length b = n -> length c = n ->
  length (Sphere.zip3 a b c) = n.
Proof.
  intros La Lb Lc. unfold Sphere.zip3.
  rewrite length_map, !length_combine. lia.
Qed.

(** Filling the three columns of a zero array gives the array of the
    triples. *)
Lemma columns_of_zeros (a b c : list F) :
  length b = length a -> length c = length a ->
  map (fun px => vset (fst px) 2 (snd px))
    (combine
       (map (fun px => vset (fst px) 1 (snd px))
          (combine
             (map (fun px => vset (fst px) 0 (snd px))
                (@combine (vec3 F) F (repeat (fzero, fzero, fzero) (length a)) a))
             b))
       c)
  = Sphere.zip3 a b c.
Proof.
  unfold Sphere.zip3.
  revert b c; induction a as [|x a IH]; intros [|y b] [|z c] Lb Lc;
    simpl in *; try discriminate; try reflexivity.
  f_equal. apply IH; lia.
Qed.

(** The entries of the index array of [unitSphere], before and after the
    two additions: corner [c] of quad [(i, j)] refers to the vertex
    [(i * res + j) + quadIdxs[c]], modulo [2^32]. *)
Lemma nth_error_sphere_indices (r i j c : nat) :
  (i < r)%nat -> (j < r)%nat -> (c < 4)%nat ->
  let res := Z.of_nat (S r) in
  nth_error
    (map (fun ab => u32 (fst ab + snd ab))
       (combine
          (map (fun ab => u32 (fst ab + snd ab))
             (combine
                (Sphere.tile [u32 0; u32 res; u32 (res + 1); u32 1] (r ^ 2))
                (Sphere.np_repeat (Sphere.arange (r ^ 2)) 4)))
          (Sphere.np_repeat (Sphere.arange r) (4 * r))))
    ((i * r + j) * 4 + c)
  = Some (u32 (Z.of_nat (i * S r + j) + nth c [0; res; res + 1; 1] 0)).
Proof.
  intros Hi Hj Hc res.
  assert (Hq : (i * r + j < r ^ 2)%nat) by (rewrite Nat.pow_2_r; nia).
  rewrite !nth_error_combine_map.
  change 4%nat with (length [u32 0; u32 res; u32 (res + 1); u32 1]) at 1.
  rewrite nth_error_tile by (simpl; exact Hc).
  rewrite nth_error_np_repeat by exact Hc.
  replace ((i * r + j) * 4 + c)%nat with (i * (4 * r) + (j * 4 + c))%nat by lia.
  rewrite nth_error_np_repeat by lia.
  rewrite !nth_error_arange.
  destruct (Nat.ltb_spec (i * r + j) (r ^ 2)) as [_|]; [|lia].
  destruct (Nat.ltb_spec i r) as [_|]; [|lia].
  assert (E : nth_error [u32 0; u32 res; u32 (res + 1); u32 1] c
              = Some (u32 (nth c [0; res; res + 1; 1] 0))).
  { destruct c as [|[|[|[|c]]]]; try reflexivity; lia. }
  rewrite E. cbn [fst snd]. f_equal.
  rewrite (u32_add _ (Z.of_nat (i * r + j))), u32_add. f_equal. lia.
Qed.

End SphereFacts.

Section SphereSpecs.

Context {F : Type} `{Scalar F} `{Sphere.Trig F}.

(** What [unitSphere] returns for a resolution [res = r + 1]: the vertex
    [(i, j)] at position [i * res + j], and the index array of
    [nth_error_sphere_indices]. *)
Lemma unitSphere_spec (r : nat) :
  exists vertices indices,
    Sphere.unitSphere (S r) = Ok (vertices, indices) /\
    length vertices = (S r * S r)%nat /\
    length indices = (r * r * 4)%nat /\
    (forall i j, (j < S r)%nat ->
       nth_error vertices (i * S r + j) = Sphere.vertex_at (S r) i j) /\
    (forall i j c, (i < r)%nat -> (j < r)%nat -> (c < 4)%nat ->
       nth_error indices ((i * r + j) * 4 + c)
       = Some (u32 (Z.of_nat (i * S r + j)
                    + nth c [0; Z.of_nat (S r); Z.of_nat (S r) + 1; 1] 0))).
Proof.
  unfold Sphere.unitSphere, Sphere.vertex_at, Sphere.iadd. cbv zeta.
  set (u := linspace (fdiv (Sphere.fneg Sphere.fpi) Sphere.two)
              (fdiv Sphere.fpi Sphere.two) (S r)).
  set (v := linspace (Sphere.fneg Sphere.fpi) Sphere.fpi (S r)).
  assert (Lu : length u = S r) by apply length_linspace.
  assert (Lv : length v = S r) by apply length_linspace.
  set (cucv := Sphere.outer (map Sphere.fcos u) (map Sphere.fcos v)).
  set (cusv := Sphere.outer (map Sphere.fcos u) (map Sphere.fsin v)).
  set (su := Sphere.np_repeat (map Sphere.fsin u) (S r)).
  assert (L1 : length cucv = (S r * S r)%nat)
    by (unfold cucv; rewrite length_outer, !length_map, Lu, Lv; reflexivity).
  assert (L2 : length cusv = (S r * S r)%nat)
    by (unfold cusv; rewrite length_outer, !length_map, Lu, Lv; reflexivity).
  assert (L3 : length su = (S r * S r)%nat)
    by (unfold su; rewrite length_np_repeat, length_map, Lu; reflexivity).
  rewrite Nat.pow_2_r, <- L1.
  rewrite inplace_same_length by (rewrite repeat_length; reflexivity).
  cbn [bind].
  rewrite inplace_same_length
    by (rewrite length_map, length_combine, repeat_length; lia).
  cbn [bind].
  rewrite inplace_same_length
    by (rewrite !length_map, !length_combine, !length_map, !length_combine,
          repeat_length; lia).
  cbn [bind]. cbv beta.
  rewrite (inplace_same_length (fun x y : Z => u32 (x + y)))
    by (rewrite length_np_repeat, length_arange, length_tile; simpl; lia).
  cbn [bind].
  rewrite (inplace_same_length (fun x y : Z => u32 (x + y)))
    by (rewrite length_np_repeat, length_arange, length_map, length_combine,
          length_np_repeat, length_arange, length_tile, Nat.pow_2_r; simpl; lia).
  cbn [bind]. cbv beta.
  rewrite columns_of_zeros by lia.
  do 2 eexists. split; [reflexivity|].
  split; [apply length_zip3; lia|].
  split.
  { rewrite length_map, length_combine, length_map, length_combine,
      !length_np_repeat, !length_arange, length_tile, Nat.pow_2_r. simpl. lia. }
  split.
  - intros i j Hj.
    rewrite nth_error_zip3. unfold cucv, cusv, su.
    rewrite !(nth_error_outer _ _ (S r)) by (auto; rewrite length_map; assumption).
    rewrite nth_error_np_repeat by exact Hj.
    rewrite !nth_error_map.
    destruct (nth_error u i), (nth_error v j); reflexivity.
  - intros i j c Hi Hj Hc.
    apply (nth_error_sphere_indices r i j c Hi Hj Hc).
Qed.

(** What [fullUnitSphere] returns for a resolution [res = r + 1]: at
    position [4 * (i * r + j) + c], the vertex at the corner [c] of the
    quad [(i, j)]. *)
Lemma fullUnitSphere_spec (r : nat) :
  exists full,
    Sphere.fullUnitSphere (S r) = Ok full /\
    length full = (r * r * 4)%nat /\
    (forall i j c, (i < r)%nat -> (j < r)%nat -> (c < 4)%nat ->
       nth_error full ((i * r + j) * 4 + c)
       = Sphere.vertex_at (S r) (i + fst (Sphere.quad_corner c))
                                (j + snd (Sphere.quad_corner c))).
Proof.
  unfold Sphere.fullUnitSphere, Sphere.vertex_at. cbv zeta.
  set (u := linspace (fdiv (Sphere.fneg Sphere.fpi) Sphere.two)
              (fdiv Sphere.fpi Sphere.two) (S r)).
  set (v := linspace (Sphere.fneg Sphere.fpi) Sphere.fpi (S r)).
  assert (Lu : length u = S r) by apply length_linspace.
  assert (Lv : length v = S r) by apply length_linspace.
  assert (Lrm : forall (g : F -> F) (w : list F),
             length w = S r -> length (removelast (map g w)) = r)
    by (intros g w Lw; rewrite length_removelast', length_map, Lw; reflexivity).
  assert (Ltl : forall (g : F -> F) (w : list F),
             length w = S r -> length (tl (map g w)) = r)
    by (intros g w Lw; rewrite length_tl', length_map, Lw; reflexivity).
  assert (Lz : forall a b c d : list F,
             length a = r -> length b = r -> length c = r -> length d = r ->
             length (Sphere.zip3 (Sphere.outer a b) (Sphere.outer a c)
                       (Sphere.np_repeat d r)) = (r * r)%nat).
  { intros a b c d La Lb Lc Ld. apply length_zip3.
    - rewrite length_outer, La, Lb; reflexivity.
    - rewrite length_outer, La, Lc; reflexivity.
    - rewrite length_np_repeat, Ld; reflexivity. }
  match goal with
  | |- context [Sphere.assign_stride 0 4 ?vals ?a] =>
      destruct (assign_stride4 0 (r * r) vals a) as (a1 & E1 & L1 & N1);
      [lia | apply Lz; auto | apply repeat_length |]
  end.
  rewrite E1; cbn [bind].
  match goal with
  | |- context [Sphere.assign_stride 1 4 ?vals a1] =>
      destruct (assign_stride4 1 (r * r) vals a1) as (a2 & E2 & L2 & N2);
      [lia | apply Lz; auto | exact L1 |]
  end.
  rewrite E2; cbn [bind].
  match goal with
  | |- context [Sphere.assign_stride 2 4 ?vals a2] =>
      destruct (assign_stride4 2 (r * r) vals a2) as (a3 & E3 & L3 & N3);
      [lia | apply Lz; auto | exact L2 |]
  end.
  rewrite E3; cbn [bind].
  match goal with
  | |- context [Sphere.assign_stride 3 4 ?vals a3] =>
      destruct (assign_stride4 3 (r * r) vals a3) as (a4 & E4 & L4 & N4);
      [lia | apply Lz; auto | exact L3 |]
  end.
  rewrite E4; cbn [bind].
  exists a4. split; [reflexivity|]. split; [exact L4|].
  intros i j c Hi Hj Hc.
  assert (Ri : forall (g : F -> F) (w : list F), length w = S r ->
             nth_error (removelast (map g w)) i = option_map g (nth_error w i))
    by (intros g w Lw; rewrite nth_error_removelast, nth_error_map;
        [reflexivity | rewrite length_map, Lw; lia]).
  assert (Rj : forall (g : F -> F) (w : list F), length w = S r ->
             nth_error (removelast (map g w)) j = option_map g (nth_error w j))
    by (intros g w Lw; rewrite nth_error_removelast, nth_error_map;
        [reflexivity | rewrite length_map, Lw; lia]).
  assert (T : forall (g : F -> F) (w : list F) (n : nat),
             nth_error (tl (map g w)) n = option_map g (nth_error w (n + 1)))
    by (intros g w n; rewrite nth_error_tl, nth_error_map, Nat.add_1_r;
        reflexivity).
  rewrite N4 by exact Hc.
  destruct c as [|[|[|[|c]]]]; [| | | |lia]; cbn [Nat.eqb Sphere.quad_corner fst snd];
    [rewrite N3, N2, N1 by lia | rewrite N3, N2 by lia | rewrite N3 by lia |];
    cbn [Nat.eqb];
    rewrite nth_error_zip3;
    rewrite !(nth_error_outer _ _ r) by auto;
    rewrite nth_error_np_repeat by exact Hj;
    rewrite ?Ri, ?Rj, ?T, ?Nat.add_0_r by assumption;
    destruct (nth_error u i), (nth_error u (i + 1)),
             (nth_error v j), (nth_error v (j + 1)); reflexivity.
Qed.

End SphereSpecs.

(** The vertex an index of [unitSphere] refers to, when the index does not
    wrap around. *)
Lemma quad_vertex_position (r i j c : nat) :
  (i < r)%nat -> (j < r)%nat -> (c < 4)%nat ->
  Z.of_nat (i * S r + j) + nth c [0; Z.of_nat (S r); Z.of_nat (S r) + 1; 1] 0
  = Z.of_nat ((i + fst (Sphere.quad_corner c)) * S r
              + (j + snd (Sphere.quad_corner c))) /\
  (j + snd (Sphere.quad_corner c) < S r)%nat /\
  (i + fst (Sphere.quad_corner c) < S r)%nat.
Proof.
  intros Hi Hj Hc.
  destruct c as [|[|[|[|c]]]]; [| | | |lia];
    cbn [nth Sphere.quad_corner fst snd]; repeat split; lia.
Qed.

(** Every entry of an index array with the entries of [unitSphere_spec]
    is the (possibly wrapped) position of a corner of a quad. *)
Lemma sphere_index_decode (r : nat) (idx : list Z) :
  length idx = (r * r * 4)%nat ->
  (forall i j c, (i < r)%nat -> (j < r)%nat -> (c < 4)%nat ->
     nth_error idx ((i * r + j) * 4 + c)
     = Some (u32 (Z.of_nat (i * S r + j)
                  + nth c [0; Z.of_nat (S r); Z.of_nat (S r) + 1; 1] 0))) ->
  forall p x, nth_error idx p = Some x ->
    exists i j c, (i < r)%nat /\ (j < r)%nat /\ (c < 4)%nat /\
      p = ((i * r + j) * 4 + c)%nat /\
      x = u32 (Z.of_nat ((i + fst (Sphere.quad_corner c)) * S r
                         + (j + snd (Sphere.quad_corner c)))) /\
      (j + snd (Sphere.quad_corner c) < S r)%nat /\
      (i + fst (Sphere.quad_corner c) < S r)%nat.
Proof.
  intros LI NI p x Ep.
  assert (Hp : (p < r * r * 4)%nat)
    by (rewrite <- LI; apply nth_error_Some; rewrite Ep; discriminate).
  destruct (quad_position r p Hp) as (i & j & c & Hi & Hj & Hc & ->).
  pose proof (NI i j c Hi Hj Hc) as Ev. rewrite Ep in Ev.
  destruct (quad_vertex_position r i j c Hi Hj Hc) as (E & B1 & B2).
  rewrite E in Ev.
  exists i, j, c. repeat split; auto. congruence.
Qed.

Lemma sphere_indices_in_range (r n : nat) (idx : list Z) :
  n = (S r * S r)%nat ->
  (forall p x, nth_error idx p = Some x ->
    exists i j c, (i < r)%nat /\ (j < r)%nat /\ (c < 4)%nat /\
      p = ((i * r + j) * 4 + c)%nat /\
      x = u32 (Z.of_nat ((i + fst (Sphere.quad_corner c)) * S r
                         + (j + snd (Sphere.quad_corner c)))) /\
      (j + snd (Sphere.quad_corner c) < S r)%nat /\
      (i + fst (Sphere.quad_corner c) < S r)%nat) ->
  Forall (fun i => 0 <= i < Z.of_nat n) idx.
Proof.
  intros -> Hidx. apply Forall_forall. intros x Hx.
  apply In_nth_error in Hx as (p & Ep).
  destruct (Hidx p x Ep) as (i & j & c & _ & _ & _ & _ & -> & B1 & B2).
  pose proof (u32_range (Z.of_nat ((i + fst (Sphere.quad_corner c)) * S r
                                   + (j + snd (Sphere.quad_corner c))))).
  pose proof (u32_le (Z.of_nat ((i + fst (Sphere.quad_corner c)) * S r
                                + (j + snd (Sphere.quad_corner c))))).
  nia.
Qed.

(** C8 (amended). For every resolution [res >= 2], [unitSphere] returns
    [res^2] vertices and [4 * (res - 1)^2] indices, each smaller than
    [res^2], and [fullUnitSphere] returns [4 * (res - 1)^2] vertices; when
    moreover [res^2 <= 2^32] (that is, [res <= 65536]), reading the
    vertices of [unitSphere] through its index array gives, element for
    element and in the same order, the array of [fullUnitSphere]. *)
Theorem unitSphere_expands_to_fullUnitSphere
  {F : Type} `{Scalar F} `{Sphere.Trig F} (res : nat) :
  (2 <= res)%nat ->
  exists vertices indices full,
    Sphere.unitSphere res = Ok (vertices, indices) /\
    Sphere.fullUnitSphere res = Ok full /\
    length vertices = (res ^ 2)%nat /\
    length indices = (4 * (res - 1) ^ 2)%nat /\
    Forall (fun i => 0 <= i < Z.of_nat (res ^ 2)) indices /\
    length full = (4 * (res - 1) ^ 2)%nat /\
    (Z.of_nat res * Z.of_nat res <= 2 ^ 32 ->
     Sphere.expand vertices indices = Ok full).
Proof.
  intros Hres. destruct res as [|r]; [lia|].
  destruct (unitSphere_spec r) as (V & idx & EU & LV & LI & NV & NI).
  destruct (fullUnitSphere_spec r) as (full & EF & LF & NF).
  exists V, idx, full.
  pose proof (sphere_index_decode r idx LI NI) as Hidx.
  pose proof (sphere_indices_in_range r (length V) idx LV Hidx) as Hall.
  replace (S r - 1)%nat with r by lia.
  rewrite !Nat.pow_2_r.
  repeat (split; [first [assumption | lia]|]).
  split; [rewrite <- LV; exact Hall|].
  split; [lia|].
  intros Hbound.
  destruct (expand_in_range V idx Hall) as (out & EO & NO).
  rewrite EO. f_equal. apply nth_error_ext. intros p.
  rewrite NO.
  destruct (nth_error idx p) as [x|] eqn:Ep.
  - destruct (Hidx p x Ep) as (i & j & c & Hi & Hj & Hc & -> & -> & B1 & B2).
    rewrite u32_small by (split; [lia | nia]).
    rewrite Nat2Z.id, NV by exact B1.
    symmetry. apply NF; assumption.
  - symmetry. apply nth_error_None. apply nth_error_None in Ep. lia.
Qed.

(** The hypothesis of [unitSphere_expands_to_fullUnitSphere] holds for
    the resolution 3, over the real numbers. *)
Lemma unitSphere_expands_to_fullUnitSphere_witness :
  exists vertices indices full,
    Sphere.unitSphere (F := R) 3 = Ok (vertices, indices) /\
    Sphere.fullUnitSphere (F := R) 3 = Ok full /\
    length vertices = (3 ^ 2)%nat /\
    length indices = (4 * (3 - 1) ^ 2)%nat /\
    Forall (fun i => 0 <= i < Z.of_nat (3 ^ 2)) indices /\
    length full = (4 * (3 - 1) ^ 2)%nat /\
    (Z.of_nat 3 * Z.of_nat 3 <= 2 ^ 32 ->
     Sphere.expand vertices indices = Ok full).
Proof.
  apply (unitSphere_expands_to_fullUnitSphere (F := R) 3). lia.
Defined.

(** *** A resolution whose indices wrap around *)

Lemma nth_error_linspace_last {F : Type} `{Scalar F} (a b : F) (n : nat) :
  nth_error (linspace a b (S (S n))) (S n) = Some b.
Proof.
  unfold linspace.
  rewrite nth_error_app2 by (rewrite length_map, length_seq; lia).
  rewrite length_map, length_seq, Nat.sub_diag. reflexivity.
Qed.

Lemma nth_error_linspace_inner {F : Type} `{Scalar F} (a b : F) (n i : nat) :
  (i <= n)%nat ->
  nth_error (linspace a b (S (S n))) i
  = Some (fadd (fmul (of_nat i) (fdiv (fsub b a) (of_nat (S n)))) a).
Proof.
  intros Hi. unfold linspace.
  rewrite nth_error_app1 by (rewrite length_map, length_seq; lia).
  rewrite nth_error_map, nth_error_seq.
  destruct (Nat.ltb_spec i (S n)); [reflexivity | lia].
Qed.

(** The second latitude sampled for the resolution 65537 is strictly
    between [-PI/2] and 0. *)
Lemma second_latitude_sine (n : nat) :
  Z.of_nat n = 65535 ->
  (sin (INR 1 * ((PI / INR 2 - - PI / INR 2) / INR (S n)) + - PI / INR 2) < 0)%R.
Proof.
  intros Hn.
  rewrite (INR_IZR_INZ (S n)), (Nat2Z.inj_succ n), Hn.
  rewrite (INR_IZR_INZ 1), (INR_IZR_INZ 2).
  change (Z.of_nat 1) with 1. change (Z.of_nat 2) with 2.
  change (Z.succ 65535) with 65536.
  pose proof PI_RGT_0 as Hpi.
  apply sin_lt_0_var; Lra.lra.
Qed.

(** For the resolution 65537, over the real numbers, the last index of
    [unitSphere] is 65538 + (2^32 - 1) + 65535 reduced modulo 2^32, that
    is 131072, the vertex of latitude 1 and longitude 65535, whereas the
    last vertex of [fullUnitSphere] is the vertex of latitude 65536 and
    longitude 65536: reading the vertices through the index array does not
    give the array of [fullUnitSphere]. *)
Lemma unitSphere_index_wrap_counterexample :
  exists vertices indices full,
    Sphere.unitSphere (F := R) (Z.to_nat 65537) = Ok (vertices, indices) /\
    Sphere.fullUnitSphere (F := R) (Z.to_nat 65537) = Ok full /\
    (2 <= Z.to_nat 65537)%nat /\
    Sphere.expand vertices indices <> Ok full.
Proof.
  remember (Z.to_nat 65535) as n eqn:En.
  assert (Hn : Z.of_nat n = 65535) by (subst n; apply Z2Nat.id; lia).
  clear En.
  replace (Z.to_nat 65537) with (S (S n)) by lia.
  destruct (unitSphere_spec (F := R) (S n)) as (V & idx & EU & LV & LI & NV & NI).
  destruct (fullUnitSphere_spec (F := R) (S n)) as (full & EF & LF & NF).
  exists V, idx, full.
  split; [exact EU|]. split; [exact EF|]. split; [lia|].
  intros EX.
  pose proof (sphere_index_decode (S n) idx LI NI) as Hidx.
  pose proof (sphere_indices_in_range (S n) (length V) idx LV Hidx) as Hall.
  destruct (expand_in_range V idx Hall) as (out & EO & NO).
  rewrite EO in EX. assert (Eout : out = full) by congruence. subst out.
  (* the last corner of the last quad *)
  specialize (NO ((n * S n + n) * 4 + 2)%nat).
  rewrite (NI n n 2%nat) in NO by lia.
  rewrite (NF n n 2%nat) in NO by lia.
  cbn [nth Sphere.quad_corner fst snd] in NO.
  assert (Ew : u32 (Z.of_nat (n * S (S n) + n) + (Z.of_nat (S (S n)) + 1)) = 131072).
  { rewrite Nat2Z.inj_add, Nat2Z.inj_mul, !Nat2Z.inj_succ, Hn. reflexivity. }
  rewrite Ew in NO.
  replace (Z.to_nat 131072) with (1 * S (S n) + n)%nat in NO by lia.
  rewrite (NV 1%nat n) in NO by lia.
  unfold Sphere.vertex_at in NO.
  rewrite !Nat.add_1_r in NO.
  rewrite !nth_error_linspace_last in NO.
  rewrite !nth_error_linspace_inner in NO by lia.
  assert (Es : (sin (PI / INR 2)
                = sin (INR 1 * ((PI / INR 2 - - PI / INR 2) / INR (S n))
                       + - PI / INR 2))%R).
  { injection NO as _ _ E3. exact E3. }
  pose proof (second_latitude_sine n Hn) as Hneg.
  rewrite <- Es in Hneg.
  replace (PI / INR 2)%R with (PI / 2)%R in Hneg
    by (rewrite INR_IZR_INZ; reflexivity).
  rewrite sin_PI2 in Hneg. Lra.lra.
Qed.

(** ** A sub-sampled array *)

(** The hypotheses of [subsample_strided_sample] hold for a 4x3x1 array,
    a resolution of 4 and voxel sizes (2, 2, 2): the steps are (2, 2, 2)
    and the starts (1, 1, 0), the last one being clamped. *)
Lemma subsample_strided_sample_witness :
  let data :=
    {| Subsample.shape := (4, 3, 1)%nat;
       Subsample.cells :=
         [ [[0]; [1]; [2]]; [[3]; [4]; [5]]; [[6]; [7]; [8]]; [[9]; [10]; [11]] ]%nat |} in
  Subsample.well_shaped data /\
  exists sample,
    Subsample.subsample data 4 (Some (2, 2, 2)%Q)
      = Ok (sample, (1, 1, 0), (2, 2, 2)) /\
    Subsample.cells sample = [ [[4%nat]]; [[10%nat]] ].
Proof.
  intros data.
  assert (Wf : Subsample.well_shaped data).
  { unfold Subsample.well_shaped, data; simpl.
    split; [reflexivity|]. repeat constructor. }
  split; [exact Wf|].
  destruct (subsample_strided_sample data 4 2 2 2 Wf)
    as (sample & E & _); [reflexivity | reflexivity | reflexivity |].
  exists sample. split; [exact E|].
  assert (E' : Subsample.subsample data 4 (Some (2, 2, 2)%Q)
               = Ok ({| Subsample.shape := (2, 1, 1)%nat;
                        Subsample.cells := [ [[4%nat]]; [[10%nat]] ] |},
                     (1, 1, 0), (2, 2, 2)))
    by (vm_compute; reflexivity).
  rewrite E' in E. injection E as <-. reflexivity.
Defined.

(** * Further properties of the routines *)

(** ** The plane equation *)

(** X1. The coefficients [(a, b, c, d)] returned by [planeEquation] satisfy
    [a*x + b*y + c*z + d = 0] at each of the three points, and [(a, b, c)]
    is the cross product of [p2 - p1] and [p3 - p1]. *)
Theorem planeEquation_contains_points (p1 p2 p3 : vec3 Q) :
  let '(x1, y1, z1) := p1 in
  let '(x2, y2, z2) := p2 in
  let '(x3, y3, z3) := p3 in
  let '(a, b, c, d) := Plane.planeEquation p1 p2 p3 in
  (a * x1 + b * y1 + c * z1 + d == 0 /\
   a * x2 + b * y2 + c * z2 + d == 0 /\
   a * x3 + b * y3 + c * z3 + d == 0 /\
   a == (y2 - y1) * (z3 - z1) - (z2 - z1) * (y3 - y1) /\
   b == (z2 - z1) * (x3 - x1) - (x2 - x1) * (z3 - z1) /\
   c == (x2 - x1) * (y3 - y1) - (y2 - y1) * (x3 - x1))%Q.
Proof.
  destruct p1 as [[x1 y1] z1], p2 as [[x2 y2] z2], p3 as [[x3 y3] z3].
  unfold Plane.planeEquation.
  repeat split; ring.
Qed.

(** X2. When the third point lies on the line through the first two
    ([p3 = p1 + t * (p2 - p1)]), [planeEquation] does not raise and
    returns the zero vector. *)
Theorem planeEquation_collinear_zero (p1 p2 p3 : vec3 Q) (t : Q) :
  let '(x1, y1, z1) := p1 in
  let '(x2, y2, z2) := p2 in
  let '(x3, y3, z3) := p3 in
  (x3 == x1 + t * (x2 - x1))%Q ->
  (y3 == y1 + t * (y2 - y1))%Q ->
  (z3 == z1 + t * (z2 - z1))%Q ->
  let '(a, b, c, d) := Plane.planeEquation p1 p2 p3 in
  (a == 0 /\ b == 0 /\ c == 0 /\ d == 0)%Q.
Proof.
  destruct p1 as [[x1 y1] z1], p2 as [[x2 y2] z2], p3 as [[x3 y3] z3].
  intros Hx Hy Hz. unfold Plane.planeEquation.
  repeat split; rewrite ?Hx, ?Hy, ?Hz; ring.
Qed.

Lemma planeEquation_collinear_zero_witness :
  let '(a, b, c, d) :=
    Plane.planeEquation (0, 0, 0)%Q (1, 2, 3)%Q (2, 4, 6)%Q in
  (a == 0 /\ b == 0 /\ c == 0 /\ d == 0)%Q.
Proof.
  apply (planeEquation_collinear_zero (0, 0, 0)%Q (1, 2, 3)%Q (2, 4, 6)%Q 2);
    reflexivity.
Defined.

(** X3. Exchanging two of the points negates the four coefficients, and
    rotating the three points leaves them unchanged: the orientation of
    the returned normal follows the order of the points. *)
Theorem planeEquation_orientation (p1 p2 p3 : vec3 Q) :
  let '(a, b, c, d) := Plane.planeEquation p1 p2 p3 in
  let '(a', b', c', d') := Plane.planeEquation p2 p1 p3 in
  let '(a'', b'', c'', d'') := Plane.planeEquation p2 p3 p1 in
  (a' == - a /\ b' == - b /\ c' == - c /\ d' == - d /\
   a'' == a /\ b'' == b /\ c'' == c /\ d'' == d)%Q.
Proof.
  destruct p1 as [[x1 y1] z1], p2 as [[x2 y2] z2], p3 as [[x3 y3] z3].
  unfold Plane.planeEquation.
  repeat split; ring.
Qed.

(** ** Renderer types *)

Lemma dict_get_None {V} (d : list (string * V)) (key : string) :
  GLObjects.dict_get d key = None <-> ~ In key (map fst d).
Proof.
  induction d as [|[k v] rest IH]; simpl.
  - split; auto.
  - destruct (String.eqb_spec k key) as [->|Hne].
    + split; [discriminate | intros Hn; exfalso; apply Hn; auto].
    + rewrite IH. split; [intros Hn [E|Hin]; auto | intros Hn Hin; apply Hn; auto].
Qed.

(** X4. [createGLObject] returns [None], without calling a constructor,
    exactly when the overlay type is not one of the nine keys of the type
    map; for each of the nine keys it calls the constructor of the
    corresponding class with the overlay, the display context and the
    [threedee] flag, and distinct keys have distinct classes. *)
Theorem createGLObject_dispatch
  (overlay displayCtx globject : Type)
  (overlayType : displayCtx -> overlay -> string)
  (construct : GLObjects.globject_class -> overlay -> displayCtx -> bool -> globject)
  (ov : overlay) (ctx : displayCtx) (threedee : bool) :
  let known := ["volume"; "mask"; "rgbvector"; "linevector"; "mesh";
                "giftimesh"; "label"; "tensor"; "sh"]%string in
  (GLObjects.createGLObject overlay displayCtx globject overlayType construct
     ov ctx threedee = None <-> ~ In (overlayType ctx ov) known) /\
  (forall c, GLObjects.getGLObjectType (overlayType ctx ov) = Some c ->
     GLObjects.createGLObject overlay displayCtx globject overlayType construct
       ov ctx threedee = Some (construct c ov ctx threedee)) /\
  (forall k1 k2 c, GLObjects.getGLObjectType k1 = Some c ->
     GLObjects.getGLObjectType k2 = Some c -> k1 = k2).
Proof.
  intros known. unfold GLObjects.createGLObject. split; [|split].
  - subst known.
    change ["volume"; "mask"; "rgbvector"; "linevector"; "mesh";
            "giftimesh"; "label"; "tensor"; "sh"]%string
      with (map fst GLObjects.typeMap).
    rewrite <- (dict_get_None GLObjects.typeMap (overlayType ctx ov)).
    fold (GLObjects.getGLObjectType (overlayType ctx ov)).
    destruct (GLObjects.getGLObjectType (overlayType ctx ov));
      split; intros E; [discriminate | discriminate | reflexivity | reflexivity].
  - intros c ->. reflexivity.
  - intros k1 k2 c. unfold GLObjects.getGLObjectType, GLObjects.typeMap.
    cbn [GLObjects.dict_get].
    repeat match goal with
           | |- context [String.eqb ?a k1] =>
               destruct (String.eqb_spec a k1) as [<-|_]
           end;
      repeat match goal with
             | |- context [String.eqb ?a k2] =>
                 destruct (String.eqb_spec a k2) as [<-|_]
             end;
      intros E1 E2; try reflexivity; try discriminate;
      rewrite <- E1 in E2; discriminate.
Qed.

(** ** Plot limits *)


Lemma Qmax_either (x y : Q) : Qmax x y = x \/ Qmax x y = y.
Proof.
  unfold Qmax, GenericMinMax.gmax. destruct (x ?= y)%Q; auto.
Qed.






(** ** The orthographic viewport *)

Lemma py_index_in_range {A} (a : list A) (i : Z) :
  0 <= i < Z.of_nat (length a) ->
  exists x, py_index a i = Ok x /\ nth_error a (Z.to_nat i) = Some x.
Proof.
  intros Hi. unfold py_index.
  destruct (Z.ltb_spec i 0) as [Hn|_]; [lia|].
  replace ((0 <=? i) && (i <? Z.of_nat (length a))) with true
    by (symmetry; apply andb_true_iff; split;
        [apply Z.leb_le | apply Z.ltb_lt]; lia).
  destruct (nth_error a (Z.to_nat i)) as [x|] eqn:E.
  - exists x; auto.
  - apply nth_error_None in E. lia.
Qed.

(** X6. For bounds of three values and two distinct axes among 0, 1, 2,
    [show2D] sets the viewport, then the projection, then the model-view
    matrix; the depth range given to [glOrtho] is [-zdist, zdist] with
    [zdist] the larger of [|zmin|] and [|zmax|], so that it is symmetric
    about 0 and contains the bounds of the depth axis; the world is
    rotated twice when the depth axis is 0, once when it is 1, and not at
    all when it is 2. *)
Theorem show2D_depth_range (xax yax width height : Z) (lo hi : list Q) :
  length lo = 3%nat -> length hi = 3%nat ->
  0 <= xax < 3 -> 0 <= yax < 3 -> xax <> yax ->
  exists xmin xmax ymin ymax zmin zmax zdist,
    Viewport.show2D xax yax width height lo hi
      = Ok ([ Viewport.glViewport 0 0 width height;
              Viewport.glMatrixMode Viewport.GL_PROJECTION;
              Viewport.glLoadIdentity;
              Viewport.glOrtho xmin xmax ymin ymax (- zdist) zdist;
              Viewport.glMatrixMode Viewport.GL_MODELVIEW;
              Viewport.glLoadIdentity ]
            ++ match 3 - xax - yax with
               | 0 => [ Viewport.glRotatef 270 1 0 0;
                        Viewport.glRotatef 270 0 0 1 ]
               | 1 => [ Viewport.glRotatef 270 1 0 0 ]
               | _ => []
               end) /\
    nth_error lo (Z.to_nat xax) = Some xmin /\
    nth_error hi (Z.to_nat xax) = Some xmax /\
    nth_error lo (Z.to_nat yax) = Some ymin /\
    nth_error hi (Z.to_nat yax) = Some ymax /\
    nth_error lo (Z.to_nat (3 - xax - yax)) = Some zmin /\
    nth_error hi (Z.to_nat (3 - xax - yax)) = Some zmax /\
    (- zdist <= zmin /\ zmin <= zdist /\ - zdist <= zmax /\ zmax <= zdist)%Q /\
    (zdist == Qabs zmin \/ zdist == Qabs zmax)%Q.
Proof.
  intros Llo Lhi Hx Hy Hxy.
  unfold Viewport.show2D.
  destruct (py_index_in_range lo xax) as (xmin & E1 & N1); [lia|].
  destruct (py_index_in_range hi xax) as (xmax & E2 & N2); [lia|].
  destruct (py_index_in_range lo yax) as (ymin & E3 & N3); [lia|].
  destruct (py_index_in_range hi yax) as (ymax & E4 & N4); [lia|].
  destruct (py_index_in_range lo (3 - xax - yax)) as (zmin & E5 & N5); [lia|].
  destruct (py_index_in_range hi (3 - xax - yax)) as (zmax & E6 & N6); [lia|].
  rewrite E1, E2, E3, E4, E5, E6. cbn [bind].
  exists xmin, xmax, ymin, ymax, zmin, zmax, (Qmax (Qabs zmin) (Qabs zmax)).
  split.
  { f_equal. f_equal.
    assert (Hz : 3 - xax - yax = 0 \/ 3 - xax - yax = 1 \/ 3 - xax - yax = 2)
      by lia.
    destruct Hz as [-> | [-> | ->]]; reflexivity. }
  repeat (split; [assumption|]).
  pose proof (Q.le_max_l (Qabs zmin) (Qabs zmax)) as M1.
  pose proof (Q.le_max_r (Qabs zmin) (Qabs zmax)) as M2.
  pose proof (Qle_Qabs zmin) as A1. pose proof (Qle_Qabs zmax) as A2.
  pose proof (Qle_Qabs (- zmin)) as A3. pose proof (Qle_Qabs (- zmax)) as A4.
  rewrite Qabs_opp in A3, A4.
  split.
  - set (d := Qmax (Qabs zmin) (Qabs zmax)) in *. clearbody d.
    set (a := Qabs zmin) in *. set (b := Qabs zmax) in *. clearbody a b.
    repeat split; lra.
  - destruct (Qmax_either (Qabs zmin) (Qabs zmax)) as [E|E]; rewrite E;
      [left | right]; reflexivity.
Qed.

(** The hypotheses of [show2D_depth_range] hold for the axes (0, 1) and
    the bounds (-1, -2, -5) .. (1, 2, 3). *)
Lemma show2D_depth_range_witness :
  exists xmin xmax ymin ymax zmin zmax zdist,
    Viewport.show2D 0 1 640 480 [-1; -2; -5]%Q [1; 2; 3]%Q
      = Ok ([ Viewport.glViewport 0 0 640 480;
              Viewport.glMatrixMode Viewport.GL_PROJECTION;
              Viewport.glLoadIdentity;
              Viewport.glOrtho xmin xmax ymin ymax (- zdist) zdist;
              Viewport.glMatrixMode Viewport.GL_MODELVIEW;
              Viewport.glLoadIdentity ]
            ++ match 3 - 0 - 1 with
               | 0 => [ Viewport.glRotatef 270 1 0 0;
                        Viewport.glRotatef 270 0 0 1 ]
               | 1 => [ Viewport.glRotatef 270 1 0 0 ]
               | _ => []
               end) /\
    nth_error [-1; -2; -5]%Q (Z.to_nat 0) = Some xmin /\
    nth_error [1; 2; 3]%Q (Z.to_nat 0) = Some xmax /\
    nth_error [-1; -2; -5]%Q (Z.to_nat 1) = Some ymin /\
    nth_error [1; 2; 3]%Q (Z.to_nat 1) = Some ymax /\
    nth_error [-1; -2; -5]%Q (Z.to_nat (3 - 0 - 1)) = Some zmin /\
    nth_error [1; 2; 3]%Q (Z.to_nat (3 - 0 - 1)) = Some zmax /\
    (- zdist <= zmin /\ zmin <= zdist /\ - zdist <= zmax /\ zmax <= zdist)%Q /\
    (zdist == Qabs zmin \/ zdist == Qabs zmax)%Q.
Proof.
  apply (show2D_depth_range 0 1 640 480 [-1; -2; -5]%Q [1; 2; 3]%Q);
    [reflexivity | reflexivity | lia | lia | lia].
Defined.

(** ** The unit sphere, over the real numbers *)

Lemma vertex_at_on_unit_sphere (res i j : nat) (v : vec3 R) :
  Sphere.vertex_at (F := R) res i j = Some v -> Sphere.on_unit_sphere v.
Proof.
  unfold Sphere.vertex_at.
  destruct (nth_error _ i) as [a|]; [|discriminate].
  destruct (nth_error _ j) as [b|]; [|discriminate].
  intros E; injection E as <-.
  cbn [Sphere.fcos Sphere.fsin Sphere.R_trig fmul Sphere.R_scalar Sphere.on_unit_sphere].
  pose proof (sin2_cos2 a) as Ha. pose proof (sin2_cos2 b) as Hb.
  unfold Rsqr in Ha, Hb.
  replace (cos a * cos b * (cos a * cos b) + cos a * sin b * (cos a * sin b)
           + sin a * sin a)%R
    with (cos a * cos a * (sin b * sin b + cos b * cos b) + sin a * sin a)%R
    by ring.
  rewrite Hb, Rmult_1_r, Rplus_comm. exact Ha.
Qed.

(** X7. Over the real numbers, every vertex returned by [unitSphere] and
    every vertex returned by [fullUnitSphere] lies on the unit sphere:
    [x^2 + y^2 + z^2 = 1]. *)
Theorem sphere_vertices_on_unit_sphere (res : nat)
  (vertices full : list (vec3 R)) (indices : list Z) :
  Sphere.unitSphere (F := R) res = Ok (vertices, indices) ->
  Sphere.fullUnitSphere (F := R) res = Ok full ->
  Forall Sphere.on_unit_sphere vertices /\ Forall Sphere.on_unit_sphere full.
Proof.
  destruct res as [|r]; [intros _ E; discriminate E|].
  destruct (unitSphere_spec (F := R) r) as (V & idx & EU & LV & _ & NV & _).
  destruct (fullUnitSphere_spec (F := R) r) as (W & EF & LF & NF).
  rewrite EU, EF. intros E1 E2.
  injection E1 as <- <-. injection E2 as <-.
  split; apply Forall_forall; intros v Hv;
    apply In_nth_error in Hv as (p & Ep).
  - assert (Hp : (p < S r * S r)%nat)
      by (rewrite <- LV; apply nth_error_Some; rewrite Ep; discriminate).
    pose proof (Nat.div_mod_eq p (S r)) as Ed.
    pose proof (Nat.mod_upper_bound p (S r) ltac:(lia)) as Hm.
    replace p with (p / S r * S r + p mod S r)%nat in Ep by lia.
    rewrite NV in Ep by exact Hm.
    eapply vertex_at_on_unit_sphere; exact Ep.
  - assert (Hp : (p < r * r * 4)%nat)
      by (rewrite <- LF; apply nth_error_Some; rewrite Ep; discriminate).
    destruct (quad_position r p Hp) as (i & j & c & Hi & Hj & Hc & ->).
    rewrite NF in Ep by assumption.
    eapply vertex_at_on_unit_sphere; exact Ep.
Qed.

(** The hypotheses of [sphere_vertices_on_unit_sphere] hold for the
    resolution 2. *)
Lemma sphere_vertices_on_unit_sphere_witness :
  exists vertices indices full,
    Sphere.unitSphere (F := R) 2 = Ok (vertices, indices) /\
    Sphere.fullUnitSphere (F := R) 2 = Ok full /\
    Forall Sphere.on_unit_sphere vertices /\ Forall Sphere.on_unit_sphere full.
Proof.
  do 3 eexists.
  split; [cbv -[cos sin PI Rplus Rmult Rminus Rdiv Ropp IZR]; reflexivity|].
  split; [cbv -[cos sin PI Rplus Rmult Rminus Rdiv Ropp IZR]; reflexivity|].
  eapply (sphere_vertices_on_unit_sphere 2);
    cbv -[cos sin PI Rplus Rmult Rminus Rdiv Ropp IZR]; reflexivity.
Defined.

(** ** The sub-sampler at and above the native resolution *)

Lemma np_round_below_three_halves (q : Q) :
  (q < 3 # 2)%Q -> Subsample.np_round q <= 1.
Proof.
  intros Hq. pose proof (np_round_nearest q) as Hn.
  apply Qabs_Qle_condition in Hn as [Hn _].
  assert (H : (inject_Z (Subsample.np_round q) < inject_Z 2)%Q).
  { change (inject_Z 2) with 2%Q.
    set (n := inject_Z (Subsample.np_round q)) in *. clearbody n. lra. }
  rewrite <- Zlt_Qlt in H. lia.
Qed.

Lemma stride_one {A} (l : list A) : Subsample.stride 1 0 l = l.
Proof. induction l as [|h t IH]; simpl; [reflexivity | f_equal; exact IH]. Qed.

Lemma slice_from_unit_step {A} (l : list A) :
  Subsample.slice_from (Subsample.axis_start 1 (length l)) 1 l = l.
Proof.
  unfold Subsample.slice_from. rewrite axis_start_spec.
  change (1 / 2) with 0.
  replace (Subsample.slice_begin (Z.min 0 (Z.of_nat (length l) - 1)) (length l))
    with 0%nat; [apply stride_one|].
  unfold Subsample.slice_begin.
  destruct (Z.ltb_spec (Z.min 0 (Z.of_nat (length l) - 1)) 0); lia.
Qed.

Lemma slice_len_unit_step (n : nat) :
  Subsample.slice_len (Subsample.axis_start 1 n) 1 n = n.
Proof.
  unfold Subsample.slice_len. rewrite axis_start_spec.
  change (1 / 2) with 0. change (Z.to_nat 1) with 1%nat.
  rewrite Nat.div_1_r.
  unfold Subsample.slice_begin.
  destruct (Z.ltb_spec (Z.min 0 (Z.of_nat n - 1)) 0); lia.
Qed.

(** X8. When the requested resolution is below one and a half voxels on
    every axis (in particular when it is not coarser than the voxels),
    [subsample] returns a well-shaped array unchanged, with a step of 1 on
    every axis and a start of 0 (or -1 on an axis without elements); the
    default voxel size is (1, 1, 1). *)
Theorem subsample_native_resolution {A} (data : Subsample.array3 A)
  (resolution : Q) (pixdim : option (vec3 Q)) :
  let '(px, py, pz) := match pixdim with
                       | None => (1, 1, 1)%Q
                       | Some p => p
                       end in
  let '(sx, sy, sz) := Subsample.shape data in
  Subsample.well_shaped data ->
  (0 < px)%Q -> (0 < py)%Q -> (0 < pz)%Q ->
  (resolution < (3 # 2) * px)%Q ->
  (resolution < (3 # 2) * py)%Q ->
  (resolution < (3 # 2) * pz)%Q ->
  Subsample.subsample data resolution pixdim
  = Ok (data,
        (Z.min 0 (Z.of_nat sx - 1), Z.min 0 (Z.of_nat sy - 1),
         Z.min 0 (Z.of_nat sz - 1)),
        (1, 1, 1)).
Proof.
  unfold Subsample.subsample.
  destruct (match pixdim with None => (1, 1, 1)%Q | Some p => p end)
    as [[px py] pz].
  destruct data as [[[sx sy] sz] C]. cbn [Subsample.shape Subsample.cells vget].
  intros Wf Hpx Hpy Hpz Rx Ry Rz.
  assert (S1 : forall p, (0 < p)%Q -> (resolution < (3 # 2) * p)%Q ->
                 Subsample.axis_step resolution p = Ok 1).
  { intros p Hp Hr. rewrite axis_step_spec by exact Hp. f_equal.
    assert (Hq : (resolution / p < 3 # 2)%Q)
      by (apply Qlt_shift_div_r; [exact Hp | exact Hr]).
    pose proof (np_round_below_three_halves _ Hq). lia. }
  rewrite !S1 by assumption. cbn [bind].
  destruct Wf as [Lx Wp]. cbn [Subsample.shape Subsample.cells] in Lx, Wp.
  rewrite !axis_start_spec. change (1 / 2) with 0.
  rewrite <- !axis_start_spec with (step := 1).
  f_equal. f_equal. f_equal. f_equal.
  - rewrite !slice_len_unit_step. reflexivity.
  - subst sx. rewrite slice_from_unit_step.
    rewrite <- (map_id C) at 2. apply map_ext_in.
    intros plane Hin. rewrite Forall_forall in Wp.
    destruct (Wp plane Hin) as [Ly Wr]. subst sy.
    rewrite slice_from_unit_step.
    rewrite <- (map_id plane) at 2. apply map_ext_in.
    intros row Hr. rewrite Forall_forall in Wr.
    rewrite <- (Wr row Hr). apply slice_from_unit_step.
Qed.

(** The hypotheses of [subsample_native_resolution] hold for a 2x1x2
    array at resolution 1 with the default voxel size. *)
Lemma subsample_native_resolution_witness :
  let data :=
    {| Subsample.shape := (2, 1, 2)%nat;
       Subsample.cells := [ [[1; 2]]; [[3; 4]] ]%nat |} in
  Subsample.subsample data 1 None = Ok (data, (0, 0, 0), (1, 1, 1)).
Proof.
  intros data.
  apply (subsample_native_resolution data 1 None);
    try reflexivity.
  unfold Subsample.well_shaped, data; simpl.
  split; [reflexivity|]. repeat constructor.
Defined.

Lemma slice_len_axis_start_bounds (step : Z) (n : nat) :
  1 <= step -> (1 <= n)%nat ->
  0 <= Subsample.axis_start step n <= Z.of_nat n - 1 /\
  (1 <= Subsample.slice_len (Subsample.axis_start step n) step n <= n)%nat.
Proof.
  intros Hs Hn. rewrite axis_start_spec.
  assert (H0 : 0 <= step / 2) by (apply Z.div_pos; lia).
  split; [lia|].
  unfold Subsample.slice_len, Subsample.slice_begin.
  destruct (Z.ltb_spec (Z.min (step / 2) (Z.of_nat n - 1)) 0) as [Hl|_]; [lia|].
  set (b := Nat.min (Z.to_nat (Z.min (step / 2) (Z.of_nat n - 1))) n).
  assert (Hb : (b <= n - 1)%nat) by (unfold b; lia).
  set (k := Z.to_nat step). assert (Hk : (1 <= k)%nat) by (unfold k; lia).
  clearbody b k. split.
  - apply Nat.div_le_lower_bound; lia.
  - apply Nat.Div0.div_le_upper_bound. nia.
Qed.

(** X9. For a well-shaped array with at least one element on every axis
    and positive voxel sizes, [subsample] returns, on every axis, a step
    of at least 1, a start inside the array ([0 <= start <= shape - 1]),
    and a sample with at least one element and at most as many elements
    as the data: the sample is never empty and every sampled position
    exists in the data. *)
Theorem subsample_nonempty_in_bounds {A} (data : Subsample.array3 A)
  (resolution : Q) (px py pz : Q) :
  let '(sx, sy, sz) := Subsample.shape data in
  Subsample.well_shaped data ->
  (1 <= sx)%nat -> (1 <= sy)%nat -> (1 <= sz)%nat ->
  (0 < px)%Q -> (0 < py)%Q -> (0 < pz)%Q ->
  exists sample xstart ystart zstart xstep ystep zstep nx ny nz,
    Subsample.subsample data resolution (Some (px, py, pz))
      = Ok (sample, (xstart, ystart, zstart), (xstep, ystep, zstep)) /\
    Subsample.shape sample = (nx, ny, nz) /\
    (1 <= xstep /\ 1 <= ystep /\ 1 <= zstep) /\
    (0 <= xstart <= Z.of_nat sx - 1 /\ 0 <= ystart <= Z.of_nat sy - 1 /\
     0 <= zstart <= Z.of_nat sz - 1) /\
    (1 <= nx <= sx /\ 1 <= ny <= sy /\ 1 <= nz <= sz)%nat /\
    (forall i j k, (i < nx)%nat -> (j < ny)%nat -> (k < nz)%nat ->
       exists x, Subsample.get3 sample i j k = Some x /\
                 Subsample.get3 data
                   (Z.to_nat xstart + i * Z.to_nat xstep)
                   (Z.to_nat ystart + j * Z.to_nat ystep)
                   (Z.to_nat zstart + k * Z.to_nat zstep) = Some x).
Proof.
  destruct data as [[[sx sy] sz] C] eqn:Ed. cbn [Subsample.shape].
  intros Wf Hsx Hsy Hsz Hpx Hpy Hpz.
  unfold Subsample.subsample. cbn [Subsample.shape Subsample.cells vget].
  rewrite !axis_step_spec by assumption. cbn [bind].
  set (xstep := Z.max 1 (Subsample.np_round (resolution / px))).
  set (ystep := Z.max 1 (Subsample.np_round (resolution / py))).
  set (zstep := Z.max 1 (Subsample.np_round (resolution / pz))).
  assert (Sx : 1 <= xstep) by (unfold xstep; lia).
  assert (Sy : 1 <= ystep) by (unfold ystep; lia).
  assert (Sz : 1 <= zstep) by (unfold zstep; lia).
  destruct (slice_len_axis_start_bounds xstep sx Sx Hsx) as [Bx Nx].
  destruct (slice_len_axis_start_bounds ystep sy Sy Hsy) as [By Ny].
  destruct (slice_len_axis_start_bounds zstep sz Sz Hsz) as [Bz Nz].
  do 10 eexists. split; [reflexivity|]. split; [reflexivity|].
  split; [auto|]. split; [auto|]. split; [auto|].
  intros i j k Hi Hj Hk.
  pose proof (get3_subsampled {| Subsample.shape := (sx, sy, sz);
                                 Subsample.cells := C |}
                xstep ystep zstep i j k Wf Sx Sy Sz) as G.
  cbn [Subsample.shape Subsample.cells] in G.
  rewrite G.
  (* the sampled position exists in the data *)
  destruct Wf as [Lx Wp]. cbn [Subsample.shape Subsample.cells] in Lx, Wp.
  unfold Subsample.get3. cbn [Subsample.cells].
  assert (P : forall (step : Z) (n m : nat),
             1 <= step -> (1 <= n)%nat ->
             (m < Subsample.slice_len (Subsample.axis_start step n) step n)%nat ->
             (Z.to_nat (Subsample.axis_start step n) + m * Z.to_nat step < n)%nat).
  { intros step n m Hs Hn Hm.
    destruct (slice_len_axis_start_bounds step n Hs Hn) as [Hb _].
    unfold Subsample.slice_len, Subsample.slice_begin in Hm.
    destruct (Z.ltb_spec (Subsample.axis_start step n) 0) as [Hl|_]; [lia|].
    replace (Nat.min (Z.to_nat (Subsample.axis_start step n)) n)
      with (Z.to_nat (Subsample.axis_start step n)) in Hm by lia.
    set (b := Z.to_nat (Subsample.axis_start step n)) in *.
    set (s := Z.to_nat step) in *.
    assert (Hs' : (1 <= s)%nat) by (unfold s; lia).
    assert (Hb' : (b <= n - 1)%nat) by (unfold b; lia).
    clearbody b s.
    pose proof (Nat.Div0.mul_div_le (n - b + (s - 1)) s) as Hd.
    nia. }
  destruct (nth_error C _) as [plane|] eqn:Ep.
  2: { apply nth_error_None in Ep. specialize (P xstep sx i Sx Hsx Hi). lia. }
  apply nth_error_In in Ep. rewrite Forall_forall in Wp.
  destruct (Wp plane Ep) as [Ly Wr].
  destruct (nth_error plane _) as [row|] eqn:Er.
  2: { apply nth_error_None in Er. specialize (P ystep sy j Sy Hsy Hj). lia. }
  apply nth_error_In in Er. rewrite Forall_forall in Wr.
  specialize (Wr row Er).
  destruct (nth_error row _) as [x|] eqn:Ex.
  2: { apply nth_error_None in Ex. specialize (P zstep sz k Sz Hsz Hk). lia. }
  exists x. split; reflexivity.
Qed.

(** The hypotheses of [subsample_nonempty_in_bounds] hold for a 4x3x1
    array, a resolution of 4 and voxel sizes (2, 2, 2). *)
Lemma subsample_nonempty_in_bounds_witness :
  let data :=
    {| Subsample.shape := (4, 3, 1)%nat;
       Subsample.cells :=
         [ [[0]; [1]; [2]]; [[3]; [4]; [5]]; [[6]; [7]; [8]]; [[9]; [10]; [11]] ]%nat |} in
  Subsample.well_shaped data /\
  exists sample starts steps nx ny nz,
    Subsample.subsample data 4 (Some (2, 2, 2)%Q) = Ok (sample, starts, steps) /\
    Subsample.shape sample = (nx, ny, nz) /\
    (1 <= nx <= 4 /\ 1 <= ny <= 3 /\ 1 <= nz <= 1)%nat.
Proof.
  intros data.
  assert (Wf : Subsample.well_shaped data).
  { unfold Subsample.well_shaped, data; simpl.
    split; [reflexivity|]. repeat constructor. }
  split; [exact Wf|].
  destruct (subsample_nonempty_in_bounds data 4 2 2 2 Wf)
    as (sample & xs & ys & zs & xt & yt & zt & nx & ny & nz & E & Es & _ & _ & B & _);
    try reflexivity; try (simpl; lia).
  exists sample, (xs, ys, zs), (xt, yt, zt), nx, ny, nz. auto.
Defined.

(** ** The geometry of a slice *)

Lemma vget_vset_same {F} (v : vec3 F) (a : nat) (x : F) :
  vget (vset v a x) a = x.
Proof. destruct v as [[p q] r]; destruct a as [|[|a]]; reflexivity. Qed.

Lemma vget_vset_other {F} (v : vec3 F) (a b : nat) (x : F) :
  (a < 3)%nat -> (b < 3)%nat -> a <> b ->
  vget (vset v a x) b = vget v b.
Proof.
  intros Ha Hb Hab. destruct v as [[p q] r].
  destruct a as [|[|[|a]]], b as [|[|[|b]]]; try reflexivity; lia.
Qed.

(** X10. Whenever [slice2D] returns, with either origin, the texture
    coordinates are the inverse transform of the returned vertices, plus
    0.5, divided by the shape: the two origin conventions differ only in
    the vertices, through the bounds, and in the voxel coordinates, which
    include the offset of 0.5 for 'centre' and not for 'corner'. *)
Theorem slice2D_texCoords_any_origin
  (mat : Type) (axisBounds : Z * Z * Z -> mat -> Z -> string -> Q * Q)
  (transform : list (vec3 Q) -> mat -> list (vec3 Q))
  (dataShape : Z * Z * Z) (xax yax : Z) (zpos : Q) (v2d d2v : mat)
  (geometry origin : string) (vertices voxCoords texCoords : list (vec3 Q)) :
  Slice.slice2D mat axisBounds transform dataShape xax yax zpos v2d d2v
    geometry origin = Ok (vertices, voxCoords, texCoords) ->
  texCoords = map (fun p => Slice.vdiv dataShape (Slice.vadd 0.5 p))
                  (transform vertices d2v) /\
  voxCoords = (if String.eqb origin "centre"
               then map (Slice.vadd 0.5) (transform vertices d2v)
               else transform vertices d2v).
Proof.
  intros E.
  apply slice2D_Ok_inv in E as [(-> & -> & ->) | (-> & -> & ->)].
  - rewrite map_map. split; reflexivity.
  - split; reflexivity.
Qed.

Lemma slice2D_texCoords_any_origin_witness :
  exists vertices voxCoords texCoords,
    Slice.slice2D Affine.mat4 Affine.axisBounds Affine.transform (4, 4, 4) 0 1 2
      Affine.identity Affine.identity "square" "corner"
      = Ok (vertices, voxCoords, texCoords) /\
    texCoords = map (fun p => Slice.vdiv (4, 4, 4) (Slice.vadd 0.5 p))
                    (Affine.transform vertices Affine.identity) /\
    voxCoords = (if String.eqb "corner" "centre"
                 then map (Slice.vadd 0.5) (Affine.transform vertices Affine.identity)
                 else Affine.transform vertices Affine.identity).
Proof.
  do 3 eexists. split; [vm_compute; reflexivity|].
  eapply (slice2D_texCoords_any_origin Affine.mat4 Affine.axisBounds
            Affine.transform (4, 4, 4) 0 1 2 Affine.identity Affine.identity
            "square" "corner").
  vm_compute; reflexivity.
Defined.

(** X11. For two distinct axes among 0, 1, 2 and a recognised origin,
    the vertices of a slice are the four corners of the rectangle
    [xmin, xmax] x [ymin, ymax] given by the axis bounds, at depth [zpos]:
    in the order lower left, lower right, upper right, upper left for
    'square', and as the two triangles (lower left, upper left, lower
    right) and (lower right, upper left, upper right), which share a
    diagonal, for 'triangles'. *)
Theorem slice2D_vertices_are_corners
  (mat : Type) (axisBounds : Z * Z * Z -> mat -> Z -> string -> Q * Q)
  (transform : list (vec3 Q) -> mat -> list (vec3 Q))
  (dataShape : Z * Z * Z) (xax yax : Z) (zpos : Q) (v2d d2v : mat)
  (geometry origin : string) (xmin xmax ymin ymax : Q) :
  0 <= xax < 3 -> 0 <= yax < 3 -> xax <> yax ->
  origin = "centre"%string \/ origin = "corner"%string ->
  geometry = "triangles"%string \/ geometry = "square"%string ->
  axisBounds dataShape v2d xax origin = (xmin, xmax) ->
  axisBounds dataShape v2d yax origin = (ymin, ymax) ->
  let xa := Z.to_nat xax in
  let ya := Z.to_nat yax in
  let za := Z.to_nat (3 - xax - yax) in
  let corner := fun (x y : Q) (p : vec3 Q) =>
    vget p xa = x /\ vget p ya = y /\ vget p za = zpos in
  exists ll lr ur ul vertices voxCoords texCoords,
    corner xmin ymin ll /\ corner xmax ymin lr /\
    corner xmax ymax ur /\ corner xmin ymax ul /\
    Slice.slice2D mat axisBounds transform dataShape xax yax zpos v2d d2v
      geometry origin = Ok (vertices, voxCoords, texCoords) /\
    vertices = (if String.eqb geometry "triangles"
                then [ll; ul; lr; lr; ul; ur]
                else [ll; lr; ur; ul]).
Proof.
  intros Hx Hy Hxy Ho Hg Bx By xa ya za corner.
  assert (C : forall x y,
             corner x y (vset (vset (vset (0, 0, 0)%Q xa x) ya y) za zpos)).
  { intros x y. unfold corner, xa, ya, za. repeat split.
    - rewrite vget_vset_other, vget_vset_other, vget_vset_same by lia.
      reflexivity.
    - rewrite vget_vset_other, vget_vset_same by lia. reflexivity.
    - apply vget_vset_same. }
  rewrite slice2D_unfold_valid by auto. cbv zeta.
  unfold Slice.slice_vertices. rewrite Bx, By. fold xa ya za.
  exists (vset (vset (vset (0, 0, 0)%Q xa xmin) ya ymin) za zpos),
         (vset (vset (vset (0, 0, 0)%Q xa xmax) ya ymin) za zpos),
         (vset (vset (vset (0, 0, 0)%Q xa xmax) ya ymax) za zpos),
         (vset (vset (vset (0, 0, 0)%Q xa xmin) ya ymax) za zpos).
  destruct Ho as [-> | ->]; cbn [String.eqb Ascii.eqb Bool.eqb];
    do 3 eexists; (repeat (split; [apply C|]));
    (split; [reflexivity|]);
    destruct Hg as [-> | ->]; reflexivity.
Qed.

(** The hypotheses of [slice2D_vertices_are_corners] hold for a 4x4x4
    grid with the identity transform and the axes (0, 2). *)
Lemma slice2D_vertices_are_corners_witness :
  exists vertices voxCoords texCoords,
    Slice.slice2D Affine.mat4 Affine.axisBounds Affine.transform (4, 4, 4) 0 2 1
      Affine.identity Affine.identity "triangles" "centre"
      = Ok (vertices, voxCoords, texCoords) /\
    length vertices = 6%nat.
Proof.
  destruct (slice2D_vertices_are_corners Affine.mat4 Affine.axisBounds
              Affine.transform (4, 4, 4) 0 2 1 Affine.identity Affine.identity
              "triangles" "centre" (- (1 # 2))%Q (7 # 2)%Q (- (1 # 2))%Q (7 # 2)%Q)
    as (ll & lr & ur & ul & vs & vc & tc & _ & _ & _ & _ & E & Ev);
    try lia; auto; try (vm_compute; reflexivity).
  exists vs, vc, tc. split; [exact E|]. rewrite Ev. reflexivity.
Defined.

(** ** The voxel grid *)

Lemma nth_error_upd_every {A} (f : A -> A) (step : nat) (l : list A) :
  (1 <= step)%nat ->
  forall k p,
    nth_error (VoxelGrid.upd_every f step k l) p
    = if (k <=? p)%nat && ((p - k) mod step =? 0)%nat
      then option_map f (nth_error l p)
      else nth_error l p.
Proof.
  intros Hs; induction l as [|h t IH]; intros k p.
  - simpl. destruct p; destruct (_ && _); reflexivity.
  - destruct k as [|k']; destruct p as [|p']; cbn [VoxelGrid.upd_every nth_error].
    + rewrite Nat.Div0.mod_0_l. reflexivity.
    + rewrite IH. cbn [Nat.leb Nat.sub andb].
      replace ((step - 1 <=? p')%nat && ((p' - (step - 1)) mod step =? 0)%nat)
        with ((S p' mod step =? 0)%nat); [reflexivity|].
      destruct (Nat.leb_spec (step - 1) p') as [Hle|Hgt]; cbn [andb].
      * replace (S p') with (p' - (step - 1) + 1 * step)%nat by lia.
        rewrite Nat.Div0.mod_add. reflexivity.
      * rewrite Nat.mod_small by lia. reflexivity.
    + reflexivity.
    + rewrite IH. reflexivity.
Qed.

Lemma nth_error_upd_every4 {A} (f : A -> A) (s q c : nat) (l : list A) :
  (s < 4)%nat -> (c < 4)%nat ->
  nth_error (VoxelGrid.upd_every f 4 s l) (q * 4 + c)
  = if (c =? s)%nat then option_map f (nth_error l (q * 4 + c))
    else nth_error l (q * 4 + c).
Proof.
  intros Hs Hc. rewrite nth_error_upd_every by lia.
  rewrite stride4_condition by assumption. reflexivity.
Qed.

Lemma length_upd_every {A} (f : A -> A) (step : nat) (l : list A) :
  forall k, length (VoxelGrid.upd_every f step k l) = length l.
Proof.
  induction l as [|h t IH]; intros k; [reflexivity|].
  destruct k; simpl; rewrite IH; reflexivity.
Qed.

Lemma length_arange4 (n : nat) : length (VoxelGrid.arange4 n) = n.
Proof. unfold VoxelGrid.arange4. rewrite length_map, length_seq. reflexivity. Qed.

Lemma np_add_same_length (a b : list Z) :
  length a = length b ->
  np_add a b = Ok (map (fun ab => u32 (fst ab + snd ab)) (combine a b)).
Proof. intros E. unfold np_add. rewrite E, Nat.eqb_refl. reflexivity. Qed.

(** What [voxelGrid] returns for an array of points and valid axes. *)
Lemma voxelGrid_spec (ps : list (vec3 Q)) (xax yax : Z) (xpixdim ypixdim : Q) :
  0 <= xax < 3 -> 0 <= yax < 3 ->
  let xa := Z.to_nat xax in
  let ya := Z.to_nat yax in
  let xh := (xpixdim / 2)%Q in
  let yh := (ypixdim / 2)%Q in
  exists vertices indices,
    VoxelGrid.voxelGrid (VoxelGrid.Points ps) xax yax xpixdim ypixdim
      = Ok (vertices, indices) /\
    length vertices = (length ps * 4)%nat /\
    length indices = (length ps * 8)%nat /\
    (forall k p, nth_error ps k = Some p ->
       nth_error vertices (k * 4 + 0)
         = Some (vupd (fun c => c - yh)%Q ya (vupd (fun c => c - xh)%Q xa p)) /\
       nth_error vertices (k * 4 + 1)
         = Some (vupd (fun c => c - yh)%Q ya (vupd (fun c => c + xh)%Q xa p)) /\
       nth_error vertices (k * 4 + 2)
         = Some (vupd (fun c => c + yh)%Q ya (vupd (fun c => c - xh)%Q xa p)) /\
       nth_error vertices (k * 4 + 3)
         = Some (vupd (fun c => c + yh)%Q ya (vupd (fun c => c + xh)%Q xa p))) /\
    (forall k e, (k < length ps)%nat -> (e < 8)%nat ->
       nth_error indices (k * 8 + e)
       = Some (u32 (Z.of_nat k * 4 + nth e [0; 1; 0; 2; 1; 3; 2; 3] 0))).
Proof.
  intros Hx Hy xa ya xh yh.
  unfold VoxelGrid.voxelGrid.
  rewrite (norm_axis_in_range xax Hx), (norm_axis_in_range yax Hy). cbn [bind].
  fold xa ya xh yh.
  rewrite np_add_same_length
    by (rewrite length_tile, length_np_repeat, length_arange4; simpl; lia).
  cbn [bind].
  do 2 eexists. split; [reflexivity|].
  split; [rewrite !length_upd_every, length_np_repeat; reflexivity|].
  split.
  { rewrite length_map, length_combine, length_tile, length_np_repeat,
      length_arange4. simpl. lia. }
  split.
  - intros k p Ek.
    assert (Eb : forall c, (c < 4)%nat ->
               nth_error (Sphere.np_repeat ps 4) (k * 4 + c) = Some p)
      by (intros c Hc; rewrite nth_error_np_repeat by exact Hc; exact Ek).
    repeat split;
      rewrite !nth_error_upd_every4 by lia; cbn [Nat.eqb];
      rewrite Eb by lia; reflexivity.
  - intros k e Hk He.
    rewrite nth_error_combine_map.
    change 8%nat with (length (map u32 [0; 1; 0; 2; 1; 3; 2; 3])) at 1.
    rewrite nth_error_tile by (simpl; exact He).
    rewrite nth_error_np_repeat by exact He.
    unfold VoxelGrid.arange4. rewrite !nth_error_map, nth_error_seq.
    destruct (Nat.ltb_spec k (length ps)) as [_|]; [|lia].
    rewrite (nth_error_nth' [0; 1; 0; 2; 1; 3; 2; 3] 0) by (simpl; exact He).
    cbn [option_map fst snd Nat.add]. f_equal.
    rewrite u32_add. f_equal. lia.
Qed.

Lemma vget_vupd_same {F} (f : F -> F) (v : vec3 F) (a : nat) :
  vget (vupd f a v) a = f (vget v a).
Proof. unfold vupd. apply vget_vset_same. Qed.

Lemma vget_vupd_other {F} (f : F -> F) (v : vec3 F) (a b : nat) :
  (a < 3)%nat -> (b < 3)%nat -> a <> b ->
  vget (vupd f a v) b = vget v b.
Proof. intros; unfold vupd; apply vget_vset_other; assumption. Qed.

(** X12. For valid axes, [voxelGrid] returns four vertices and eight
    indices per point (a single point counts as an array of one point);
    every index is smaller than the number of vertices; and, as long as
    the vertices can be numbered in 32 bits, the eight indices of the
    [k]-th point are [4k + (0, 1, 0, 2, 1, 3, 2, 3)]: four line segments
    between the four vertices of that point. *)
Theorem voxelGrid_counts_and_indices
  (points : VoxelGrid.points_arg) (xax yax : Z) (xpixdim ypixdim : Q) :
  0 <= xax < 3 -> 0 <= yax < 3 ->
  let ps := match points with
            | VoxelGrid.Single p => [p]
            | VoxelGrid.Points ps => ps
            end in
  let n := length ps in
  exists vertices indices,
    VoxelGrid.voxelGrid points xax yax xpixdim ypixdim = Ok (vertices, indices) /\
    length vertices = (4 * n)%nat /\
    length indices = (8 * n)%nat /\
    Forall (fun i => 0 <= i < Z.of_nat (length vertices)) indices /\
    (Z.of_nat (4 * n) <= 2 ^ 32 ->
     forall k, (k < n)%nat ->
       firstn 8 (skipn (k * 8) indices)
       = map (fun o => Z.of_nat k * 4 + o) [0; 1; 0; 2; 1; 3; 2; 3]).
Proof.
  intros Hx Hy ps n.
  assert (E : VoxelGrid.voxelGrid points xax yax xpixdim ypixdim
              = VoxelGrid.voxelGrid (VoxelGrid.Points ps) xax yax xpixdim ypixdim)
    by (destruct points; reflexivity).
  rewrite E.
  destruct (voxelGrid_spec ps xax yax xpixdim ypixdim Hx Hy)
    as (V & I & EV & LV & LI & _ & NI).
  fold n in LV, LI, NI.
  exists V, I. split; [exact EV|]. split; [lia|]. split; [lia|].
  assert (O : forall e, (e < 8)%nat ->
             0 <= nth e [0; 1; 0; 2; 1; 3; 2; 3] 0 <= 3).
  { intros e He. do 8 (destruct e as [|e]; [simpl; lia|]). lia. }
  split.
  - apply Forall_forall. intros x Hin.
    apply In_nth_error in Hin as (p & Ep).
    assert (Hp : (p < n * 8)%nat)
      by (rewrite <- LI; apply nth_error_Some; rewrite Ep; discriminate).
    pose proof (Nat.div_mod_eq p 8) as Ed.
    pose proof (Nat.mod_upper_bound p 8 ltac:(lia)) as Hm.
    assert (Hk : (p / 8 < n)%nat) by (apply Nat.Div0.div_lt_upper_bound; lia).
    replace p with (p / 8 * 8 + p mod 8)%nat in Ep by lia.
    rewrite NI in Ep by assumption.
    assert (Ex : x = u32 (Z.of_nat (p / 8) * 4
                          + nth (p mod 8) [0; 1; 0; 2; 1; 3; 2; 3] 0))
      by congruence.
    rewrite Ex. clear Ex Ep.
    pose proof (O _ Hm) as Ho.
    set (o := nth (p mod 8) [0; 1; 0; 2; 1; 3; 2; 3] 0) in *.
    set (q := (p / 8)%nat) in *. clearbody o q.
    pose proof (u32_range (Z.of_nat q * 4 + o)).
    pose proof (u32_le (Z.of_nat q * 4 + o)).
    lia.
  - intros Hb k Hk.
    apply nth_error_ext. intros e.
    rewrite nth_error_firstn, nth_error_skipn, nth_error_map.
    destruct (Nat.ltb_spec e 8) as [He|He].
    + rewrite NI by assumption.
      rewrite (nth_error_nth' [0; 1; 0; 2; 1; 3; 2; 3] 0) by (simpl; exact He).
      cbn [option_map]. f_equal. apply u32_small.
      pose proof (O e He). lia.
    + replace (nth_error [0; 1; 0; 2; 1; 3; 2; 3] e) with (@None Z);
        [reflexivity|].
      symmetry. apply nth_error_None. simpl. lia.
Qed.

(** The hypotheses of [voxelGrid_counts_and_indices] hold for a single
    point and the axes (0, 1). *)
Lemma voxelGrid_counts_and_indices_witness :
  exists vertices indices,
    VoxelGrid.voxelGrid (VoxelGrid.Single (1, 2, 3)%Q) 0 1 2 4
      = Ok (vertices, indices) /\
    length vertices = 4%nat /\ indices = [0; 1; 0; 2; 1; 3; 2; 3].
Proof.
  destruct (voxelGrid_counts_and_indices (VoxelGrid.Single (1, 2, 3)%Q) 0 1 2 4)
    as (V & I & E & LV & _); [lia | lia |].
  exists V, I. split; [exact E|]. split; [exact LV|].
  vm_compute in E. injection E as _ <-. reflexivity.
Defined.

(** X13. For two distinct valid axes, the four vertices that [voxelGrid]
    returns for a point are the corners of the rectangle of width
    [xpixdim] and height [ypixdim] centred on the point, in the order
    bottom left, bottom right, top left, top right; the third coordinate
    is that of the point. *)
Theorem voxelGrid_rectangle
  (ps : list (vec3 Q)) (xax yax : Z) (xpixdim ypixdim : Q) (k : nat) (p : vec3 Q) :
  0 <= xax < 3 -> 0 <= yax < 3 -> xax <> yax ->
  nth_error ps k = Some p ->
  let xa := Z.to_nat xax in
  let ya := Z.to_nat yax in
  let za := Z.to_nat (3 - xax - yax) in
  let corner := fun (sx sy : Q) (v : vec3 Q) =>
    (vget v xa == vget p xa + sx * (xpixdim / 2) /\
     vget v ya == vget p ya + sy * (ypixdim / 2) /\
     vget v za == vget p za)%Q in
  exists vertices indices bl br tl tr,
    VoxelGrid.voxelGrid (VoxelGrid.Points ps) xax yax xpixdim ypixdim
      = Ok (vertices, indices) /\
    firstn 4 (skipn (k * 4) vertices) = [bl; br; tl; tr] /\
    corner (-1)%Q (-1)%Q bl /\ corner 1%Q (-1)%Q br /\
    corner (-1)%Q 1%Q tl /\ corner 1%Q 1%Q tr.
Proof.
  intros Hx Hy Hxy Ek xa ya za corner.
  destruct (voxelGrid_spec ps xax yax xpixdim ypixdim Hx Hy)
    as (V & I & EV & LV & _ & NV & _).
  destruct (NV k p Ek) as (N0 & N1 & N2 & N3). fold xa ya in N0, N1, N2, N3.
  set (xh := (xpixdim / 2)%Q) in *. set (yh := (ypixdim / 2)%Q) in *.
  exists V, I.
  exists (vupd (fun c => c - yh)%Q ya (vupd (fun c => c - xh)%Q xa p)),
         (vupd (fun c => c - yh)%Q ya (vupd (fun c => c + xh)%Q xa p)),
         (vupd (fun c => c + yh)%Q ya (vupd (fun c => c - xh)%Q xa p)),
         (vupd (fun c => c + yh)%Q ya (vupd (fun c => c + xh)%Q xa p)).
  split; [exact EV|]. split.
  { apply nth_error_ext. intros c.
    rewrite nth_error_firstn, nth_error_skipn.
    destruct c as [|[|[|[|c]]]]; cbn [Nat.ltb Nat.leb nth_error];
      [exact N0 | exact N1 | exact N2 | exact N3 | destruct c; reflexivity]. }
  assert (Hxa : (xa < 3)%nat) by (unfold xa; lia).
  assert (Hya : (ya < 3)%nat) by (unfold ya; lia).
  assert (Hza : (za < 3)%nat) by (unfold za; lia).
  assert (Hyx : ya <> xa) by (unfold xa, ya; lia).
  assert (Hxy' : xa <> ya) by (unfold xa, ya; lia).
  assert (Hxz : xa <> za) by (unfold xa, za; lia).
  assert (Hyz : ya <> za) by (unfold ya, za; lia).
  unfold corner.
  repeat split;
    rewrite ?vget_vupd_same;
    rewrite ?(vget_vupd_other _ _ ya xa) by auto;
    rewrite ?(vget_vupd_other _ _ ya za) by auto;
    rewrite ?(vget_vupd_other _ _ xa za) by auto;
    rewrite ?vget_vupd_same; cbv beta;
    rewrite ?(vget_vupd_other _ _ xa ya) by auto;
    try reflexivity; ring.
Qed.

(** The hypotheses of [voxelGrid_rectangle] hold for the point (1, 2, 3)
    drawn on the axes (0, 1) with a 2 by 4 voxel: the rectangle spans
    0..2 horizontally and 0..4 vertically. *)
Lemma voxelGrid_rectangle_witness :
  exists vertices indices bl tr,
    VoxelGrid.voxelGrid (VoxelGrid.Points [(1, 2, 3)%Q]) 0 1 2 4
      = Ok (vertices, indices) /\
    nth_error vertices 0 = Some bl /\ nth_error vertices 3 = Some tr /\
    (vget bl 0 == 0 /\ vget bl 1 == 0 /\ vget bl 2 == 3)%Q /\
    (vget tr 0 == 2 /\ vget tr 1 == 4 /\ vget tr 2 == 3)%Q.
Proof.
  destruct (voxelGrid_rectangle [(1, 2, 3)%Q] 0 1 2 4 0 (1, 2, 3)%Q)
    as (V & I & bl & br & tl & tr & E & EV & (B0 & B1 & B2) & _ & _
        & (T0 & T1 & T2));
    [lia | lia | lia | reflexivity |].
  exists V, I, bl, tr. split; [exact E|].
  change (skipn (0 * 4) V) with V in EV.
  split; [|split].
  - destruct V as [|v0 V]; [discriminate|]. cbn [firstn] in EV.
    cbn [nth_error]. congruence.
  - destruct V as [|v0 [|v1 [|v2 [|v3 V]]]]; try discriminate.
    cbn [firstn] in EV. cbn [nth_error]. congruence.
  - split.
    + repeat split.
      * rewrite B0. vm_compute. reflexivity.
      * rewrite B1. vm_compute. reflexivity.
      * rewrite B2. vm_compute. reflexivity.
    + repeat split.
      * rewrite T0. vm_compute. reflexivity.
      * rewrite T1. vm_compute. reflexivity.
      * rewrite T2. vm_compute. reflexivity.
Defined.

(** ** [broadcast] *)

(** A slice assignment of as many values as the slice has elements
    replaces these elements and no other. *)
Lemma assign_slice_block {A} (start : nat) (vals a : list A) :
  (start + length vals <= length a)%nat ->
  exists a',
    assign_slice start (start + length vals) vals a = Ok a' /\
    length a' = length a /\
    (forall p, nth_error a' p =
       if ((start <=? p) && (p <? start + length vals))%nat
       then nth_error vals (p - start) else nth_error a p).
Proof.
  intros H. unfold assign_slice.
  rewrite !Nat.min_l by lia.
  replace (start + length vals - start)%nat with (length vals) by lia.
  rewrite Nat.eqb_refl. eexists. split; [reflexivity|]. split.
  - rewrite !length_app, length_firstn, length_skipn. lia.
  - intros p. destruct (Nat.leb_spec start p); cbn [andb].
    + rewrite nth_error_app2 by (rewrite length_firstn; lia).
      rewrite length_firstn, Nat.min_l by lia.
      destruct (Nat.ltb_spec p (start + length vals)).
      * rewrite nth_error_app1 by lia. reflexivity.
      * rewrite nth_error_app2 by lia. rewrite nth_error_skipn. f_equal. lia.
    + rewrite nth_error_app1 by (rewrite length_firstn; lia).
      rewrite nth_error_firstn.
      destruct (Nat.ltb_spec p start); [reflexivity | lia].
Qed.

(** Writing the next block keeps the earlier blocks and the zeros after
    the new one. *)
Lemma blocks_filled_step {A} (blocks : nat -> list A) (n total : nat)
  (zero : A) (i : nat) (buf : list A) :
  blocks_filled blocks n total zero i buf ->
  (i < total)%nat -> length (blocks i) = n ->
  exists buf',
    assign_slice (i * n) (i * n + n) (blocks i) buf = Ok buf' /\
    blocks_filled blocks n total zero (S i) buf'.
Proof.
  intros (L & B & Z0) Hi Hb.
  destruct (assign_slice_block (i * n) (blocks i) buf) as (buf' & E & L' & N).
  { rewrite Hb, L. nia. }
  rewrite Hb in E, N.
  exists buf'. split; [exact E|]. split; [lia|]. split.
  - intros k j Hk Hj. rewrite N.
    destruct (Nat.eq_dec k i) as [->|Hne].
    + replace ((i * n <=? i * n + j) && (i * n + j <? i * n + n))%nat with true.
      * f_equal. lia.
      * symmetry. apply andb_true_iff. split;
          [apply Nat.leb_le | apply Nat.ltb_lt]; lia.
    + replace ((i * n <=? k * n + j) && (k * n + j <? i * n + n))%nat with false.
      * apply B; lia.
      * symmetry. apply andb_false_iff. left. apply Nat.leb_gt. nia.
  - intros p Hp. rewrite N.
    replace ((i * n <=? p) && (p <? i * n + n))%nat with false.
    + apply Z0. nia.
    + symmetry. apply andb_false_iff. right. apply Nat.ltb_ge. nia.
Qed.

(** A filled block, read as a slice of the buffer. *)
Lemma blocks_filled_slice {A} (blocks : nat -> list A) (n total : nat)
  (zero : A) (i k : nat) (buf : list A) :
  blocks_filled blocks n total zero i buf ->
  (k < i)%nat -> length (blocks k) = n ->
  firstn n (skipn (k * n) buf) = blocks k.
Proof.
  intros (_ & B & _) Hk Hb.
  apply nth_error_ext. intros c.
  rewrite nth_error_firstn, nth_error_skipn.
  destruct (Nat.ltb_spec c n) as [Hc|Hc].
  - apply B; assumption.
  - symmetry. apply nth_error_None. lia.
Qed.

Lemma blocks_filled_init {A} (blocks : nat -> list A) (n total : nat) (zero : A) :
  blocks_filled blocks n total zero 0 (repeat zero (n * total)).
Proof.
  split; [apply repeat_length|]. split.
  - intros k j Hk. lia.
  - intros p Hp. apply nth_error_repeat. lia.
Qed.

Lemma vset_vset {F} (v : vec3 F) (a : nat) (x y : F) :
  vset (vset v a x) a y = vset v a y.
Proof. destruct v as [[p q] r]. destruct a as [|[|a]]; reflexivity. Qed.

Section BroadcastLoop.

Variable mat : Type.
Variable transform : list (vec3 Q) -> mat -> list (vec3 Q).
Hypothesis transform_length : forall vs x, length (transform vs x) = length vs.

Variables (vertices0 : list (vec3 Q)) (indices : list Z) (zax : Z).
Variables (total : nat) (all : list (Q * mat)).
Hypothesis zax_valid : 0 <= zax < 3.
Hypothesis all_fit : (length all <= total)%nat.

(** The blocks that the loop writes for the [k]-th pair. *)
Variables (tblock vblock : nat -> list (vec3 Q)) (iblock : nat -> list Z).
Hypothesis tblock_def : forall k,
  tblock k = match nth_error all k with
             | Some (z, _) => map (fun v => vset v (Z.to_nat zax) z) vertices0
             | None => []
             end.
Hypothesis vblock_def : forall k,
  vblock k = match nth_error all k with
             | Some (z, x) =>
                 transform (map (fun v => vset v (Z.to_nat zax) z) vertices0) x
             | None => []
             end.
Hypothesis iblock_def : forall k,
  iblock k
  = map (fun x => u32 (x + Z.of_nat k * Z.of_nat (length vertices0))) indices.

(** The invariant of the loop of [broadcast]: after [i] iterations the
    first [i] blocks of the three buffers are written, and the working
    copy of the vertices differs from the original only on the depth
    axis. *)
Lemma broadcast_loop_spec (rest : list (Q * mat)) :
  forall (i : nat) (b : Broadcast.buffers),
  (forall k, nth_error rest k = nth_error all (i + k)) ->
  (i + length rest = length all)%nat ->
  (forall z, map (fun v => vset v (Z.to_nat zax) z) (Broadcast.vertices b)
             = map (fun v => vset v (Z.to_nat zax) z) vertices0) ->
  blocks_filled tblock (length vertices0) total (0, 0, 0)%Q i
    (Broadcast.allTexCoords b) ->
  blocks_filled vblock (length vertices0) total (0, 0, 0)%Q i
    (Broadcast.allVertCoords b) ->
  blocks_filled iblock (length indices) total 0 i (Broadcast.allIndices b) ->
  exists b',
    Broadcast.broadcast_loop mat transform (length vertices0) (length indices)
      indices zax b i rest = Ok b' /\
    blocks_filled tblock (length vertices0) total (0, 0, 0)%Q (length all)
      (Broadcast.allTexCoords b') /\
    blocks_filled vblock (length vertices0) total (0, 0, 0)%Q (length all)
      (Broadcast.allVertCoords b') /\
    blocks_filled iblock (length indices) total 0 (length all)
      (Broadcast.allIndices b').
Proof.
  induction rest as [|[zpos xform] rest IH]; intros i b Hn Hl J FT FV FI.
  - cbn [length] in Hl. replace (length all) with i by lia.
    exists b. cbn [Broadcast.broadcast_loop]. auto.
  - cbn [length] in Hl.
    assert (Ei : nth_error all i = Some (zpos, xform)).
    { pose proof (Hn 0%nat) as H0. rewrite Nat.add_0_r in H0.
      rewrite <- H0. reflexivity. }
    assert (Et : tblock i
                 = map (fun v => vset v (Z.to_nat zax) zpos) (Broadcast.vertices b)).
    { rewrite tblock_def, Ei. symmetry. apply J. }
    assert (Ev : vblock i
                 = transform (map (fun v => vset v (Z.to_nat zax) zpos)
                                (Broadcast.vertices b)) xform).
    { rewrite vblock_def, Ei, J. reflexivity. }
    destruct (blocks_filled_step _ _ _ _ _ _ FI) as (I' & EI & FI');
      [lia | rewrite iblock_def; apply length_map |].
    destruct (blocks_filled_step _ _ _ _ _ _ FT) as (T' & ET & FT');
      [lia | rewrite tblock_def, Ei; apply length_map |].
    destruct (blocks_filled_step _ _ _ _ _ _ FV) as (V' & EV & FV');
      [lia | rewrite vblock_def, Ei, transform_length; apply length_map |].
    rewrite iblock_def in EI. rewrite Et in ET. rewrite Ev in EV.
    cbn [Broadcast.broadcast_loop]. unfold Broadcast.broadcast_step.
    rewrite (norm_axis_in_range zax zax_valid). cbn [bind]. cbv zeta.
    rewrite EI. cbn [bind]. rewrite ET. cbn [bind]. rewrite EV. cbn [bind].
    apply IH;
      cbn [Broadcast.vertices Broadcast.allTexCoords Broadcast.allVertCoords
           Broadcast.allIndices].
    + intros k. replace (S i + k)%nat with (i + S k)%nat by lia.
      rewrite <- Hn. reflexivity.
    + lia.
    + intros z. rewrite map_map, <- (J z).
      apply map_ext. intros v. apply vset_vset.
    + exact FT'.
    + exact FV'.
    + exact FI'.
Qed.

End BroadcastLoop.

(** What [broadcast] returns, in terms of the filled blocks. *)
Lemma broadcast_spec (mat : Type)
  (transform : list (vec3 Q) -> mat -> list (vec3 Q))
  (vertices : list (vec3 Q)) (indices : list Z)
  (zposes : list Q) (xforms : list mat) (zax : Z) :
  (forall vs x, length (transform vs x) = length vs) ->
  0 <= zax < 3 ->
  let all := combine zposes xforms in
  exists V T I,
    Broadcast.broadcast mat transform vertices indices zposes xforms zax
      = Ok (V, T, I) /\
    blocks_filled
      (fun k => match nth_error all k with
                | Some (z, _) => map (fun v => vset v (Z.to_nat zax) z) vertices
                | None => []
                end)
      (length vertices) (length zposes) (0, 0, 0)%Q (length all) T /\
    blocks_filled
      (fun k => match nth_error all k with
                | Some (z, x) =>
                    transform (map (fun v => vset v (Z.to_nat zax) z) vertices) x
                | None => []
                end)
      (length vertices) (length zposes) (0, 0, 0)%Q (length all) V /\
    blocks_filled
      (fun k => map (fun x => u32 (x + Z.of_nat k * Z.of_nat (length vertices)))
                  indices)
      (length indices) (length zposes) 0 (length all) I.
Proof.
  intros HT Hz all.
  assert (La : (length all <= length zposes)%nat).
  { unfold all. rewrite length_combine. lia. }
  unfold Broadcast.broadcast.
  edestruct (broadcast_loop_spec mat transform HT vertices indices zax
               (length zposes) all Hz La _ _ _
               (fun k => eq_refl) (fun k => eq_refl) (fun k => eq_refl) all 0%nat)
    as (b' & E & FT & FV & FI);
    [ | | | | | | fold all; rewrite E; cbn [bind];
                  exists (Broadcast.allVertCoords b'), (Broadcast.allTexCoords b'),
                         (Broadcast.allIndices b');
                  split; [reflexivity | split; [exact FT | split; [exact FV | exact FI]]] ].
  - intros k. reflexivity.
  - reflexivity.
  - intros z. reflexivity.
  - apply blocks_filled_init.
  - apply blocks_filled_init.
  - apply blocks_filled_init.
Qed.

(** A block that the loop has not reached, read as a slice of the
    buffer. *)
Lemma blocks_filled_rest {A} (blocks : nat -> list A) (n total : nat)
  (zero : A) (i k : nat) (buf : list A) :
  blocks_filled blocks n total zero i buf ->
  (i <= k < total)%nat ->
  firstn n (skipn (k * n) buf) = repeat zero n.
Proof.
  intros (_ & _ & Z0) Hk.
  apply nth_error_ext. intros c.
  rewrite nth_error_firstn, nth_error_skipn.
  destruct (Nat.ltb_spec c n) as [Hc|Hc].
  - rewrite nth_error_repeat by assumption. apply Z0. nia.
  - symmetry. apply nth_error_None. rewrite repeat_length. lia.
Qed.

Lemma nth_error_combine_pair {A B} (a : list A) (b : list B) (i : nat) (x : A) (y : B) :
  nth_error a i = Some x -> nth_error b i = Some y ->
  nth_error (combine a b) i = Some (x, y).
Proof.
  intros Ha Hb.
  pose proof (nth_error_combine_map (fun p => p) a b i) as H.
  rewrite map_id, Ha, Hb in H. exact H.
Qed.

(** X14. For a valid depth axis (and a [transform] that returns as many
    points as it is given), [broadcast] returns buffers with room for one
    block per depth position.  For the [i]-th pair of a depth position
    and a transformation, the block [i] of the texture coordinates is the
    input vertices with the depth coordinate replaced by that position
    (the depth positions of earlier iterations leave no trace), the block
    [i] of the vertex coordinates is its transformation, and the block
    [i] of the indices is the input indices shifted by [i * nverts] as
    32-bit unsigned numbers.  When there are fewer transformations than
    depth positions, the remaining blocks stay zero. *)
Theorem broadcast_blocks (mat : Type)
  (transform : list (vec3 Q) -> mat -> list (vec3 Q))
  (vertices : list (vec3 Q)) (indices : list Z)
  (zposes : list Q) (xforms : list mat) (zax : Z) :
  (forall vs x, length (transform vs x) = length vs) ->
  0 <= zax < 3 ->
  let nverts := length vertices in
  let nidxs := length indices in
  exists allVertCoords allTexCoords allIndices,
    Broadcast.broadcast mat transform vertices indices zposes xforms zax
      = Ok (allVertCoords, allTexCoords, allIndices) /\
    length allVertCoords = (nverts * length zposes)%nat /\
    length allTexCoords = (nverts * length zposes)%nat /\
    length allIndices = (nidxs * length zposes)%nat /\
    (forall i zpos xform,
       nth_error zposes i = Some zpos -> nth_error xforms i = Some xform ->
       let slice := map (fun v => vset v (Z.to_nat zax) zpos) vertices in
       firstn nverts (skipn (i * nverts) allTexCoords) = slice /\
       firstn nverts (skipn (i * nverts) allVertCoords) = transform slice xform /\
       firstn nidxs (skipn (i * nidxs) allIndices)
       = map (fun x => u32 (x + Z.of_nat i * Z.of_nat nverts)) indices) /\
    (forall i, (length xforms <= i < length zposes)%nat ->
       firstn nverts (skipn (i * nverts) allTexCoords) = repeat (0, 0, 0)%Q nverts /\
       firstn nverts (skipn (i * nverts) allVertCoords) = repeat (0, 0, 0)%Q nverts /\
       firstn nidxs (skipn (i * nidxs) allIndices) = repeat 0 nidxs).
Proof.
  intros HT Hz nverts nidxs.
  destruct (broadcast_spec mat transform vertices indices zposes xforms zax HT Hz)
    as (V & T & I & E & FT & FV & FI).
  exists V, T, I. split; [exact E|].
  split; [apply FV|]. split; [apply FT|]. split; [apply FI|].
  split.
  - intros i zpos xform Ez Ex slice.
    pose proof (nth_error_combine_pair _ _ _ _ _ Ez Ex) as Ei.
    assert (Hi : (i < length (combine zposes xforms))%nat)
      by (apply nth_error_Some; rewrite Ei; discriminate).
    split; [|split].
    + pose proof (blocks_filled_slice _ _ _ _ _ i _ FT Hi) as S.
      cbv beta in S. rewrite Ei in S. apply S. apply length_map.
    + pose proof (blocks_filled_slice _ _ _ _ _ i _ FV Hi) as S.
      cbv beta in S. rewrite Ei in S. apply S. rewrite HT. apply length_map.
    + pose proof (blocks_filled_slice _ _ _ _ _ i _ FI Hi) as S.
      cbv beta in S. apply S. apply length_map.
  - intros i Hi.
    assert (Hi' : (length (combine zposes xforms) <= i < length zposes)%nat)
      by (rewrite length_combine; lia).
    split; [|split].
    + exact (blocks_filled_rest _ _ _ _ _ i _ FT Hi').
    + exact (blocks_filled_rest _ _ _ _ _ i _ FV Hi').
    + exact (blocks_filled_rest _ _ _ _ _ i _ FI Hi').
Qed.

(** The hypotheses of [broadcast_blocks] hold for the identity as the
    transformation: a segment replicated at the depths 5 and 7 of axis
    2. *)
Lemma broadcast_blocks_witness :
  exists allVertCoords allTexCoords allIndices,
    Broadcast.broadcast unit (fun vs _ => vs)
      [(0, 0, 9)%Q; (1, 0, 9)%Q] [0; 1] [5%Q; 7%Q] [tt; tt] 2
    = Ok (allVertCoords, allTexCoords, allIndices) /\
    length allTexCoords = 4%nat /\
    firstn 2 (skipn 2 allTexCoords) = [(0, 0, 7)%Q; (1, 0, 7)%Q] /\
    firstn 2 (skipn 2 allIndices) = [2; 3].
Proof.
  destruct (broadcast_blocks unit (fun vs _ => vs)
              [(0, 0, 9)%Q; (1, 0, 9)%Q] [0; 1] [5%Q; 7%Q] [tt; tt] 2)
    as (V & T & I & E & _ & LT & _ & B & _); [reflexivity | lia |].
  exists V, T, I. split; [exact E|]. split; [exact LT|].
  destruct (B 1%nat 7%Q tt eq_refl eq_refl) as (BT & _ & BI).
  split; [exact BT | exact BI].
Defined.

(** X15. When every input index addresses an input vertex and all the
    generated vertices can be numbered in 32 bits, the indices of block
    [i] are the input indices plus [i * nverts], without wrap-around, and
    each of them addresses, in the generated texture coordinates, the
    vertex that the input index addressed, moved to the depth of block
    [i]: every block is a copy of the input geometry on its own
    vertices. *)
Theorem broadcast_indices_address_own_block (mat : Type)
  (transform : list (vec3 Q) -> mat -> list (vec3 Q))
  (vertices : list (vec3 Q)) (indices : list Z)
  (zposes : list Q) (xforms : list mat) (zax : Z) :
  (forall vs x, length (transform vs x) = length vs) ->
  0 <= zax < 3 ->
  let nverts := length vertices in
  let nidxs := length indices in
  Forall (fun x => 0 <= x < Z.of_nat nverts) indices ->
  Z.of_nat (nverts * length zposes) <= 2 ^ 32 ->
  exists allVertCoords allTexCoords allIndices,
    Broadcast.broadcast mat transform vertices indices zposes xforms zax
      = Ok (allVertCoords, allTexCoords, allIndices) /\
    forall i j zpos xform x,
      nth_error zposes i = Some zpos -> nth_error xforms i = Some xform ->
      nth_error indices j = Some x ->
      exists v,
        nth_error vertices (Z.to_nat x) = Some v /\
        nth_error allIndices (i * nidxs + j) = Some (x + Z.of_nat (i * nverts)) /\
        nth_error allTexCoords (Z.to_nat (x + Z.of_nat (i * nverts)))
        = Some (vset v (Z.to_nat zax) zpos) /\
        nth_error allVertCoords (Z.to_nat (x + Z.of_nat (i * nverts)))
        = nth_error
            (transform (map (fun v => vset v (Z.to_nat zax) zpos) vertices) xform)
            (Z.to_nat x).
Proof.
  intros HT Hz nverts nidxs Hv Hb. subst nverts nidxs.
  destruct (broadcast_spec mat transform vertices indices zposes xforms zax HT Hz)
    as (V & T & I & E & FT & FV & FI).
  exists V, T, I. split; [exact E|].
  intros i j zpos xform x Ez Ex Ej.
  pose proof (nth_error_combine_pair _ _ _ _ _ Ez Ex) as Ei.
  assert (Hi : (i < length (combine zposes xforms))%nat)
    by (apply nth_error_Some; rewrite Ei; discriminate).
  assert (Hiz : (i < length zposes)%nat)
    by (apply nth_error_Some; rewrite Ez; discriminate).
  assert (Hj : (j < length indices)%nat)
    by (apply nth_error_Some; rewrite Ej; discriminate).
  assert (Hx : 0 <= x < Z.of_nat (length vertices)).
  { rewrite Forall_forall in Hv. apply Hv. eapply nth_error_In. exact Ej. }
  assert (Hxn : (Z.to_nat x < length vertices)%nat) by lia.
  destruct (nth_error vertices (Z.to_nat x)) as [v|] eqn:Evx;
    [|apply nth_error_None in Evx; lia].
  exists v. split; [reflexivity|].
  assert (Et : Z.to_nat (x + Z.of_nat (i * length vertices))
               = (i * length vertices + Z.to_nat x)%nat)
    by lia.
  split; [|split].
  - destruct FI as (_ & B & _). rewrite (B i j Hi Hj).
    rewrite nth_error_map, Ej. cbn [option_map]. f_equal.
    rewrite <- Nat2Z.inj_mul. apply u32_small. nia.
  - destruct FT as (_ & B & _). rewrite Et, (B i _ Hi Hxn), Ei.
    rewrite nth_error_map, Evx. reflexivity.
  - destruct FV as (_ & B & _). rewrite Et, (B i _ Hi Hxn), Ei. reflexivity.
Qed.

(** The hypotheses of [broadcast_indices_address_own_block] hold for a
    segment replicated at two depths: the second index of the second block
    is 3 and addresses the vertex (1, 0, 7). *)
Lemma broadcast_indices_address_own_block_witness :
  exists allVertCoords allTexCoords allIndices,
    Broadcast.broadcast unit (fun vs _ => vs)
      [(0, 0, 9)%Q; (1, 0, 9)%Q] [0; 1] [5%Q; 7%Q] [tt; tt] 2
    = Ok (allVertCoords, allTexCoords, allIndices) /\
    nth_error allIndices 3 = Some 3 /\
    nth_error allTexCoords 3 = Some (1, 0, 7)%Q.
Proof.
  destruct (broadcast_indices_address_own_block unit (fun vs _ => vs)
              [(0, 0, 9)%Q; (1, 0, 9)%Q] [0; 1] [5%Q; 7%Q] [tt; tt] 2)
    as (V & T & I & E & H);
    [reflexivity | lia | repeat constructor; cbn; lia | cbn; lia |].
  exists V, T, I. split; [exact E|].
  destruct (H 1%nat 1%nat 7%Q tt 1 eq_refl eq_refl eq_refl)
    as (v & Ev & EI & ET & _).
  cbn in Ev. injection Ev as <-.
  split; [exact EI | exact ET].
Defined.

(** X16. An index of the depth axis outside [-3 .. 2] is only noticed
    when there is something to replicate: [broadcast] raises an
    [IndexError] when there is at least one depth position and one
    transformation, and otherwise returns the zero-filled buffers without
    looking at the axis. *)
Theorem broadcast_invalid_axis (mat : Type)
  (transform : list (vec3 Q) -> mat -> list (vec3 Q))
  (vertices : list (vec3 Q)) (indices : list Z)
  (zposes : list Q) (xforms : list mat) (zax : Z) :
  ~ (-3 <= zax < 3) ->
  Broadcast.broadcast mat transform vertices indices zposes xforms zax
  = match zposes, xforms with
    | _ :: _, _ :: _ => Raise IndexError
    | _, _ =>
        Ok (repeat (0, 0, 0)%Q (length vertices * length zposes),
            repeat (0, 0, 0)%Q (length vertices * length zposes),
            repeat 0 (length indices * length zposes))
    end.
Proof.
  intros Hz.
  assert (En : norm_axis zax = Raise IndexError).
  { unfold norm_axis.
    destruct (Z.leb_spec 0 zax), (Z.ltb_spec zax 3), (Z.leb_spec (-3) zax),
      (Z.ltb_spec zax 0); cbn [andb]; try reflexivity; lia. }
  unfold Broadcast.broadcast.
  destruct zposes as [|z zposes]; [reflexivity|].
  destruct xforms as [|x xforms]; [reflexivity|].
  cbn [combine Broadcast.broadcast_loop]. unfold Broadcast.broadcast_step.
  rewrite En. reflexivity.
Qed.

(** The hypothesis of [broadcast_invalid_axis] holds for the axis 3. *)
Lemma broadcast_invalid_axis_witness :
  Broadcast.broadcast unit (fun vs _ => vs)
    [(0, 0, 9)%Q; (1, 0, 9)%Q] [0; 1] [5%Q; 7%Q] [tt; tt] 3
  = Raise IndexError.
Proof.
  apply (broadcast_invalid_axis unit (fun vs _ => vs)
           [(0, 0, 9)%Q; (1, 0, 9)%Q] [0; 1] [5%Q; 7%Q] [tt; tt] 3).
  lia.
Defined.

(** ** The sample grid *)

(** One axis of the sample grid, for a resolution that is positive and
    not larger than the extent of the axis. *)
Lemma axis_grid (lo hi res : Q) :
  (0 < res)%Q -> (res <= hi - lo)%Q ->
  let n := Qfloor ((hi - lo) / res) in
  let res' := ((hi - lo) / inject_Z n)%Q in
  Sample.numSamples lo hi res = Ok n /\
  1 <= n /\
  Sample.np_div (hi - lo) (inject_Z n) = Sample.Finite res' /\
  (res' * inject_Z n == hi - lo)%Q /\
  (res <= res')%Q /\ (res' < 2 * res)%Q.
Proof.
  intros Hres Hle n res'.
  destruct (numSamples_positive lo hi res Hres) as (N & _ & _); [lra|].
  fold n in N.
  assert (H1 : (1 <= (hi - lo) / res)%Q).
  { apply Qle_shift_div_l; [exact Hres | lra]. }
  assert (Hn : 1 <= n).
  { change 1 with (Qfloor 1). apply Qfloor_resp_le. exact H1. }
  pose proof (Qfloor_le ((hi - lo) / res)) as Hf. fold n in Hf.
  pose proof (Qlt_floor ((hi - lo) / res)) as Hc. fold n in Hc.
  rewrite inject_Z_plus in Hc. change (inject_Z 1) with 1%Q in Hc.
  assert (Hq : (1 <= inject_Z n)%Q).
  { change 1%Q with (inject_Z 1). rewrite <- Zle_Qle. exact Hn. }
  set (m := inject_Z n) in *. clearbody m.
  set (e := (hi - lo)%Q) in *. clearbody e.
  assert (Hm : (0 < m)%Q) by lra.
  assert (Hm0 : ~ (m == 0)%Q) by lra.
  assert (Hr0 : ~ (res == 0)%Q) by lra.
  assert (Ee : (e == (e / res) * res)%Q) by (field; exact Hr0).
  set (q := (e / res)%Q) in *. clearbody q.
  assert (Hlo : (m * res <= e)%Q).
  { rewrite Ee. apply Qmult_le_compat_r; [exact Hf | lra]. }
  assert (Hhi : (e < (m + 1) * res)%Q).
  { rewrite Ee. apply Qmult_lt_compat_r; [exact Hres | exact Hc]. }
  split; [exact N|]. split; [exact Hn|]. split.
  - unfold Sample.np_div.
    destruct (Qeq_bool m 0) eqn:E0; [|reflexivity].
    apply Qeq_bool_iff in E0. contradiction.
  - split; [unfold res'; field; exact Hm0|]. split.
    + unfold res'. apply Qle_shift_div_l; [exact Hm | lra].
    + unfold res'. apply Qlt_shift_div_r; [exact Hm|]. nra.
Qed.

(** The samples of one axis are the centres of [n] cells of equal width
    between the bounds. *)
Lemma axisSamples_centres (lo hi : Q) (n : Z) :
  1 <= n ->
  exists l,
    Sample.axisSamples lo hi n = Ok l /\
    length l = Z.to_nat n /\
    forall i, (i < Z.to_nat n)%nat ->
      exists v, nth_error l i = Some v /\
        (v == lo + (inject_Z (Z.of_nat i) + (1 # 2)) * ((hi - lo) / inject_Z n))%Q.
Proof.
  intros Hn. unfold Sample.axisSamples.
  destruct (Z.ltb_spec n 0) as [H0|_]; [lia|].
  eexists. split; [reflexivity|]. split; [apply length_linspace|].
  intros i Hi.
  destruct (Z.to_nat n) as [|[|m]] eqn:En; [lia | |].
  - assert (i = 0%nat) by lia. subst i.
    assert (n = 1) by lia. subst n.
    eexists. split; [reflexivity|].
    cbn [fadd fmul fsub of_nat Q_scalar]. field.
  - assert (EN : (inject_Z n == inject_Z (Z.of_nat m) + 2)%Q).
    { replace n with (Z.of_nat m + 2) by lia.
      rewrite inject_Z_plus. reflexivity. }
    assert (EM : (inject_Z (Z.of_nat (S m)) == inject_Z (Z.of_nat m) + 1)%Q).
    { rewrite Nat2Z.inj_succ. unfold Z.succ.
      rewrite inject_Z_plus. reflexivity. }
    assert (HM : (0 <= inject_Z (Z.of_nat m))%Q).
    { change 0%Q with (inject_Z 0). rewrite <- Zle_Qle. lia. }
    destruct (Nat.eq_dec i (S m)) as [->|Hne].
    + rewrite nth_error_linspace_last. eexists. split; [reflexivity|].
      rewrite EM, EN.
      set (M := inject_Z (Z.of_nat m)) in *. clearbody M.
      field. lra.
    + rewrite nth_error_linspace_inner by lia.
      eexists. split; [reflexivity|].
      cbn [fadd fmul fsub fdiv of_nat Q_scalar].
      rewrite EM, EN.
      set (M := inject_Z (Z.of_nat m)) in *. clearbody M.
      set (I := inject_Z (Z.of_nat i)). clearbody I.
      field. split; lra.
Qed.

(** X17. For two distinct axes among 0, 1, 2 and, on each of them, a
    positive resolution that is not larger than the extent of the bounds,
    [calculateSamplePoints] returns at least one sample per axis and an
    adjusted resolution that is finite, divides the extent exactly into
    the returned number of samples, and lies between the requested
    resolution and twice the requested resolution.  The sample points are
    laid out row by row: the point of column [i] and row [j] is the
    centre of the cell [(i, j)] of the adjusted grid,
    [(xmin + (i + 1/2) * xres, ymin + (j + 1/2) * yres)], and is 0 on the
    third axis. *)
Theorem calculateSamplePoints_centres
  (mat : Type) (axisBounds : Z * Z * Z -> mat -> Z -> string -> Q * Q)
  (shape : Z * Z * Z) (resolution : list Q) (xform : mat) (xax yax : Z)
  (origin : string) (xres yres xmin xmax ymin ymax : Q) :
  0 <= xax < 3 -> 0 <= yax < 3 -> xax <> yax ->
  py_index resolution xax = Ok xres ->
  py_index resolution yax = Ok yres ->
  (0 < xres)%Q -> (0 < yres)%Q ->
  axisBounds shape xform xax origin = (xmin, xmax) ->
  axisBounds shape xform yax origin = (ymin, ymax) ->
  (xres <= xmax - xmin)%Q -> (yres <= ymax - ymin)%Q ->
  exists coords xres' yres' xcount ycount,
    Sample.calculateSamplePoints mat axisBounds shape resolution xform xax yax
      origin
    = Ok (coords, Sample.Finite xres', Sample.Finite yres', xcount, ycount) /\
    1 <= xcount /\ 1 <= ycount /\
    (xres' * inject_Z xcount == xmax - xmin)%Q /\
    (yres' * inject_Z ycount == ymax - ymin)%Q /\
    (xres <= xres' /\ xres' < 2 * xres)%Q /\
    (yres <= yres' /\ yres' < 2 * yres)%Q /\
    forall i j, (i < Z.to_nat xcount)%nat -> (j < Z.to_nat ycount)%nat ->
      exists p,
        nth_error coords (j * Z.to_nat xcount + i) = Some p /\
        (vget p (Z.to_nat xax)
         == xmin + (inject_Z (Z.of_nat i) + (1 # 2)) * xres')%Q /\
        (vget p (Z.to_nat yax)
         == ymin + (inject_Z (Z.of_nat j) + (1 # 2)) * yres')%Q /\
        vget p (Z.to_nat (3 - xax - yax)) = 0%Q.
Proof.
  intros Hx Hy Hxy Ex Ey Hxres Hyres Bx By Hxle Hyle.
  destruct (axis_grid xmin xmax xres Hxres Hxle) as (NX & X1 & DX & MX & LX & UX).
  destruct (axis_grid ymin ymax yres Hyres Hyle) as (NY & Y1 & DY & MY & LY & UY).
  set (xcount := Qfloor ((xmax - xmin) / xres)) in *.
  set (ycount := Qfloor ((ymax - ymin) / yres)) in *.
  destruct (axisSamples_centres xmin xmax xcount X1) as (lx & SX & LLX & CX).
  destruct (axisSamples_centres ymin ymax ycount Y1) as (ly & SY & LLY & CY).
  exists (flat_map
            (fun y => map (fun x => vset (vset (0, 0, 0)%Q (Z.to_nat xax) x)
                                      (Z.to_nat yax) y) lx) ly),
         ((xmax - xmin) / inject_Z xcount)%Q,
         ((ymax - ymin) / inject_Z ycount)%Q, xcount, ycount.
  split.
  { unfold Sample.calculateSamplePoints.
    rewrite Ex, Ey, Bx, By; cbn [bind].
    rewrite NX, NY; cbn [bind]. cbv zeta.
    rewrite SX, SY; cbn [bind].
    rewrite (norm_axis_in_range xax Hx), (norm_axis_in_range yax Hy); cbn [bind].
    rewrite DX, DY. reflexivity. }
  split; [exact X1|]. split; [exact Y1|].
  split; [exact MX|]. split; [exact MY|].
  split; [split; [exact LX | exact UX]|].
  split; [split; [exact LY | exact UY]|].
  intros i j Hi Hj.
  destruct (CX i Hi) as (vx & EX & VX).
  destruct (CY j Hj) as (vy & EY & VY).
  exists (vset (vset (0, 0, 0)%Q (Z.to_nat xax) vx) (Z.to_nat yax) vy).
  split.
  { rewrite nth_error_flat_map_block
      by (try (intros a; rewrite length_map; exact LLX); exact Hi).
    rewrite EY, nth_error_map, EX. reflexivity. }
  assert (Hxa : (Z.to_nat xax < 3)%nat) by lia.
  assert (Hya : (Z.to_nat yax < 3)%nat) by lia.
  assert (Hza : (Z.to_nat (3 - xax - yax) < 3)%nat) by lia.
  split; [|split].
  - rewrite vget_vset_other by (try assumption; lia).
    rewrite vget_vset_same. exact VX.
  - rewrite vget_vset_same. exact VY.
  - rewrite !vget_vset_other by (try assumption; lia).
    destruct (Z.to_nat (3 - xax - yax)) as [|[|z]]; reflexivity.
Qed.

(** The hypotheses of [calculateSamplePoints_centres] hold for the 4x4x4
    grid with the identity affine, the axes (0, 1) and a resolution of
    1.5: there are two samples per axis between -0.5 and 3.5, at an
    adjusted resolution of 2, and the last sample point is (2.5, 2.5, 0). *)
Lemma calculateSamplePoints_centres_witness :
  exists coords xres' yres' p,
    Sample.calculateSamplePoints Affine.mat4 Affine.axisBounds (4, 4, 4)
      [1.5; 1.5; 1.5]%Q Affine.identity 0 1 "centre"
    = Ok (coords, Sample.Finite xres', Sample.Finite yres', 2, 2) /\
    (xres' == 2)%Q /\ (yres' == 2)%Q /\
    nth_error coords 3 = Some p /\
    (vget p 0 == 2.5)%Q /\ (vget p 1 == 2.5)%Q /\ vget p 2 = 0%Q.
Proof.
  destruct (calculateSamplePoints_centres Affine.mat4 Affine.axisBounds (4, 4, 4)
              [1.5; 1.5; 1.5]%Q Affine.identity 0 1 "centre" 1.5%Q 1.5%Q
              (- (1 # 2))%Q (7 # 2)%Q (- (1 # 2))%Q (7 # 2)%Q)
    as (coords & xres' & yres' & xcount & ycount & E & _ & _ & MX & MY & _ & _ & P);
    [lia | lia | lia | vm_compute; reflexivity | vm_compute; reflexivity
     | reflexivity | reflexivity | vm_compute; reflexivity | vm_compute; reflexivity
     | vm_compute; discriminate | vm_compute; discriminate | ].
  assert (Ec : xcount = 2 /\ ycount = 2).
  { vm_compute in E. split; congruence. }
  destruct Ec as [-> ->].
  destruct (P 1%nat 1%nat) as (p & Ep & PX & PY & PZ); [lia | lia |].
  assert (EX : (xres' == 2)%Q)
    by (change (inject_Z 2) with 2%Q in MX; lra).
  assert (EY : (yres' == 2)%Q)
    by (change (inject_Z 2) with 2%Q in MY; lra).
  exists coords, xres', yres', p. split; [exact E|].
  split; [exact EX|]. split; [exact EY|]. split; [exact Ep|].
  split; [|split].
  - rewrite PX, EX. reflexivity.
  - rewrite PY, EY. reflexivity.
  - exact PZ.
Defined.

(** ** The contents of the triangle strip *)

Lemma store_nth {A} (a : list A) (i : nat) (v : A) :
  (i < length a)%nat ->
  exists a',
    store a i v = Ok a' /\ length a' = length a /\
    forall p, nth_error a' p = if Nat.eqb p i then Some v else nth_error a p.
Proof.
  revert i. induction a as [|h t IH]; intros i Hi; cbn [length] in Hi; [lia|].
  destruct i as [|j]; cbn [store].
  - eexists. split; [reflexivity|]. split; [reflexivity|].
    intros [|p]; reflexivity.
  - destruct (IH j) as (t' & E & L & N); [lia|].
    rewrite E. cbn [bind]. eexists. split; [reflexivity|].
    split; [cbn [length]; lia|].
    intros [|p]; [reflexivity|]. cbn [nth_error Nat.eqb]. apply N.
Qed.

Ltac eqb_cases :=
  repeat match goal with
         | |- context [Nat.eqb ?a ?b] => destruct (Nat.eqb_spec a b); try lia
         end.

(** One iteration of the loop writes the entries of its cell and leaves
    the entries before and after them as they are. *)
Lemma strip_step_content (xlen ylen : nat) (indices : list Z) (yi xi : nat) :
  (yi < ylen)%nat -> (xi <= xlen)%nat ->
  length indices = (ylen * (2 * (xlen + 1) + 2) - 2)%nat ->
  let ii := (yi * (2 * (xlen + 1) + 2) + 2 * xi)%nat in
  exists indices',
    Strip.strip_step xlen ylen indices (yi, xi) = Ok indices' /\
    length indices' = length indices /\
    strip_cell xlen ylen indices' yi xi /\
    forall p, (p < ii \/ ii + (if Nat.eqb xi xlen then 3 else 1) < p)%nat ->
      nth_error indices' p = nth_error indices p.
Proof.
  intros Hy Hx Hlen ii.
  unfold Strip.strip_step, strip_cell. cbv zeta. fold ii.
  set (zi := Z.of_nat yi * (2 * (Z.of_nat xlen + 1) + 2) + 2 * Z.of_nat xi).
  set (vi := Z.of_nat yi * (2 * (Z.of_nat xlen + 1)) + Z.of_nat xi).
  assert (Ei : zi = Z.of_nat ii) by (subst zi ii; lia).
  assert (Ev : vi = Z.of_nat (yi * (2 * (xlen + 1)) + xi)) by (subst vi; lia).
  assert (Hii : (ii + 1 < length indices)%nat) by (rewrite Hlen; subst ii; nia).
  assert (Hi3 : (yi + 1 < ylen)%nat -> xi = xlen -> (ii + 3 < length indices)%nat)
    by (intros; rewrite Hlen; subst ii; nia).
  replace (Z.to_nat zi) with ii by lia.
  replace (Z.to_nat (zi + 1)) with (ii + 1)%nat by lia.
  replace (Z.to_nat (zi + 2)) with (ii + 2)%nat by lia.
  replace (Z.to_nat (zi + 3)) with (ii + 3)%nat by lia.
  replace (vi + Z.of_nat xlen + 1)
    with (Z.of_nat (yi * (2 * (xlen + 1)) + xi + xlen + 1)) by lia.
  replace ((Z.of_nat yi + 1) * (2 * (Z.of_nat xlen + 1)))
    with (Z.of_nat ((yi + 1) * (2 * (xlen + 1)))) by lia.
  rewrite Ev. clear Ei Ev. clearbody ii. clear zi vi.
  destruct (store_nth indices ii (u32 (Z.of_nat (yi * (2 * (xlen + 1)) + xi))))
    as (a1 & E1 & L1 & N1); [lia|].
  rewrite E1; cbn [bind].
  destruct (store_nth a1 (ii + 1)
              (u32 (Z.of_nat (yi * (2 * (xlen + 1)) + xi + xlen + 1))))
    as (a2 & E2 & L2 & N2); [lia|].
  rewrite E2; cbn [bind].
  destruct ((Z.of_nat xi =? Z.of_nat xlen) && (Z.of_nat yi <? Z.of_nat ylen - 1))
    eqn:Hc.
  - apply andb_true_iff in Hc as [Hc1 Hc2].
    apply Z.eqb_eq in Hc1. apply Z.ltb_lt in Hc2.
    assert (Exi : xi = xlen) by lia.
    assert (Hyi : (yi + 1 < ylen)%nat) by lia.
    specialize (Hi3 Hyi Exi).
    destruct (store_nth a2 (ii + 2)
                (u32 (Z.of_nat (yi * (2 * (xlen + 1)) + xi + xlen + 1))))
      as (a3 & E3 & L3 & N3); [lia|].
    rewrite E3; cbn [bind].
    destruct (store_nth a3 (ii + 3)
                (u32 (Z.of_nat ((yi + 1) * (2 * (xlen + 1))))))
      as (a4 & E4 & L4 & N4); [lia|].
    exists a4. split; [exact E4|]. split; [lia|]. split.
    + split; [|split; [|intros _ _; split]];
        rewrite N4, ?N3, ?N2, ?N1; eqb_cases; rewrite ?N3, ?N2, ?N1; eqb_cases;
        rewrite ?N2, ?N1; eqb_cases; rewrite ?N1; eqb_cases; reflexivity.
    + intros p Hp. rewrite <- Exi, Nat.eqb_refl in Hp.
      rewrite N4, N3, N2, N1. eqb_cases. reflexivity.
  - exists a2. split; [reflexivity|]. split; [lia|].
    assert (Hn : ~ (xi = xlen /\ (yi + 1 < ylen)%nat)).
    { intros [Exi Hyi]. apply andb_false_iff in Hc as [Hc|Hc].
      - apply Z.eqb_neq in Hc. lia.
      - apply Z.ltb_ge in Hc. lia. }
    split.
    + split; [|split; [|intros Exi Hyi; exfalso; apply Hn; split; assumption]];
        rewrite N2, ?N1; eqb_cases; rewrite ?N1; eqb_cases; reflexivity.
    + intros p Hp. rewrite N2, N1.
      destruct (Nat.eqb xi xlen); eqb_cases; reflexivity.
Qed.

(** An iteration for another cell leaves the entries of a cell as they
    are. *)
Lemma strip_cell_preserved (xlen ylen : nat) (indices indices' : list Z)
  (yi xi yi' xi' : nat) :
  (xi <= xlen)%nat -> (xi' <= xlen)%nat ->
  (yi', xi') <> (yi, xi) ->
  (forall p, (p < yi * (2 * (xlen + 1) + 2) + 2 * xi
              \/ yi * (2 * (xlen + 1) + 2) + 2 * xi
                 + (if Nat.eqb xi xlen then 3 else 1) < p)%nat ->
     nth_error indices' p = nth_error indices p) ->
  strip_cell xlen ylen indices yi' xi' ->
  strip_cell xlen ylen indices' yi' xi'.
Proof.
  intros Hx Hx' Hne U C. unfold strip_cell in *. cbv zeta in *.
  destruct C as (C0 & C1 & C23).
  set (D := (2 * (xlen + 1) + 2)%nat) in *.
  assert (HD : D = (2 * xlen + 4)%nat) by (subst D; lia).
  assert (Hpos : forall o, (o <= 3)%nat -> (o <= 1 \/ xi' = xlen)%nat ->
            (yi' * D + 2 * xi' + o < yi * D + 2 * xi
             \/ yi * D + 2 * xi + (if Nat.eqb xi xlen then 3 else 1)
                < yi' * D + 2 * xi' + o)%nat).
  { intros o Ho Ho'.
    destruct (Nat.lt_trichotomy yi' yi) as [Hlt|[Heq|Hgt]].
    - left. assert ((yi' + 1) * D <= yi * D)%nat by nia. nia.
    - subst yi'. assert (xi' <> xi) by congruence.
      destruct (Nat.eqb_spec xi xlen); lia.
    - right. assert ((yi + 1) * D <= yi' * D)%nat by nia.
      destruct (Nat.eqb xi xlen); nia. }
  clearbody D.
  split; [|split].
  - rewrite <- C0. apply U.
    pose proof (Hpos 0%nat) as H0. rewrite Nat.add_0_r in H0.
    apply H0; lia.
  - rewrite <- C1. apply U. apply Hpos; lia.
  - intros Exi Hyi. destruct (C23 Exi Hyi) as [C2 C3]. split.
    + rewrite <- C2. apply U. apply Hpos; [lia | right; exact Exi].
    + rewrite <- C3. apply U. apply Hpos; [lia | right; exact Exi].
Qed.

(** After the loop, the entries of every cell it has visited are in the
    index array. *)
Lemma strip_loop_content (xlen ylen : nat) (todo : list (nat * nat)) :
  forall (done : nat -> nat -> Prop) (indices : list Z),
  Forall (fun yx => (fst yx < ylen)%nat /\ (snd yx <= xlen)%nat) todo ->
  length indices = (ylen * (2 * (xlen + 1) + 2) - 2)%nat ->
  (forall yi xi, done yi xi -> (xi <= xlen)%nat ->
     strip_cell xlen ylen indices yi xi) ->
  exists indices',
    Strip.strip_loop xlen ylen indices todo = Ok indices' /\
    length indices' = (ylen * (2 * (xlen + 1) + 2) - 2)%nat /\
    forall yi xi, done yi xi \/ In (yi, xi) todo -> (xi <= xlen)%nat ->
      strip_cell xlen ylen indices' yi xi.
Proof.
  induction todo as [|[y x] rest IH]; intros done indices Htodo Hlen Hdone;
    cbn [Strip.strip_loop].
  - exists indices. split; [reflexivity|]. split; [exact Hlen|].
    intros yi xi [H|[]] Hxi. apply Hdone; assumption.
  - pose proof (Forall_inv Htodo) as [Hy Hx]. cbn [fst snd] in Hy, Hx.
    pose proof (Forall_inv_tail Htodo) as Hrest.
    destruct (strip_step_content xlen ylen indices y x Hy Hx Hlen)
      as (a1 & E1 & L1 & C1 & U1).
    rewrite E1; cbn [bind].
    destruct (IH (fun yi xi => done yi xi \/ (yi, xi) = (y, x)) a1 Hrest)
      as (a2 & E2 & L2 & C2).
    + lia.
    + intros yi xi [Hd|Heq] Hxi.
      * destruct (Nat.eq_dec yi y) as [Ey|Ny];
          [destruct (Nat.eq_dec xi x) as [Ex|Nx]|].
        -- subst. exact C1.
        -- apply (strip_cell_preserved xlen ylen indices a1 y x yi xi Hx Hxi);
             [congruence | exact U1 | apply Hdone; assumption].
        -- apply (strip_cell_preserved xlen ylen indices a1 y x yi xi Hx Hxi);
             [congruence | exact U1 | apply Hdone; assumption].
      * injection Heq as -> ->. exact C1.
    + exists a2. split; [exact E2|]. split; [exact L2|].
      intros yi xi [Hd|[Heq|Hin]] Hxi; apply C2; auto.
Qed.

(** The tessellator, for a grid of at least one row and one column and
    valid axes: the two coordinate buffers, and the loop that fills the
    index array. *)
Lemma strip_unfold (coords : list (vec3 Q)) (xpixdim ypixdim : Q) (N M : nat)
  (xax yax : Z) :
  (1 <= M)%nat -> (1 <= N)%nat ->
  length coords = (M * N)%nat ->
  0 <= xax < 3 -> 0 <= yax < 3 ->
  let grid := Strip.repeat_rows (Strip.chunks N M coords) in
  let xa := Z.to_nat xax in
  let ya := Z.to_nat yax in
  Strip.samplePointsToTriangleStrip coords xpixdim ypixdim N M xax yax
  = (indices <-
       Strip.strip_loop N M (repeat 0 (M * (2 * (N + 1) + 2) - 2))
         (list_prod (seq 0 M) (seq 0 (N + 1))) ;;
     Ok (concat
           (Strip.upd_alt
              (map (vupd (fun c => c + Strip.half * ypixdim)%Q ya)) false
              (Strip.upd_alt
                 (map (vupd (fun c => c - Strip.half * ypixdim)%Q ya)) true
                 (map (map (vupd (fun c => c - Strip.half * xpixdim)%Q xa))
                    (map (Strip.upd_last (vupd (fun c => c + xpixdim)%Q xa))
                       (map (fun row => row ++ Strip.last_col row) grid))))),
         concat (map (fun row => Strip.first_col row ++ row) grid),
         indices)).
Proof.
  intros HM HN Hlen Hx Hy grid xa ya.
  unfold Strip.samplePointsToTriangleStrip, Strip.reshape.
  rewrite Hlen, Nat.eqb_refl; cbn [bind].
  rewrite (norm_axis_in_range xax Hx), (norm_axis_in_range yax Hy); cbn [bind].
  destruct (Nat.eqb_spec N 0) as [E0|_]; [lia|]. cbn [bind].
  unfold Strip.zeros.
  destruct (Z.ltb_spec (Z.of_nat M * (2 * (Z.of_nat N + 1) + 2) - 2) 0) as [Hn|Hn];
    [nia|].
  cbn [bind].
  replace (Z.to_nat (Z.of_nat M * (2 * (Z.of_nat N + 1) + 2) - 2))
    with (M * (2 * (N + 1) + 2) - 2)%nat by nia.
  reflexivity.
Qed.

(** X18. For a grid of [M >= 1] rows by [N >= 1] columns whose
    [2 * (N + 1) * M] vertices can be numbered in 32 bits, the index array
    of the triangle strip holds, for the row [yi] and the column [xi]
    (with [xi = N] for the right edge of the last cell), the vertex below
    the column and then the vertex above it: the vertices [xi] and
    [xi + N + 1] of the [2 * (N + 1)] vertices of the row.  After every
    row but the last one, two more entries repeat the last vertex of the
    row and the first vertex of the next row, so that the triangles that
    join two rows are degenerate.  No entry written for a cell is
    overwritten by a later iteration. *)
Theorem strip_indices_content
  (coords : list (vec3 Q)) (xpixdim ypixdim : Q) (N M : nat) (xax yax : Z) :
  (1 <= M)%nat -> (1 <= N)%nat ->
  length coords = (M * N)%nat ->
  0 <= xax < 3 -> 0 <= yax < 3 ->
  Z.of_nat (2 * (N + 1) * M) <= 2 ^ 32 ->
  exists worldCoords texCoords indices,
    Strip.samplePointsToTriangleStrip coords xpixdim ypixdim N M xax yax
      = Ok (worldCoords, texCoords, indices) /\
    forall yi xi, (yi < M)%nat -> (xi <= N)%nat ->
      let row := (yi * (2 * (N + 1) + 2))%nat in
      let first := (yi * (2 * (N + 1)))%nat in
      nth_error indices (row + 2 * xi) = Some (Z.of_nat (first + xi)) /\
      nth_error indices (row + 2 * xi + 1) = Some (Z.of_nat (first + N + 1 + xi)) /\
      ((yi + 1 < M)%nat ->
       nth_error indices (row + 2 * N + 2) = Some (Z.of_nat (first + N + 1 + N)) /\
       nth_error indices (row + 2 * N + 3) = Some (Z.of_nat (first + 2 * (N + 1))) /\
       nth_error indices (row + 2 * N + 4) = Some (Z.of_nat (first + 2 * (N + 1)))).
Proof.
  intros HM HN Hlen Hx Hy Hb.
  rewrite (strip_unfold coords xpixdim ypixdim N M xax yax HM HN Hlen Hx Hy).
  destruct (strip_loop_content N M (list_prod (seq 0 M) (seq 0 (N + 1)))
              (fun _ _ => False) (repeat 0 (M * (2 * (N + 1) + 2) - 2)))
    as (idx & E & L & C).
  { apply product_in_range. }
  { apply repeat_length. }
  { intros yi xi []. }
  rewrite E; cbn [bind]. do 3 eexists. split; [reflexivity|].
  assert (Cell : forall yi xi, (yi < M)%nat -> (xi <= N)%nat ->
            strip_cell N M idx yi xi).
  { intros yi xi Hyi Hxi. apply C; [|exact Hxi]. right.
    apply in_prod; apply in_seq; lia. }
  assert (S : forall v, (v < 2 * (N + 1) * M)%nat -> u32 (Z.of_nat v) = Z.of_nat v).
  { intros v Hv. apply u32_small. lia. }
  unfold strip_cell in Cell. cbv zeta in Cell.
  intros yi xi Hyi Hxi.
  destruct (Cell yi xi Hyi Hxi) as (C0 & C1 & _).
  split; [|split].
  - rewrite C0. rewrite S by nia. reflexivity.
  - rewrite C1. rewrite S by nia. f_equal. lia.
  - intros Hnext.
    destruct (Cell yi N Hyi (Nat.le_refl N)) as (_ & _ & C23).
    destruct (C23 eq_refl Hnext) as [C2 C3].
    destruct (Cell (yi + 1)%nat 0%nat ltac:(lia) ltac:(lia)) as (C4 & _).
    split; [|split].
    + rewrite C2. rewrite S by nia. f_equal. lia.
    + rewrite C3. rewrite S by nia. f_equal. lia.
    + replace (yi * (2 * (N + 1) + 2) + 2 * N + 4)%nat
        with ((yi + 1) * (2 * (N + 1) + 2) + 2 * 0)%nat by lia.
      rewrite C4. rewrite S by nia. f_equal. lia.
Qed.

(** The hypotheses of [strip_indices_content] hold for a grid of 2 rows by
    3 columns: the first row ends with the vertices 3 and 7, and is joined
    to the second row, which starts with the vertex 8, by the entries 7, 8
    and 8. *)
Lemma strip_indices_content_witness :
  exists worldCoords texCoords indices,
    Strip.samplePointsToTriangleStrip
      (repeat (0, 0, 0)%Q 6) 1 1 3 2 0 1 = Ok (worldCoords, texCoords, indices) /\
    firstn 5 (skipn 6 indices) = [3; 7; 7; 8; 8].
Proof.
  destruct (strip_indices_content (repeat (0, 0, 0)%Q 6) 1 1 3 2 0 1)
    as (W & T & I & E & C); [lia | lia | reflexivity | lia | lia | cbn; lia |].
  exists W, T, I. split; [exact E|].
  destruct (C 0%nat 3%nat) as (C0 & C1 & C234); [lia | lia |].
  destruct C234 as (C2 & C3 & C4); [lia|].
  cbn in C0, C1, C2, C3, C4.
  apply nth_error_ext. intros c.
  rewrite nth_error_firstn, nth_error_skipn.
  destruct c as [|[|[|[|[|c]]]]]; cbn [Nat.ltb Nat.leb Nat.add nth_error];
    [exact C0 | exact C1 | exact C2 | exact C3 | exact C4 | destruct c; reflexivity].
Defined.

Lemma nth_error_concat_block {A} (k : nat) (rows : list (list A)) :
  Forall (fun r => length r = k) rows ->
  forall r c, (c < k)%nat ->
  nth_error (concat rows) (r * k + c)
  = match nth_error rows r with
    | Some row => nth_error row c
    | None => None
    end.
Proof.
  induction 1 as [|row rest Hrow _ IH]; intros r c Hc.
  - cbn [concat]. destruct r; destruct (_ + _)%nat; reflexivity.
  - cbn [concat]. destruct r as [|r].
    + cbn [Nat.mul Nat.add nth_error]. apply nth_error_app1. lia.
    + rewrite nth_error_app2 by (rewrite Hrow; lia).
      replace (S r * k + c - length row)%nat with (r * k + c)%nat
        by (rewrite Hrow; lia).
      cbn [nth_error]. apply IH. exact Hc.
Qed.

Lemma nth_error_upd_alt {A} (f : A -> A) (rows : list A) :
  forall (b : bool) (r : nat),
  nth_error (Strip.upd_alt f b rows) r
  = option_map (fun row => if (if Nat.even r then b else negb b) then f row else row)
      (nth_error rows r).
Proof.
  induction rows as [|row rest IH]; intros b r.
  - destruct r; reflexivity.
  - destruct r as [|r]; [reflexivity|].
    cbn [Strip.upd_alt nth_error]. rewrite IH.
    rewrite Nat.even_succ, <- Nat.negb_even.
    destruct (Nat.even r), b; reflexivity.
Qed.

Lemma nth_error_upd_last {A} (f : A -> A) (row : list A) :
  forall c,
  nth_error (Strip.upd_last f row) c
  = option_map (fun p => if Nat.eqb (S c) (length row) then f p else p)
      (nth_error row c).
Proof.
  induction row as [|p t IH]; intros c.
  - destruct c; reflexivity.
  - destruct t as [|q t].
    + destruct c as [|c]; [reflexivity|]. destruct c; reflexivity.
    + destruct c as [|c]; [reflexivity|].
      change (Strip.upd_last f (p :: q :: t)) with (p :: Strip.upd_last f (q :: t)).
      cbn [nth_error]. rewrite IH. reflexivity.
Qed.

Lemma nth_error_repeat_rows {A} (a : list (list A)) (r s : nat) :
  (s < 2)%nat ->
  nth_error (Strip.repeat_rows a) (r * 2 + s) = nth_error a r.
Proof.
  intros Hs. unfold Strip.repeat_rows.
  rewrite (nth_error_flat_map_block (fun row : list A => [row; row]) 2)
    by (try (intros; reflexivity); exact Hs).
  destruct (nth_error a r); [|reflexivity].
  destruct s as [|[|s]]; [reflexivity | reflexivity | lia].
Qed.

Lemma nth_error_chunks {A} (cols : nat) (l : list A) :
  forall rows r, (r < rows)%nat ->
  nth_error (Strip.chunks cols rows l) r = Some (firstn cols (skipn (r * cols) l)).
Proof.
  intros rows. revert l. induction rows as [|n IH]; intros l r Hr; [lia|].
  cbn [Strip.chunks]. destruct r as [|r]; [reflexivity|].
  cbn [nth_error]. rewrite IH by lia. rewrite skipn_skipn.
  do 3 f_equal. lia.
Qed.

(** X19. For a grid of [M >= 1] rows by [N >= 1] columns of sample
    points and two distinct valid axes, the tessellator places two rows of
    [N + 1] vertices around every row of samples, the lower one first.
    The vertex of column [c] is the sample of column [c] moved by half a
    pixel to the left, or, for the additional last column [c = N], the
    last sample of the row moved by half a pixel to the right; it is
    moved by half a pixel down in the lower row and up in the upper row,
    and keeps the sample's coordinate on the third axis.  Its texture
    coordinate is a sample itself: the one to its left (column [c - 1])
    or, in the first column, the first sample of the row. *)
Theorem strip_vertices_geometry
  (coords : list (vec3 Q)) (xpixdim ypixdim : Q) (N M : nat) (xax yax : Z) :
  (1 <= M)%nat -> (1 <= N)%nat ->
  length coords = (M * N)%nat ->
  0 <= xax < 3 -> 0 <= yax < 3 -> xax <> yax ->
  exists worldCoords texCoords indices,
    Strip.samplePointsToTriangleStrip coords xpixdim ypixdim N M xax yax
      = Ok (worldCoords, texCoords, indices) /\
    forall yi c (top : bool), (yi < M)%nat -> (c <= N)%nat ->
      exists p t v,
        nth_error coords (yi * N + Nat.min c (N - 1)) = Some p /\
        nth_error coords (yi * N + (c - 1)) = Some t /\
        nth_error worldCoords ((yi * 2 + (if top then 1 else 0)) * (N + 1) + c)
          = Some v /\
        nth_error texCoords ((yi * 2 + (if top then 1 else 0)) * (N + 1) + c)
          = Some t /\
        (vget v (Z.to_nat xax)
         == vget p (Z.to_nat xax)
            + (if Nat.ltb c N then - (1 # 2) else 1 # 2) * xpixdim)%Q /\
        (vget v (Z.to_nat yax)
         == vget p (Z.to_nat yax)
            + (if top then 1 # 2 else - (1 # 2)) * ypixdim)%Q /\
        vget v (Z.to_nat (3 - xax - yax)) = vget p (Z.to_nat (3 - xax - yax)).
Proof.
  intros HM HN Hlen Hx Hy Hxy.
  rewrite (strip_unfold coords xpixdim ypixdim N M xax yax HM HN Hlen Hx Hy).
  destruct (strip_loop_content N M (list_prod (seq 0 M) (seq 0 (N + 1)))
              (fun _ _ => False) (repeat 0 (M * (2 * (N + 1) + 2) - 2)))
    as (idx & E & _).
  { apply product_in_range. }
  { apply repeat_length. }
  { intros yi xi []. }
  rewrite E; cbn [bind]. do 3 eexists. split; [reflexivity|].
  set (xa := Z.to_nat xax). set (ya := Z.to_nat yax).
  set (za := Z.to_nat (3 - xax - yax)).
  assert (Hxa : (xa < 3)%nat) by (subst xa; lia).
  assert (Hya : (ya < 3)%nat) by (subst ya; lia).
  assert (Hza : (za < 3)%nat) by (subst za; lia).
  assert (Nxy : xa <> ya) by (subst xa ya; lia).
  assert (Nyx : ya <> xa) by (subst xa ya; lia).
  assert (Nxz : xa <> za) by (subst xa za; lia).
  assert (Nyz : ya <> za) by (subst ya za; lia).
  clearbody xa ya za.
  destruct (chunks_shape N M coords Hlen) as [Lc Fc].
  destruct (repeat_rows_shape N _ Fc) as [Lr Fr].
  set (grid := Strip.repeat_rows (Strip.chunks N M coords)) in *.
  assert (Fw0 : Forall (fun r : list (vec3 Q) => length r = (N + 1)%nat)
                  (map (fun row => row ++ Strip.last_col row) grid)).
  { apply Forall_map_len with (k := N); auto.
    intros r Hr. unfold Strip.last_col.
    rewrite length_app, length_skipn; lia. }
  assert (Ft : Forall (fun r : list (vec3 Q) => length r = (N + 1)%nat)
                 (map (fun row => Strip.first_col row ++ row) grid)).
  { apply Forall_map_len with (k := N); auto.
    intros r Hr. unfold Strip.first_col.
    rewrite length_app, length_firstn; lia. }
  set (fx := vupd (fun c : Q => (c - Strip.half * xpixdim)%Q) xa).
  set (gx := vupd (fun c : Q => (c + xpixdim)%Q) xa).
  set (fd := vupd (fun c : Q => (c - Strip.half * ypixdim)%Q) ya).
  set (fu := vupd (fun c : Q => (c + Strip.half * ypixdim)%Q) ya).
  assert (Fw : Forall (fun r : list (vec3 Q) => length r = (N + 1)%nat)
                 (Strip.upd_alt (map fu) false
                    (Strip.upd_alt (map fd) true
                       (map (map fx)
                          (map (Strip.upd_last gx)
                             (map (fun row => row ++ Strip.last_col row) grid)))))).
  { apply upd_alt_shape; [intros r Hr; rewrite length_map; exact Hr|].
    apply upd_alt_shape; [intros r Hr; rewrite length_map; exact Hr|].
    apply Forall_map_len with (k := (N + 1)%nat);
      [intros; rewrite length_map; auto|].
    apply Forall_map_len with (k := (N + 1)%nat);
      [intros; rewrite length_upd_last; auto|].
    exact Fw0. }
  intros yi c top Hyi Hc.
  set (s := if top then 1%nat else 0%nat).
  assert (Hs : (s < 2)%nat) by (subst s; destruct top; lia).
  set (row := firstn N (skipn (yi * N) coords)).
  assert (Hrow : nth_error grid (yi * 2 + s) = Some row).
  { unfold grid. rewrite nth_error_repeat_rows by exact Hs.
    apply nth_error_chunks. exact Hyi. }
  assert (Lrow : length row = N).
  { unfold row. rewrite length_firstn, length_skipn. nia. }
  assert (Nrow : forall j, (j < N)%nat -> nth_error row j = nth_error coords (yi * N + j)).
  { intros j Hj. unfold row. rewrite nth_error_firstn, nth_error_skipn.
    destruct (Nat.ltb_spec j N); [reflexivity | lia]. }
  destruct (nth_error coords (yi * N + Nat.min c (N - 1))) as [p|] eqn:Ep;
    [|apply nth_error_None in Ep; nia].
  destruct (nth_error coords (yi * N + (c - 1))) as [t|] eqn:Et;
    [|apply nth_error_None in Et; nia].
  exists p, t.
  exists (if top then fu (fx (if Nat.eqb c N then gx p else p))
          else fd (fx (if Nat.eqb c N then gx p else p))).
  split; [reflexivity|]. split; [reflexivity|].
  assert (Ev : Nat.even (yi * 2 + s) = negb top).
  { rewrite Nat.even_add, Nat.even_mul, orb_true_r.
    subst s. destruct top; reflexivity. }
  split; [|split].
  - rewrite (nth_error_concat_block (N + 1) _ Fw) by lia.
    rewrite !nth_error_upd_alt, !nth_error_map, Hrow, Ev.
    cbn [option_map].
    assert (Eb : nth_error (row ++ Strip.last_col row) c = Some p).
    { destruct (Nat.eq_dec c N) as [->|Hn].
      - rewrite nth_error_app2 by lia. unfold Strip.last_col.
        rewrite nth_error_skipn, Nrow by lia.
        rewrite <- Ep. f_equal. lia.
      - rewrite nth_error_app1 by lia. rewrite Nrow by lia.
        rewrite <- Ep. f_equal. lia. }
    destruct top; cbn [negb];
      rewrite !nth_error_map, nth_error_upd_last, Eb; cbn [option_map];
      rewrite length_app; unfold Strip.last_col at 1;
      rewrite length_skipn, Lrow;
      replace (Nat.eqb (S c) (N + (N - (N - 1)))) with (Nat.eqb c N)
        by (destruct (Nat.eqb_spec c N), (Nat.eqb_spec (S c) (N + (N - (N - 1))));
            try reflexivity; lia);
      reflexivity.
  - rewrite (nth_error_concat_block (N + 1) _ Ft) by lia.
    rewrite nth_error_map, Hrow. cbn [option_map].
    rewrite <- Et. unfold Strip.first_col.
    destruct c as [|c].
    + rewrite nth_error_app1 by (rewrite length_firstn; lia).
      rewrite nth_error_firstn. cbn [Nat.ltb Nat.leb].
      rewrite Nrow by lia. reflexivity.
    + rewrite nth_error_app2 by (rewrite length_firstn; lia).
      rewrite length_firstn, Lrow.
      replace (S c - Nat.min 1 N)%nat with c by lia.
      rewrite Nrow by lia. f_equal. lia.
  - unfold fu, fd, fx, gx, Strip.half.
    destruct (Nat.eqb_spec c N) as [->|Hn];
      [rewrite Nat.ltb_irrefl
      |destruct (Nat.ltb_spec c N) as [_|Hge]; [|lia]];
      destruct top;
      (split; [|split]);
      rewrite ?vget_vupd_same;
      rewrite ?(vget_vupd_other _ _ ya xa) by auto;
      rewrite ?(vget_vupd_other _ _ ya za) by auto;
      rewrite ?(vget_vupd_other _ _ xa za) by auto;
      rewrite ?vget_vupd_same;
      rewrite ?(vget_vupd_other _ _ xa ya) by auto;
      rewrite ?(vget_vupd_other _ _ xa za) by auto;
      rewrite ?vget_vupd_same;
      rewrite ?(vget_vupd_other _ _ xa ya) by auto;
      try reflexivity; field.
Qed.

(** The hypotheses of [strip_vertices_geometry] hold for a grid of one
    row by two columns with the samples (0, 0, 5) and (1, 0, 5) and pixels
    of 1 by 2: the last vertex of the upper row is (1.5, 1, 5), and its
    texture coordinate is the second sample. *)
Lemma strip_vertices_geometry_witness :
  exists worldCoords texCoords indices v,
    Strip.samplePointsToTriangleStrip
      [(0, 0, 5)%Q; (1, 0, 5)%Q] 1 2 2 1 0 1
    = Ok (worldCoords, texCoords, indices) /\
    nth_error worldCoords 5 = Some v /\
    nth_error texCoords 5 = Some (1, 0, 5)%Q /\
    (vget v 0 == 1.5)%Q /\ (vget v 1 == 1)%Q /\ vget v 2 = 5%Q.
Proof.
  destruct (strip_vertices_geometry [(0, 0, 5)%Q; (1, 0, 5)%Q] 1 2 2 1 0 1)
    as (W & T & I & E & G); [lia | lia | reflexivity | lia | lia | lia |].
  destruct (G 0%nat 2%nat true) as (p & t & v & Ep & Et & Ev & ET & VX & VY & VZ);
    [lia | lia |].
  cbn in Ep, Et. injection Ep as <-. injection Et as <-.
  exists W, T, I, v. split; [exact E|].
  split; [exact Ev|]. split; [exact ET|].
  split; [|split].
  - rewrite VX. vm_compute. reflexivity.
  - rewrite VY. vm_compute. reflexivity.
  - exact VZ.
Defined.
